(** * Deploy and branch-merge orchestrators of chenliwen-dev-tools

    A shallow embedding of [GitBranchManager] (the scripted merge of a
    branch into [dev] and [sit]) and of [DeployManager] (starting a remote
    pipeline and polling it), with the properties the specification states
    about them.

    Conventions of the embedding.
    - A JavaScript string is a [string] of bytes, its UTF-8 encoding.
      Searching, splitting and taking a prefix agree on the two forms; the
      white space of [\s] and of [trim] is read off the bytes, with its
      members outside ASCII.
    - Code that talks to the outside (git subprocesses, HTTP, prompts,
      notifications, timers) runs in a small monad that threads the trace
      of observable events; the outside world is an oracle of the
      environment, which sees what happened before.
    - An [async] method runs to its end before the next one starts: the
      interleaving of two methods that are in flight together is not
      modelled.  The polls of one round of [checkProgressLoop] are made in
      the order of the list, and [checkProgressLoop()] called without
      [await] runs at once.
    - The output channel is kept in the trace of the branch manager
      without its time stamps; of the output channel of the deploy
      manager only the error lines are kept.
    - Numbers are integers, [NaN] or [Infinity]; an integer that a string
      of digits denotes is rounded to the nearest double.
    - The conversion of a value to a number or to text is written out for
      the primitive values.  For an array or an object it runs through
      [toString] and [valueOf]: whether it throws is computed
      ([converts]), what it gives is left to an oracle.  The text of a
      notification is kept as the values it quotes; making it throws when
      one of them does not convert. *)

From Stdlib Require Import List String Ascii ZArith Bool Arith Lia DecimalString.
Import ListNotations.
Local Open Scope string_scope.
Local Open Scope list_scope.

(** String concatenation, as in a template literal. *)
Infix "+++" := String.append (right associativity, at level 60).

(** ** String primitives of the host language *)
Module JS.

(** The white space of the language, which is the class [\s] of its
    regular expressions and what [trim] removes, has members that UTF-8
    writes in one, two and three bytes.  In one byte: tab, line feed,
    vertical tab, form feed, carriage return and space. *)
Definition is_space (c : ascii) : bool :=
  match nat_of_ascii c with
  | 9 | 10 | 11 | 12 | 13 | 32 => true
  | _ => false
  end.

(** In two bytes: the no-break space U+00A0 (C2 A0). *)
Definition is_space2 (c1 c2 : ascii) : bool :=
  (nat_of_ascii c1 =? 194)%nat && (nat_of_ascii c2 =? 160)%nat.

(** In three bytes: U+1680 (E1 9A 80), U+2000 to U+200A (E2 80 80 to
    E2 80 8A), the line and paragraph separators U+2028 and U+2029
    (E2 80 A8, E2 80 A9), U+202F (E2 80 AF), U+205F (E2 81 9F), U+3000
    (E3 80 80) and the byte order mark U+FEFF (EF BB BF). *)
Definition is_space3 (c1 c2 c3 : ascii) : bool :=
  let n1 := nat_of_ascii c1 in
  let n2 := nat_of_ascii c2 in
  let n3 := nat_of_ascii c3 in
  ((n1 =? 225) && (n2 =? 154) && (n3 =? 128)
   || (n1 =? 226) && (n2 =? 128)
      && ((128 <=? n3) && (n3 <=? 138) || (n3 =? 168) || (n3 =? 169) || (n3 =? 175))
   || (n1 =? 226) && (n2 =? 129) && (n3 =? 159)
   || (n1 =? 227) && (n2 =? 128) && (n3 =? 128)
   || (n1 =? 239) && (n2 =? 187) && (n3 =? 191))%nat.

(** What follows one white-space character at the head of [s]. *)
Definition after_space (s : string) : option string :=
  match s with
  | String c1 s1 =>
      if is_space c1 then Some s1
      else
        match s1 with
        | String c2 s2 =>
            if is_space2 c1 c2 then Some s2
            else
              match s2 with
              | String c3 s3 => if is_space3 c1 c2 c3 then Some s3 else None
              | EmptyString => None
              end
        | EmptyString => None
        end
  | EmptyString => None
  end.

(** [\d] *)
Definition is_digit (c : ascii) : bool :=
  let n := nat_of_ascii c in ((48 <=? n) && (n <=? 57))%nat.

(** [s.startsWith(p)] *)
Definition startsWith (s p : string) : bool := String.prefix p s.

(** [s.includes(p)] *)
Fixpoint includes (s p : string) : bool :=
  String.prefix p s ||
  match s with
  | EmptyString => false
  | String _ s' => includes s' p
  end.

(** [s.split(sep)] for a one-character separator: [acc] is the piece
    read so far. *)
Fixpoint split_aux (sep : ascii) (s : string) (acc : string) : list string :=
  match s with
  | EmptyString => [acc]
  | String c s' =>
      if Ascii.eqb c sep then acc :: split_aux sep s' EmptyString
      else split_aux sep s' (acc +++ String c EmptyString)
  end.

Definition split (sep : ascii) (s : string) : list string :=
  split_aux sep s EmptyString.

(** The new-line character. *)
Definition LF : ascii := ascii_of_nat 10.

(** Leading white space removed. *)
Fixpoint trimStart (s : string) : string :=
  match s with
  | String c1 s1 =>
      if is_space c1 then trimStart s1
      else
        match s1 with
        | String c2 s2 =>
            if is_space2 c1 c2 then trimStart s2
            else
              match s2 with
              | String c3 s3 => if is_space3 c1 c2 c3 then trimStart s3 else s
              | EmptyString => s
              end
        | EmptyString => s
        end
  | EmptyString => EmptyString
  end.

(** The string is made of white-space characters only. *)
Fixpoint all_space (s : string) : bool :=
  match s with
  | String c1 s1 =>
      if is_space c1 then all_space s1
      else
        match s1 with
        | String c2 s2 =>
            if is_space2 c1 c2 then all_space s2
            else
              match s2 with
              | String c3 s3 => is_space3 c1 c2 c3 && all_space s3
              | EmptyString => false
              end
        | EmptyString => false
        end
  | EmptyString => true
  end.

(** Trailing white space removed: the string is cut where what remains
    is white space only. *)
Fixpoint trimEnd (s : string) : string :=
  match s with
  | EmptyString => EmptyString
  | String c s' => if all_space s then EmptyString else String c (trimEnd s')
  end.

(** [s.trim()] *)
Definition trim (s : string) : string := trimEnd (trimStart s).

(** A string in a boolean position: only the empty string is falsy. *)
Definition truthy (s : string) : bool :=
  match s with EmptyString => false | _ => true end.

(** [arr.indexOf(x)], as the position of the first occurrence. *)
Fixpoint indexOf (arr : list string) (x : string) : option nat :=
  match arr with
  | [] => None
  | y :: arr' =>
      if String.eqb y x then Some 0
      else option_map S (indexOf arr' x)
  end.

(** [arr.filter((x, index, arr) => p x index arr)]: the callback sees the
    index of the element and the whole array. *)
Fixpoint filter_index {A} (p : A -> nat -> bool) (i : nat) (l : list A) : list A :=
  match l with
  | [] => []
  | x :: l' =>
      if p x i then x :: filter_index p (S i) l' else filter_index p (S i) l'
  end.

(** [arr.indexOf(x) === index] *)
Definition first_occurrence (arr : list string) (x : string) (index : nat) : bool :=
  match indexOf arr x with
  | Some i => (i =? index)%nat
  | None => false
  end.

(** Keeping the first occurrences, written by recursion: [seen] holds the
    elements already passed. *)
Fixpoint keep_new (seen l : list string) : list string :=
  match l with
  | [] => []
  | x :: l' =>
      if in_dec string_dec x seen then keep_new (seen ++ [x]) l'
      else x :: keep_new (seen ++ [x]) l'
  end.

End JS.

(** ** The branch-merge orchestrator (src/components/GitBranchManager.ts) *)
Module GitBranchManager.

(** What [execAsync] resolves to. *)
Record exec_output := { stdout : string; stderr : string }.

(** A git subprocess either resolves with its output or rejects with an
    [Error]; the error is kept as its message. *)
Inductive exec_result :=
| Resolved (out : exec_output)
| Rejected (message : string).

(** An entry of the quick pick built by [selectBranchToMerge]. *)
Record quick_pick_item := {
  label : string;
  description : string;
  picked : bool
}.

(** Observable events, in the order in which they happen. *)
Inductive event :=
| Exec (command : string)
| OutputShow
| Log (message : string)
| LogError (message : string) (error : string)
| Progress (increment : Z) (message : string)
| ShowErrorMessage (message : string)
| ShowWarningMessage (message : string) (modal : bool) (items : list string)
| ShowInformationMessage (message : string)
| ShowQuickPick (items : list quick_pick_item)
| ExecuteCommand (command : string).

(** The git commands of a trace, oldest first. *)
Fixpoint git_commands (tr : list event) : list string :=
  match tr with
  | [] => []
  | Exec c :: tr' => c :: git_commands tr'
  | _ :: tr' => git_commands tr'
  end.

(** The outside world: the repository answers a command knowing the
    commands that ran before it; the user answers the prompts. *)
Record env := {
  git : list string -> string -> exec_result;
  dirty_answer : option string;
  quick_pick_answer : list quick_pick_item -> option nat;
  confirm_answer : option string
}.

(** Computations: they read the environment, extend the trace and either
    return a value or throw an [Error] (its message). *)
Definition M (A : Type) : Type :=
  env -> list event -> list event * (A + string).

Definition ret {A} (a : A) : M A := fun _ tr => (tr, inl a).

Definition bind {A B} (m : M A) (k : A -> M B) : M B :=
  fun e tr =>
    match m e tr with
    | (tr', inl a) => k a e tr'
    | (tr', inr err) => (tr', inr err)
    end.

Definition throw {A} (message : string) : M A := fun _ tr => (tr, inr message).

(** [try { m } catch (error) { h error }] *)
Definition try_catch {A} (m : M A) (h : string -> M A) : M A :=
  fun e tr =>
    match m e tr with
    | (tr', inl a) => (tr', inl a)
    | (tr', inr err) => h err e tr'
    end.

Definition emit (ev : event) : M unit := fun _ tr => (tr ++ [ev], inl tt).

Definition ask : M env := fun e tr => (tr, inl e).

Declare Scope git_scope.
Delimit Scope git_scope with git.
Notation "x <- m ;; k" := (bind m (fun x => k))
  (at level 61, m at next level, right associativity) : git_scope.
Notation "m ;; k" := (bind m (fun _ => k))
  (at level 61, right associativity) : git_scope.
Local Open Scope git_scope.

(** [log(message)]: a line of the output channel. *)
Definition log (message : string) : M unit := emit (Log message).

(** [logError(message, error)] *)
Definition logError (message error : string) : M unit :=
  emit (LogError message error).

(** [execGitCommand(command)] *)
Definition execGitCommand (command : string) : M exec_output :=
  fun e tr =>
    match git e (git_commands tr) command with
    | Resolved out => (tr ++ [Exec command], inl out)
    | Rejected message => (tr ++ [Exec command], inr message)
    end.

(** [isGitRepository()] *)
Definition isGitRepository : M bool :=
  try_catch (execGitCommand "git rev-parse --git-dir" ;; ret true)
            (fun _ => ret false).

(** [isWorkingDirectoryClean()] *)
Definition isWorkingDirectoryClean : M bool :=
  try_catch (out <- execGitCommand "git status --porcelain" ;;
             ret (String.length (JS.trim (stdout out)) =? 0)%nat)
            (fun _ => ret false).

(** [getCurrentBranch()] *)
Definition getCurrentBranch : M string :=
  out <- execGitCommand "git rev-parse --abbrev-ref HEAD" ;;
  ret (JS.trim (stdout out)).

(** [branch.replace(/^\*?\s+/, '')]: an optional star and the white space
    after it are removed; a string that does not start that way is left
    as it is. *)
Definition strip_marker (branch : string) : string :=
  match branch with
  | String c rest =>
      if Ascii.eqb c "*" then
        match JS.after_space rest with
        | Some _ => JS.trimStart rest
        | None => branch
        end
      else
        match JS.after_space branch with
        | Some _ => JS.trimStart branch
        | None => branch
        end
  | EmptyString => branch
  end.

(** The prefix of a remote-tracking branch. *)
Definition remote_prefix : string := "remotes/origin/".

(** [branch.replace(/^remotes\/origin\//, '')] *)
Definition strip_remote (branch : string) : string :=
  if JS.startsWith branch remote_prefix
  then String.substring (String.length remote_prefix)
                        (String.length branch - String.length remote_prefix) branch
  else branch.

(** The pure part of [getAllBranches]: from the output of
    [git branch -a] to the list of branch names. *)
Definition parseBranches (out : string) : list string :=
  let arr1 := map (fun branch => strip_remote (strip_marker branch))
                  (JS.split JS.LF out) in
  let arr2 := filter (fun branch => JS.truthy branch
                                    && negb (JS.includes branch "HEAD")) arr1 in
  JS.filter_index (JS.first_occurrence arr2) 0 arr2.

(** [getAllBranches()] *)
Definition getAllBranches : M (list string) :=
  try_catch (out <- execGitCommand "git branch -a" ;;
             ret (parseBranches (stdout out)))
            (fun error => logError "获取分支列表失败" error ;; ret []).

(** [selectBranchToMerge(currentBranch)]: [None] is [undefined]. *)
Definition selectBranchToMerge (currentBranch : string) : M (option string) :=
  branches <- getAllBranches ;;
  let items := map (fun branch =>
                      {| label := branch;
                         description := if String.eqb branch currentBranch
                                        then "(当前分支)" else EmptyString;
                         picked := String.eqb branch currentBranch |}) branches in
  emit (ShowQuickPick items) ;;
  e <- ask ;;
  ret (match quick_pick_answer e items with
       | Some i => option_map label (nth_error items i)
       | None => None
       end).

(** The double-quote character. *)
Definition DQUOTE : string := String (ascii_of_nat 34) EmptyString.

(** The text of the confirmation dialogue. *)
Definition confirm_message (branchToMerge : string) : string :=
  "确认要将分支 " +++ DQUOTE +++ branchToMerge +++ DQUOTE +++
  " 自动合并到 dev 和 sit 分支吗？" +++ String JS.LF (String JS.LF
  ("操作流程：" +++ String JS.LF
  ("1. 切换到 " +++ branchToMerge +++ " 分支并拉取最新代码" +++ String JS.LF
  ("2. 合并到 dev 分支并推送" +++ String JS.LF
  ("3. 合并到 sit 分支并推送" +++ String JS.LF
   "4. 切换回原分支"))))).

(** [confirmMergeOperation(branchToMerge)] *)
Definition confirmMergeOperation (branchToMerge : string) : M bool :=
  emit (ShowWarningMessage (confirm_message branchToMerge) true
                           ["确认合并"; "取消"]) ;;
  e <- ask ;;
  ret (match confirm_answer e with
       | Some result => String.eqb result "确认合并"
       | None => false
       end).

(** [switchAndPullBranch(branch)] *)
Definition switchAndPullBranch (branch : string) : M unit :=
  log ("🔄 切换到 " +++ branch +++ " 分支...") ;;
  execGitCommand ("git checkout " +++ branch) ;;
  log ("⬇️ 拉取 " +++ branch +++ " 分支最新代码...") ;;
  execGitCommand ("git pull origin " +++ branch) ;;
  ret tt.

(** [switchToBranch(branch)] *)
Definition switchToBranch (branch : string) : M unit :=
  log ("🔄 切换到 " +++ branch +++ " 分支...") ;;
  execGitCommand ("git checkout " +++ branch) ;;
  ret tt.

(** The test that [checkMergeConflict] applies to the output of
    [git status --porcelain]. *)
Definition conflict_in (out : string) : bool :=
  JS.includes out "UU" || JS.includes out "AA" || JS.includes out "DD".

(** [checkMergeConflict()] *)
Definition checkMergeConflict : M bool :=
  try_catch (out <- execGitCommand "git status --porcelain" ;;
             ret (conflict_in (stdout out)))
            (fun _ => ret false).

(** The message of the error thrown on a conflict. *)
Definition conflict_message (sourceBranch targetBranch : string) : string :=
  "合并 " +++ sourceBranch +++ " 到 " +++ targetBranch +++
  " 时发生冲突，请手动解决".

(** [mergeToTargetBranch(sourceBranch, targetBranch)] *)
Definition mergeToTargetBranch (sourceBranch targetBranch : string) : M unit :=
  switchToBranch targetBranch ;;
  log ("⬇️ 拉取 " +++ targetBranch +++ " 分支最新代码...") ;;
  execGitCommand ("git pull origin " +++ targetBranch) ;;
  log ("🔀 合并 " +++ sourceBranch +++ " 到 " +++ targetBranch +++ "...") ;;
  execGitCommand ("git merge " +++ sourceBranch) ;;
  conflict <- checkMergeConflict ;;
  (if conflict : bool
   then throw (conflict_message sourceBranch targetBranch)
   else ret tt) ;;
  log ("⬆️ 推送 " +++ targetBranch +++ " 分支...") ;;
  execGitCommand ("git push origin " +++ targetBranch +++ ":" +++ targetBranch) ;;
  ret tt.

(** The notification that ends a successful run. *)
Definition success_message : string := "🎉 分支自动合并成功!".

(** [executeMergeFlow(branchToMerge, originalBranch)]: the callback of
    [withProgress], then the final log line and notification. *)
Definition executeMergeFlow (branchToMerge originalBranch : string) : M unit :=
  emit (Progress 10 ("切换到 " +++ branchToMerge +++ " 分支...")) ;;
  switchAndPullBranch branchToMerge ;;
  emit (Progress 30 "合并到 dev 分支...") ;;
  mergeToTargetBranch branchToMerge "dev" ;;
  emit (Progress 30 "合并到 sit 分支...") ;;
  mergeToTargetBranch "dev" "sit" ;;
  emit (Progress 20 ("切换回 " +++ originalBranch +++ " 分支...")) ;;
  switchToBranch originalBranch ;;
  emit (Progress 10 "合并完成!") ;;
  log "✅ 自动合并完成!" ;;
  emit (ShowInformationMessage success_message).

(** The message shown when the working tree is not clean. *)
Definition dirty_message : string :=
  "工作区有未提交的更改，请先提交或暂存更改后再进行合并操作".

(** The message shown outside a git repository. *)
Definition not_repository_message : string :=
  "当前工作区不是Git仓库，请在Git项目中使用此功能".

(** The body of the [try] block of [autoMergeBranch].  A [return] in the
    middle of the block is the end of the corresponding branch. *)
Definition autoMergeBranch_body : M unit :=
  emit OutputShow ;;
  log "🚀 开始自动合并分支..." ;;
  isRepo <- isGitRepository ;;
  if negb isRepo then
    log ("❌ " +++ not_repository_message) ;;
    emit (ShowErrorMessage not_repository_message)
  else
    clean <- isWorkingDirectoryClean ;;
    proceed <-
      (if negb clean then
         log ("⚠️ " +++ dirty_message) ;;
         emit (ShowWarningMessage dirty_message false
                                  ["查看更改"; "继续操作"; "取消"]) ;;
         e <- ask ;;
         match dirty_answer e with
         | Some action =>
             if String.eqb action "查看更改" then
               emit (ExecuteCommand "git.openChange") ;; ret false
             else if negb (String.eqb action "继续操作") then
               log "❌ 用户取消操作" ;; ret false
             else ret true
         | None => log "❌ 用户取消操作" ;; ret false
         end
       else ret true) ;;
    if negb proceed then ret tt
    else
      currentBranch <- getCurrentBranch ;;
      log ("📍 当前分支: " +++ currentBranch) ;;
      branchToMerge <- selectBranchToMerge currentBranch ;;
      match branchToMerge with
      | None => log "❌ 用户取消操作"
      | Some branch =>
          if negb (JS.truthy branch) then log "❌ 用户取消操作"
          else
            confirmed <- confirmMergeOperation branch ;;
            if negb confirmed then log "❌ 用户取消合并操作"
            else executeMergeFlow branch currentBranch
      end.

(** The message computed in the [catch] block of [autoMergeBranch]; every
    error that reaches it is an [Error]. *)
Definition friendly_error (message : string) : string :=
  if JS.includes message "not a git repository" then
    "当前目录不是Git仓库，请在Git项目中使用此功能"
  else if JS.includes message "fatal: not a git repository" then
    "请确保在Git仓库的根目录下使用此功能"
  else "合并失败: " +++ message.

(** [autoMergeBranch()] *)
Definition autoMergeBranch : M unit :=
  try_catch autoMergeBranch_body
            (fun error =>
               logError "合并过程中发生错误" error ;;
               emit (ShowErrorMessage (friendly_error error))).

(** Running a computation from an empty trace. *)
Definition run {A} (m : M A) (e : env) : list event * (A + string) := m e [].

(** *** Vocabulary of the statements about the merge workflow *)

(** Every git command succeeds. *)
Definition all_succeed (e : env) : Prop :=
  forall history command, exists out, git e history command = Resolved out.

(** No status report holds one of the strings that [checkMergeConflict]
    looks for. *)
Definition no_conflict (e : env) : Prop :=
  forall history out,
    git e history "git status --porcelain" = Resolved out ->
    conflict_in (stdout out) = false.

(** The commands that [executeMergeFlow] runs when nothing fails. *)
Definition merge_sequence (branchToMerge originalBranch : string) : list string :=
  [ "git checkout " +++ branchToMerge;
    "git pull origin " +++ branchToMerge;
    "git checkout dev";
    "git pull origin dev";
    "git merge " +++ branchToMerge;
    "git status --porcelain";
    "git push origin dev:dev";
    "git checkout sit";
    "git pull origin sit";
    "git merge dev";
    "git status --porcelain";
    "git push origin sit:sit";
    "git checkout " +++ originalBranch ].

(** The trace of [executeMergeFlow] before its final notification, when
    nothing fails. *)
Definition merge_trace (branchToMerge originalBranch : string) : list event :=
  [ Progress 10 ("切换到 " +++ branchToMerge +++ " 分支...");
    Log ("🔄 切换到 " +++ branchToMerge +++ " 分支...");
    Exec ("git checkout " +++ branchToMerge);
    Log ("⬇️ 拉取 " +++ branchToMerge +++ " 分支最新代码...");
    Exec ("git pull origin " +++ branchToMerge);
    Progress 30 "合并到 dev 分支...";
    Log "🔄 切换到 dev 分支...";
    Exec "git checkout dev";
    Log "⬇️ 拉取 dev 分支最新代码...";
    Exec "git pull origin dev";
    Log ("🔀 合并 " +++ branchToMerge +++ " 到 dev...");
    Exec ("git merge " +++ branchToMerge);
    Exec "git status --porcelain";
    Log "⬆️ 推送 dev 分支...";
    Exec "git push origin dev:dev";
    Progress 30 "合并到 sit 分支...";
    Log "🔄 切换到 sit 分支...";
    Exec "git checkout sit";
    Log "⬇️ 拉取 sit 分支最新代码...";
    Exec "git pull origin sit";
    Log "🔀 合并 dev 到 sit...";
    Exec "git merge dev";
    Exec "git status --porcelain";
    Log "⬆️ 推送 sit 分支...";
    Exec "git push origin sit:sit";
    Progress 20 ("切换回 " +++ originalBranch +++ " 分支...");
    Log ("🔄 切换到 " +++ originalBranch +++ " 分支...");
    Exec ("git checkout " +++ originalBranch);
    Progress 10 "合并完成!";
    Log "✅ 自动合并完成!" ].

(** The sequence that the specification gives for the source branch
    [feature/login] (its end-to-end scenario 1). *)
Definition scenario_sequence : list string :=
  [ "git checkout feature/login";
    "git pull origin feature/login";
    "git checkout dev";
    "git pull origin dev";
    "git merge feature/login";
    "git push origin dev:dev";
    "git checkout dev";
    "git pull origin dev";
    "git merge dev";
    "git push origin sit:sit";
    "git checkout feature/login" ].

(** A line of output. *)
Definition line (text : string) : string := text +++ String JS.LF EmptyString.

(** A repository in which every command succeeds: the status report
    prints [status_text], the current branch is [feature/login], and the
    branches are [feature/login], [dev] and [sit]. *)
Definition repository (status_text : string) : list string -> string -> exec_result :=
  fun _ command =>
    Resolved {| stdout :=
                  if String.eqb command "git status --porcelain" then status_text
                  else if String.eqb command "git rev-parse --abbrev-ref HEAD"
                       then line "feature/login"
                  else if String.eqb command "git branch -a"
                       then line "* feature/login" +++ line "  dev" +++ line "  sit"
                  else EmptyString;
                stderr := EmptyString |}.

(** A user who confirms every dialogue and picks the first entry. *)
Definition world (status_text : string) : env :=
  {| git := repository status_text;
     dirty_answer := Some "继续操作";
     quick_pick_answer := fun _ => Some 0;
     confirm_answer := Some "确认合并" |}.





(** The conflict test as the specification words it: a line of the status
    report bears the marker [UU], [AA] or [DD], that is, starts with it
    (the status code is the first two columns of a porcelain line). *)
Definition marker_line (line : string) : bool :=
  JS.startsWith line "UU" || JS.startsWith line "AA" || JS.startsWith line "DD".

Definition spec_conflict (out : string) : bool :=
  existsb marker_line (JS.split JS.LF out).

(** The commands of a trace that are not status reports. *)
Definition without_status (commands : list string) : list string :=
  filter (fun c => negb (String.eqb c "git status --porcelain")) commands.

(** *** The remaining commands of the branch manager *)

(** [arr.forEach(f)] *)
Fixpoint forEach {A} (f : A -> M unit) (l : list A) : M unit :=
  match l with
  | [] => ret tt
  | x :: l' => f x ;; forEach f l'
  end.

(** [showBranchInfo()] *)
Definition showBranchInfo : M unit :=
  try_catch
    (currentBranch <- getCurrentBranch ;;
     branches <- getAllBranches ;;
     emit OutputShow ;;
     log "📋 分支信息:" ;;
     log ("当前分支: " +++ currentBranch) ;;
     log "所有分支:" ;;
     forEach (fun branch =>
                log ("  - " +++ branch +++
                     (if String.eqb branch currentBranch then " (当前)"
                      else EmptyString)))
             branches)
    (fun error => logError "获取分支信息失败" error).

(** The commands that [autoMergeBranch] runs before it asks for the
    confirmation; none of them changes the repository. *)
Definition read_only_checks : list string :=
  [ "git rev-parse --git-dir";
    "git status --porcelain";
    "git rev-parse --abbrev-ref HEAD";
    "git branch -a" ].

(** Events that are neither a notification nor a prompt. *)
Definition silent (ev : event) : bool :=
  match ev with
  | Exec _ | Log _ | LogError _ _ | Progress _ _ => true
  | _ => false
  end.

(** The notifications and prompts of a trace. *)
Definition shown (tr : list event) : list event :=
  filter (fun ev => negb (silent ev)) tr.

(** A step of the merge flow: a command whose failure ends the flow, or
    the status report of [checkMergeConflict] with the test that follows
    it; the failure of the report is passed over, and its output ends the
    flow when the conflict test finds one of its strings in it. *)
Inductive step :=
| Must (command : string)
| Check (sourceBranch targetBranch : string).

Definition command_of (s : step) : string :=
  match s with
  | Must command => command
  | Check _ _ => "git status --porcelain"
  end.

(** The error with which a step ends the flow, when it does, after the
    commands of [history]. *)
Definition stops (e : env) (history : list string) (s : step) : option string :=
  match s with
  | Must command =>
      match git e history command with
      | Resolved _ => None
      | Rejected message => Some message
      end
  | Check sourceBranch targetBranch =>
      match git e history "git status --porcelain" with
      | Resolved out =>
          if conflict_in (stdout out)
          then Some (conflict_message sourceBranch targetBranch)
          else None
      | Rejected _ => None
      end
  end.

(** Taking the steps of a plan in turn, up to the first one that stops:
    the commands that run, and the error of the step that stopped. *)
Fixpoint run_plan (e : env) (history : list string) (plan : list step)
  : list string * option string :=
  match plan with
  | [] => ([], None)
  | s :: plan' =>
      match stops e history s with
      | Some error => ([command_of s], Some error)
      | None =>
          let rest := run_plan e (history ++ [command_of s]) plan' in
          (command_of s :: fst rest, snd rest)
      end
  end.

(** The steps of [mergeToTargetBranch]. *)
Definition merge_steps (sourceBranch targetBranch : string) : list step :=
  [ Must ("git checkout " +++ targetBranch);
    Must ("git pull origin " +++ targetBranch);
    Must ("git merge " +++ sourceBranch);
    Check sourceBranch targetBranch;
    Must ("git push origin " +++ targetBranch +++ ":" +++ targetBranch) ].

(** The steps of [executeMergeFlow]. *)
Definition merge_plan (branchToMerge originalBranch : string) : list step :=
  [ Must ("git checkout " +++ branchToMerge);
    Must ("git pull origin " +++ branchToMerge) ]
  ++ merge_steps branchToMerge "dev"
  ++ merge_steps "dev" "sit"
  ++ [ Must ("git checkout " +++ originalBranch) ].

(** In the world [e], the computation [m] takes the steps of [plan]: from
    every trace it adds silent events whose commands are those that the
    plan runs; it throws the error of the step that stopped, or returns
    after the events [final] when no step did. *)
Definition follows {A} (e : env) (m : M A) (plan : list step)
    (final : list event) : Prop :=
  forall tr, exists ext,
    forallb silent ext = true
    /\ git_commands ext = fst (run_plan e (git_commands tr) plan)
    /\ match snd (run_plan e (git_commands tr) plan) with
       | None => exists a, m e tr = (tr ++ ext ++ final, inl a)
       | Some error => m e tr = (tr ++ ext, inr error)
       end.

(** A repository in which the status report fails and every other
    command succeeds. *)
Definition status_fails : env :=
  {| git := fun _ command =>
       if String.eqb command "git status --porcelain"
       then Rejected "fatal: unable to read the index"
       else Resolved {| stdout := EmptyString; stderr := EmptyString |};
     dirty_answer := Some "继续操作";
     quick_pick_answer := fun _ => Some 0;
     confirm_answer := Some "确认合并" |}.

(** The same repository with a push to [sit] that is rejected. *)
Definition push_fails : env :=
  {| git := fun _ command =>
       if String.eqb command "git status --porcelain"
       then Rejected "fatal: unable to read the index"
       else if String.eqb command "git push origin sit:sit"
       then Rejected "rejected: non-fast-forward"
       else Resolved {| stdout := EmptyString; stderr := EmptyString |};
     dirty_answer := Some "继续操作";
     quick_pick_answer := fun _ => Some 0;
     confirm_answer := Some "确认合并" |}.

(** Every character of a string is white space. *)
Definition all_space (s : string) : bool := JS.all_space s.

(** A working directory that is not a git repository: every command
    fails. *)
Definition no_repository : env :=
  {| git := fun _ _ => Rejected "fatal: not a git repository (or any of the parent directories): .git";
     dirty_answer := Some "继续操作";
     quick_pick_answer := fun _ => Some 0;
     confirm_answer := Some "确认合并" |}.

(** The world of [world] with a user who answers the warning about
    uncommitted changes with [answer] and confirms nothing. *)
Definition hesitant (status_text : string) (answer : option string) : env :=
  {| git := repository status_text;
     dirty_answer := answer;
     quick_pick_answer := fun _ => Some 0;
     confirm_answer := Some "取消" |}.

End GitBranchManager.

(** ** Values of the host language, as far as the deploy manager sees them *)
Module Value.

(** A number: the deploy manager only meets integers (build ids, status
    codes), the result of a failed conversion and an overflowing one. *)
Inductive number :=
| Int (z : Z)
| NaN
| Infinity.

(** A value: [undefined], or what [JSON.parse] returns.  A missing
    property reads as [Undefined]. *)
#[local] Set Warnings "-register-all".
Inductive value :=
| Undefined
| Null
| Bool (b : bool)
| Num (n : number)
| Str (s : string)
| Arr (items : list value)
| Obj (props : list (string * value)).

(** A value in a boolean position. *)
Definition truthy (v : value) : bool :=
  match v with
  | Undefined | Null => false
  | Bool b => b
  | Num (Int z) => negb (z =? 0)%Z
  | Num NaN => false
  | Num Infinity => true
  | Str s => JS.truthy s
  | Arr _ | Obj _ => true
  end.

(** [a || b] *)
Definition or_else (a b : value) : value := if truthy a then a else b.

Definition number_eqb (a b : number) : bool :=
  match a, b with
  | Int x, Int y => (x =? y)%Z
  | Infinity, Infinity => true
  | _, _ => false
  end.

(** [a === b] where one side is a primitive or both were parsed apart:
    two objects or arrays are then never the same reference. *)
Definition strict_eq (a b : value) : bool :=
  match a, b with
  | Undefined, Undefined => true
  | Null, Null => true
  | Bool x, Bool y => Bool.eqb x y
  | Num x, Num y => number_eqb x y
  | Str x, Str y => String.eqb x y
  | _, _ => false
  end.

(** The own property [key] of an object literal. *)
Fixpoint lookup (props : list (string * value)) (key : string) : option value :=
  match props with
  | [] => None
  | (k, v) :: props' => if String.eqb k key then Some v else lookup props' key
  end.

(** [v.key] for a [v] that is neither [null] nor [undefined], and a key
    that no prototype defines ([data], [message], [code], [buildId],
    [status], ...). *)
Definition prop (v : value) (key : string) : value :=
  match v with
  | Obj props => match lookup props key with Some x => x | None => Undefined end
  | _ => Undefined
  end.

(** [v?.key] *)
Definition opt_prop (v : value) (key : string) : value :=
  match v with
  | Undefined | Null => Undefined
  | _ => prop v key
  end.

(** [key in v], for own properties of a parsed object. *)
Definition has_prop (v : value) (key : string) : bool :=
  match v with
  | Obj props => match lookup props key with Some _ => true | None => false end
  | _ => false
  end.

(** The conversion of a value to a primitive, with which [+v], [String(v)]
    and a template literal begin, throws a [TypeError] for some objects:
    [converts v] is [false] then.  A parsed object converts, to
    [[object Object]], unless it has a property [toString] of its own: that
    property is no function and hides the method of the prototype, and
    [valueOf] gives the object back.  An array converts to the texts of
    its elements, when its elements convert ([null] and [undefined] give
    the empty text). *)
Fixpoint converts (v : value) : bool :=
  match v with
  | Arr items =>
      (fix all (l : list value) : bool :=
         match l with
         | [] => true
         | x :: l' => converts x && all l'
         end) items
  | Obj props =>
      match lookup props "toString" with
      | Some _ => false
      | None => true
      end
  | _ => true
  end.

(** The message of that [TypeError]. *)
Definition conversion_error : string := "Cannot convert object to primitive value".

(** The value of a string of decimal digits, most significant first. *)
Fixpoint decimal_aux (s : string) (acc : Z) : Z :=
  match s with
  | EmptyString => acc
  | String c s' => decimal_aux s' (10 * acc + (Z.of_nat (nat_of_ascii c) - 48))
  end.

Definition decimal (s : string) : Z := decimal_aux s 0.

Fixpoint all_digits (s : string) : bool :=
  match s with
  | EmptyString => true
  | String c s' => JS.is_digit c && all_digits s'
  end.

(** The double nearest to a natural number, ties to even; [Infinity]
    from 2^1024 on. *)
Definition round_double (z : Z) : number :=
  if (z <? 2 ^ 53)%Z then Int z
  else
    let k := (Z.log2 z - 52)%Z in
    let q := Z.shiftr z k in
    let r := Z.land z (2 ^ k - 1) in
    let half := (2 ^ (k - 1))%Z in
    let q' := if (half <? r)%Z || ((r =? half)%Z && Z.odd q)
              then (q + 1)%Z else q in
    let v := (q' * 2 ^ k)%Z in
    if (2 ^ 1024 <=? v)%Z then Infinity else Int v.

(** [+v], for a value that converts.  The conversion is written out for
    numbers, [null], booleans and non-empty strings of decimal digits; for
    every other value it is [other v], which the environment provides. *)
Definition ToNumber (other : value -> number) (v : value) : number :=
  match v with
  | Num n => n
  | Null => Int 0
  | Bool b => Int (if b then 1 else 0)
  | Str (String c s) =>
      if all_digits (String c s) then round_double (decimal (String c s))
      else other v
  | _ => other v
  end.

(** [message.match(/(?<=id:\s)\d+/)]: the leftmost position that follows
    [id:] and one white space character and holds a digit; the match is
    the longest run of digits from there. *)
Fixpoint take_digits (s : string) : string :=
  match s with
  | String c s' => if JS.is_digit c then String c (take_digits s') else EmptyString
  | EmptyString => EmptyString
  end.

Definition starts_with_digit (s : string) : bool :=
  match s with
  | String c _ => JS.is_digit c
  | EmptyString => false
  end.

(** The text that follows [id:] and one white space character at the
    head of [s], when a digit comes next. *)
Definition after_label (s : string) : option string :=
  match s with
  | String c1 (String c2 (String c3 rest)) =>
      if Ascii.eqb c1 "i" && Ascii.eqb c2 "d" && Ascii.eqb c3 ":" then
        match JS.after_space rest with
        | Some after => if starts_with_digit after then Some after else None
        | None => None
        end
      else None
  | _ => None
  end.

(** The no-break space U+00A0, as UTF-8 writes it. *)
Definition NBSP : string :=
  String (ascii_of_nat 194) (String (ascii_of_nat 160) EmptyString).

Fixpoint buildIdMatch (message : string) : option string :=
  match message with
  | EmptyString => None
  | String _ rest =>
      match after_label message with
      | Some after => Some (take_digits after)
      | None => buildIdMatch rest
      end
  end.

End Value.

(** ** The deploy orchestrator (DeployManager) *)
Module DeployManager.
Import Value.

(** [enum DeployStatus] *)
Inductive DeployStatus := PREPARE | DOING | DONE | ERROR | ABORT | JUMP.

(** The number behind a member of the enumeration. *)
Definition status_code (s : DeployStatus) : Z :=
  match s with
  | PREPARE => 1
  | DOING => 2
  | DONE => 3
  | ERROR => 4
  | ABORT => 5
  | JUMP => 9
  end.

(** A member of the enumeration as the value it is at run time. *)
Definition status_value (s : DeployStatus) : value := Num (Int (status_code s)).

(** [interface DeployInfo].  An optional field that is missing holds
    [Undefined].  Properties outside the interface, which the spread of a
    response may copy into an entry, are read nowhere and are left out. *)
Record DeployInfo := {
  buildId : value;
  applicationName : value;
  status : value;
  creator : value;
  startTime : value;
  endTime : value;
  stageList : value;
  loading : value
}.

(** [{ buildId, applicationName }] *)
Definition new_deployInfo (id : number) (applicationCode : string) : DeployInfo :=
  {| buildId := Num id;
     applicationName := Str applicationCode;
     status := Undefined;
     creator := Undefined;
     startTime := Undefined;
     endTime := Undefined;
     stageList := Undefined;
     loading := Undefined |}.

(** A field after the spread [{ ...item, ...data }]: the property of
    [data] when it has one, the field of [item] otherwise. *)
Definition spread_field (old : value) (data : value) (key : string) : value :=
  if has_prop data key then prop data key else old.

(** [{ ...item, ...data }] *)
Definition spread (item : DeployInfo) (data : value) : DeployInfo :=
  {| buildId := spread_field (buildId item) data "buildId";
     applicationName := spread_field (applicationName item) data "applicationName";
     status := spread_field (status item) data "status";
     creator := spread_field (creator item) data "creator";
     startTime := spread_field (startTime item) data "startTime";
     endTime := spread_field (endTime item) data "endTime";
     stageList := spread_field (stageList item) data "stageList";
     loading := spread_field (loading item) data "loading" |}.

(** [{ ...item, loading: flag }] *)
Definition set_loading (item : DeployInfo) (flag : bool) : DeployInfo :=
  {| buildId := buildId item;
     applicationName := applicationName item;
     status := status item;
     creator := creator item;
     startTime := startTime item;
     endTime := endTime item;
     stageList := stageList item;
     loading := Bool flag |}.

(** [interface ApiResponse] *)
Record ApiResponse := {
  success : bool;
  data : value;
  message : value;
  code : value
}.

(** The request that [httpRequest] hands to [fetch]. *)
Record request := {
  req_url : string;
  req_params : list (string * value);
  req_method : string;
  req_body : option value;
  req_timeout : Z
}.

(** What [fetch] and [response.json()] come to: the request is rejected
    (network error, or the abort of the timeout), or a response arrives
    with a status and a body that parses or not. *)
Inductive fetch_outcome :=
| FetchRejected (error : string)
| FetchResponse (http_status : Z) (body : value + string).

(** The texts shown to the user. *)
Inductive notice :=
| AlreadyDeploying
    (* 当前项目正在部署中，如需部署请先终止 *)
| StartFailed (detail : value)
    (* 部署启动失败: ${response.message || '未知错误'} *)
| StartFailedError
    (* 部署启动失败 *)
| DeployFinished (applicationName : value) (status : value)
    (* ${deployInfo.applicationName} 部署完成: ${getStatusText(deployInfo.status)} *)
| BuildNotFound
    (* 未找到构建信息 *)
| AbortFailed (detail : value)
    (* 终止部署失败: ${response.message || '未知错误'} *)
| AbortFailedError
    (* 终止部署失败 *)
| TaskRemoved
    (* 任务已移除 *)
| StatusRefreshed
    (* 状态已刷新 *)
| ConfirmAbort (applicationName : value).
    (* 确定要终止 ${deploy.applicationName} 的部署吗？ *)

(** Observable events, oldest first. *)
Inductive event :=
| Fetch (r : request)
| ShowInputBox
| ConfigUpdate (token : string)
| ShowWarningMessage (n : notice)
| ShowErrorMessage (n : notice)
| ShowInformationMessage (n : notice)
| ShowQuickPick
| LogError (message : string) (error : string)
| SetTimeout (ms : Z)
| ClearTimeout.

(** The entries of the menu of [showDeployActions]. *)
Inductive action := RemoveTask | AbortDeploy | Refresh.

(** The outside world.  Each oracle sees the trace so far. *)
Record env := {
  fetch : list event -> request -> fetch_outcome;
  input_box : list event -> option string;
  url_valid : string -> bool;
  to_number_other : value -> number;
  action_answer : list event -> list action -> option nat;
  abort_confirmed : list event -> bool
}.

(** The fields of the manager.  [checkTimer] is [None] for [null],
    [Some true] for the handle of a timer that is still to fire and
    [Some false] for the handle of one that has fired or was cleared. *)
Record state := {
  deployList : list DeployInfo;
  checkTimer : option bool;
  authToken : option string
}.

Definition set_deployList (l : list DeployInfo) (st : state) : state :=
  {| deployList := l; checkTimer := checkTimer st; authToken := authToken st |}.

Definition set_checkTimer (t : option bool) (st : state) : state :=
  {| deployList := deployList st; checkTimer := t; authToken := authToken st |}.

Definition set_authToken (t : option string) (st : state) : state :=
  {| deployList := deployList st; checkTimer := checkTimer st; authToken := t |}.

(** Computations over the manager's fields and the trace; they return a
    value or throw an [Error], kept as its message. *)
Definition M (A : Type) : Type :=
  env -> state * list event -> (state * list event) * (A + string).

Definition ret {A} (a : A) : M A := fun _ s => (s, inl a).

Definition bind {A B} (m : M A) (k : A -> M B) : M B :=
  fun e s =>
    match m e s with
    | (s', inl a) => k a e s'
    | (s', inr err) => (s', inr err)
    end.

Definition throw {A} (error : string) : M A := fun _ s => (s, inr error).

(** [try { m } catch (error) { h error }] *)
Definition try_catch {A} (m : M A) (h : string -> M A) : M A :=
  fun e s =>
    match m e s with
    | (s', inl a) => (s', inl a)
    | (s', inr err) => h err e s'
    end.

Definition emit (ev : event) : M unit :=
  fun _ s => ((fst s, snd s ++ [ev]), inl tt).

Definition ask : M env := fun e s => (s, inl e).
Definition get : M state := fun _ s => (s, inl (fst s)).
Definition trace : M (list event) := fun _ s => (s, inl (snd s)).
Definition modify (f : state -> state) : M unit :=
  fun _ s => ((f (fst s), snd s), inl tt).

Declare Scope deploy_scope.
Delimit Scope deploy_scope with deploy.
Notation "x <- m ;; k" := (bind m (fun x => k))
  (at level 61, m at next level, right associativity) : deploy_scope.
Notation "m ;; k" := (bind m (fun _ => k))
  (at level 61, right associativity) : deploy_scope.
Local Open Scope deploy_scope.

(** [for (const x of l) { f x }], collecting the results. *)
Fixpoint mapM {A B} (f : A -> M B) (l : list A) : M (list B) :=
  match l with
  | [] => ret []
  | x :: l' => y <- f x ;; ys <- mapM f l' ;; ret (y :: ys)
  end.

(** [logError(message, error)] *)
Definition logError (message error : string) : M unit :=
  emit (LogError message error).

(** [getToken()]: [None] is [null]. *)
Definition getToken : M (option string) :=
  st <- get ;;
  match authToken st with
  | Some (String c t) => ret (Some (String c t))
  | _ =>
      emit ShowInputBox ;;
      tr <- trace ;;
      e <- ask ;;
      match input_box e tr with
      | Some (String c t) =>
          emit (ConfigUpdate (String c t)) ;;
          modify (set_authToken (Some (String c t))) ;;
          ret (Some (String c t))
      | _ => ret None
      end
  end.

(** [replaceApi(api)] *)
Definition replaceApi (api : string) : string :=
  if JS.startsWith api "/api-dev" then "http://10.52.70.10:410" +++ api
  else if JS.startsWith api "/local-faw" then "http://10.52.70.10:510" +++ api
  else api.

(** The decimal text of an integer. *)
Definition decimal_text (z : Z) : string :=
  DecimalString.NilZero.string_of_int (Z.to_int z).

(** [httpRequest(url, { method, body, params, timeout })].  A [body] of
    [Undefined] and a [timeout] of [0] stand for options that are not
    given.  The values of [params] are converted to text when they are
    appended to the address. *)
Definition httpRequest (url : string) (method : string) (body : value)
    (params : list (string * value)) (timeout : Z) : M ApiResponse :=
  try_catch
    (token <- getToken ;;
     match token with
     | None => throw "未获取到token"
     | Some _ =>
         let fullUrl := replaceApi url in
         e <- ask ;;
         if negb (url_valid e fullUrl) then throw "Invalid URL"
         else if negb (forallb (fun entry => converts (snd entry)) params)
         then throw conversion_error
         else
           let r := {| req_url := fullUrl;
                       req_params := params;
                       req_method := method;
                       req_body := if truthy body then Some body else None;
                       req_timeout := if (timeout =? 0)%Z then 120000 else timeout |} in
           tr <- trace ;;
           emit (Fetch r) ;;
           match fetch e tr r with
           | FetchRejected error => throw error
           | FetchResponse http_status body =>
               if (http_status =? 200)%Z then
                 match body with
                 | inr error => throw error
                 | inl Null =>
                     throw "Cannot read properties of null (reading 'data')"
                 | inl data =>
                     ret {| success := true;
                            data := or_else (prop data "data") data;
                            message := prop data "message";
                            code := prop data "code" |}
                 end
               else throw ("HTTP " +++ decimal_text http_status)
           end
     end)
    (fun error =>
       logError "HTTP请求失败" error ;;
       ret {| success := false;
              data := Undefined;
              message := Str error;
              code := Undefined |}).

(** The statuses after which a run does not go on. *)
Definition terminal_statuses : list value :=
  map status_value [DONE; ERROR; ABORT; JUMP].

(** [checkDone(status)] *)
Definition checkDone (status : value) : bool :=
  if truthy status then existsb (strict_eq status) terminal_statuses else false.

(** The filter of [checkProgressLoop]:
    [[PREPARE, DOING].includes(item.status) || !item.status]. *)
Definition is_deploying (item : DeployInfo) : bool :=
  existsb (strict_eq (status item)) (map status_value [PREPARE; DOING])
  || negb (truthy (status item)).

(** The text of the completion notification cannot be made: the status,
    which [getStatusText] uses as a property key when it is truthy, or the
    name, which the template literal quotes, has no conversion. *)
Definition notice_fails (deployInfo : value) : bool :=
  truthy (prop deployInfo "status") && negb (converts (prop deployInfo "status"))
  || negb (converts (prop deployInfo "applicationName")).

(** [showDeployNotification(deployInfo)], called on the payload of a
    poll. *)
Definition showDeployNotification (deployInfo : value) : M unit :=
  if notice_fails deployInfo then throw conversion_error
  else
    let text := DeployFinished (prop deployInfo "applicationName")
                               (prop deployInfo "status") in
    if strict_eq (prop deployInfo "status") (status_value DONE)
    then emit (ShowInformationMessage text)
    else emit (ShowWarningMessage text).

(** The callback of the [map] in [fetchProgress]. *)
Definition update_item (data : value) (item : DeployInfo) : M DeployInfo :=
  if strict_eq (buildId item) (prop data "buildId") then
    (if checkDone (prop data "status") && negb (checkDone (status item))
     then showDeployNotification data
     else ret tt) ;;
    ret (spread item data)
  else ret item.

Definition detail_url : string :=
  "/local-faw/api/buildService/api/app/build/detail".

(** [fetchProgress(buildId)]: the status of the payload, or [Null]. *)
Definition fetchProgress (buildId : value) : M value :=
  try_catch
    (response <- httpRequest detail_url "POST" (Obj [("buildId", buildId)]) [] 0 ;;
     if success response && truthy (data response) then
       let data := data response in
       st <- get ;;
       l <- mapM (update_item data) (deployList st) ;;
       modify (set_deployList l) ;;
       ret (prop data "status")
     else ret Null)
    (fun error => logError "获取部署进度失败" error ;; ret Null).

(** [checkProgressLoop()]: one round of polling.  The source starts the
    polls of a round together ([Promise.all]) and handles their answers
    as they come; here the polls of a round are made one after the other,
    in the order of the list.  The statements below about a round speak
    of what no order of the answers changes: the entries, the build ids,
    the requests that are made and the timer. *)
Definition checkProgressLoop : M unit :=
  try_catch
    (st <- get ;;
     let deployingList := filter is_deploying (deployList st) in
     if (List.length deployingList =? 0)%nat then ret tt
     else
       statusList <- mapM (fun item => fetchProgress (buildId item)) deployingList ;;
       if existsb (fun status => truthy status && negb (checkDone status)) statusList
       then emit (SetTimeout 20000) ;; modify (set_checkTimer (Some true))
       else ret tt)
    (fun error => logError "检查部署进度失败" error).

(** The timer set by [checkProgressLoop] fires. *)
Definition timer_fires : M unit :=
  st <- get ;;
  match checkTimer st with
  | Some true => modify (set_checkTimer (Some false)) ;; checkProgressLoop
  | _ => ret tt
  end.

(** [startProgressCheck()].  The source calls [checkProgressLoop()]
    without waiting for it; here the round runs to its end at once, as if
    nothing else happened while its polls are in flight. *)
Definition startProgressCheck : M unit :=
  st <- get ;;
  (match checkTimer st with
   | Some _ => emit ClearTimeout ;; modify (set_checkTimer (Some false))
   | None => ret tt
   end) ;;
  checkProgressLoop.

Definition startPipeline_url : string :=
  "/local-faw/api/buildService/api/app/build/startPipeline".

(** The body of the request of [startPipeline]. *)
Definition start_body (applicationCode : string) : value :=
  Obj [("applicationCode", Str applicationCode); ("environmentType", Str "daily")].

(** [this.deployList.push(deployInfo)] *)
Definition push (item : DeployInfo) : M unit :=
  modify (fun st => set_deployList (deployList st ++ [item]) st).

(** The end of [startPipeline] when no run was started: the message of
    the response is quoted in the error that is shown. *)
Definition startPipeline_failed (response : ApiResponse) : M bool :=
  let detail := or_else (message response) (Str "未知错误") in
  if converts detail then emit (ShowErrorMessage (StartFailed detail)) ;; ret false
  else throw conversion_error.

(** [startPipeline(applicationCode)] *)
Definition startPipeline (applicationCode : string) : M bool :=
  try_catch
    (st <- get ;;
     if existsb (fun item => strict_eq (applicationName item) (Str applicationCode))
                (deployList st)
     then emit (ShowWarningMessage AlreadyDeploying) ;; ret false
     else
       response <- httpRequest startPipeline_url "POST"
                     (start_body applicationCode) [] 0 ;;
       e <- ask ;;
       if success response && truthy (opt_prop (data response) "buildId") then
         if converts (opt_prop (data response) "buildId") then
           push (new_deployInfo
                   (ToNumber (to_number_other e) (opt_prop (data response) "buildId"))
                   applicationCode) ;;
           startProgressCheck ;;
           ret true
         else throw conversion_error
       else if strict_eq (code response) (Str "409") && truthy (message response) then
         match message response with
         | Str text =>
             match buildIdMatch text with
             | Some digits =>
                 push (new_deployInfo (ToNumber (to_number_other e) (Str digits))
                                      applicationCode) ;;
                 startProgressCheck ;;
                 ret true
             | None => startPipeline_failed response
             end
         | _ => throw "response.message.match is not a function"
         end
       else startPipeline_failed response)
    (fun error =>
       logError "启动部署失败" error ;;
       emit (ShowErrorMessage StartFailedError) ;;
       ret false).

Definition abortPipeline_url : string :=
  "/local-faw/api/buildService/api/app/build/abortPipeline".

(** [arr.find(p)] *)
Definition find_item (p : DeployInfo -> bool) (l : list DeployInfo) : option DeployInfo :=
  List.find p l.

(** [abortPipeline(buildId)] *)
Definition abortPipeline (id : value) : M bool :=
  try_catch
    (st <- get ;;
     match find_item (fun item => strict_eq (buildId item) id) (deployList st) with
     | None => emit (ShowWarningMessage BuildNotFound) ;; ret false
     | Some deployInfo =>
         modify (fun st => set_deployList
                   (map (fun item => if strict_eq (buildId item) id
                                     then set_loading item true else item)
                        (deployList st)) st) ;;
         response <- httpRequest abortPipeline_url "POST"
                       (Obj [("buildId", id);
                             ("applicationCode", applicationName deployInfo);
                             ("environmentType", Str "daily")]) [] 0 ;;
         modify (fun st => set_deployList
                   (map (fun item => if strict_eq (buildId item) id
                                     then set_loading item false else item)
                        (deployList st)) st) ;;
         if success response then fetchProgress id ;; ret true
         else
           let detail := or_else (message response) (Str "未知错误") in
           if converts detail
           then emit (ShowErrorMessage (AbortFailed detail)) ;; ret false
           else throw conversion_error
     end)
    (fun error =>
       logError "终止部署失败" error ;;
       emit (ShowErrorMessage AbortFailedError) ;;
       ret false).

(** The menu that [showDeployActions] offers for an entry. *)
Definition actions_for (deploy : DeployInfo) : list action :=
  (if checkDone (status deploy) then [RemoveTask] else [AbortDeploy]) ++ [Refresh].

(** [showDeployActions(deploy)]: the name of the entry is quoted in the
    place holder of the menu and in the confirmation. *)
Definition showDeployActions (deploy : DeployInfo) : M unit :=
  let actions := actions_for deploy in
  if negb (converts (applicationName deploy)) then throw conversion_error
  else
  emit ShowQuickPick ;;
  tr <- trace ;;
  e <- ask ;;
  match action_answer e tr actions with
  | None => ret tt
  | Some i =>
      match nth_error actions i with
      | None => ret tt
      | Some RemoveTask =>
          modify (fun st => set_deployList
                    (filter (fun item => negb (strict_eq (buildId item) (buildId deploy)))
                            (deployList st)) st) ;;
          emit (ShowInformationMessage TaskRemoved)
      | Some AbortDeploy =>
          emit (ShowWarningMessage (ConfirmAbort (applicationName deploy))) ;;
          tr' <- trace ;;
          if abort_confirmed e tr' then abortPipeline (buildId deploy) ;; ret tt
          else ret tt
      | Some Refresh =>
          fetchProgress (buildId deploy) ;;
          emit (ShowInformationMessage StatusRefreshed)
      end
  end.

(** The requests of a trace, oldest first. *)
Fixpoint requests (tr : list event) : list request :=
  match tr with
  | [] => []
  | Fetch r :: tr' => r :: requests tr'
  | _ :: tr' => requests tr'
  end.

(** The notifications of a trace, oldest first. *)
Fixpoint notifications (tr : list event) : list event :=
  match tr with
  | [] => []
  | ShowWarningMessage n :: tr' => ShowWarningMessage n :: notifications tr'
  | ShowErrorMessage n :: tr' => ShowErrorMessage n :: notifications tr'
  | ShowInformationMessage n :: tr' => ShowInformationMessage n :: notifications tr'
  | _ :: tr' => notifications tr'
  end.

(** *** Vocabulary of the statements about the deploy manager *)

(** The entry is the one that a payload is about. *)
Definition matches (data : value) (item : DeployInfo) : bool :=
  strict_eq (buildId item) (prop data "buildId").

(** The notification that [showDeployNotification] shows for a payload. *)
Definition finished_notice (data : value) : event :=
  let text := DeployFinished (prop data "applicationName") (prop data "status") in
  if strict_eq (prop data "status") (status_value DONE)
  then ShowInformationMessage text
  else ShowWarningMessage text.

(** The entry is one that a payload completes: it is the entry of the
    payload, the status of the payload is terminal and the status of the
    entry is not. *)
Definition due (data : value) (item : DeployInfo) : bool :=
  matches data item
  && (checkDone (prop data "status") && negb (checkDone (status item))).

(** What [update_item] adds to the trace, when the text of the
    notification can be made. *)
Definition poll_notice (data : value) (item : DeployInfo) : list event :=
  if matches data item
     && (checkDone (prop data "status") && negb (checkDone (status item)))
  then [finished_notice data]
  else [].

(** What [update_item] returns. *)
Definition poll_item (data : value) (item : DeployInfo) : DeployInfo :=
  if matches data item then spread item data else item.

(** The payload that [httpRequest] makes of a parsed body:
    [data.data || data]. *)
Definition payload (body : value) : value := or_else (prop body "data") body.

(** The events of [getToken]: the prompt for a token and its storage. *)
Definition is_prompt (ev : event) : bool :=
  match ev with
  | ShowInputBox | ConfigUpdate _ => true
  | _ => false
  end.

(** The response of the network is an HTTP 200 with a body that parses. *)
Definition is_ok (o : fetch_outcome) : bool :=
  match o with
  | FetchResponse http_status (inl _) => (http_status =? 200)%Z
  | _ => false
  end.

(** The request that [httpRequest] builds from its arguments. *)
Definition request_of (url method : string) (body : value)
    (params : list (string * value)) (timeout : Z) : request :=
  {| req_url := replaceApi url;
     req_params := params;
     req_method := method;
     req_body := if truthy body then Some body else None;
     req_timeout := if (timeout =? 0)%Z then 120000 else timeout |}.

(** The envelope of a failure. *)
Definition failure (error : string) : ApiResponse :=
  {| success := false; data := Undefined; message := Str error; code := Undefined |}.

(** The envelope of the body of an HTTP 200 response. *)
Definition envelope (parsed : value) : ApiResponse :=
  {| success := true;
     data := payload parsed;
     message := prop parsed "message";
     code := prop parsed "code" |}.

(** The three ways in which a call of [httpRequest] ends, with what it
    adds to the trace [tr] and the envelope it returns: the request [r] is
    not sent (no token, or a URL that does not parse); it is sent and the
    network rejects it, answers with another status than 200 or with a
    body that is not JSON or is [null]; it is sent and answered by an HTTP
    200 with a body. *)
Inductive http_case (e : env) (tr : list event) (r : request) :
  list event -> ApiResponse -> Prop :=
| http_not_sent (pre : list event) (error : string) :
    forallb is_prompt pre = true ->
    http_case e tr r (pre ++ [LogError "HTTP请求失败" error]) (failure error)
| http_refused (pre : list event) (error : string) :
    forallb is_prompt pre = true ->
    is_ok (fetch e (tr ++ pre) r) = false
    \/ fetch e (tr ++ pre) r = FetchResponse 200 (inl Null) ->
    http_case e tr r (pre ++ [Fetch r; LogError "HTTP请求失败" error]) (failure error)
| http_answered (pre : list event) (parsed : value) :
    forallb is_prompt pre = true ->
    fetch e (tr ++ pre) r = FetchResponse 200 (inl parsed) ->
    parsed <> Null ->
    http_case e tr r (pre ++ [Fetch r]) (envelope parsed).

(** The request of a poll. *)
Definition poll_request (id : value) : request :=
  request_of detail_url "POST" (Obj [("buildId", id)]) [] 0.

(** The three ways in which [fetchProgress] ends, from the state [st] and
    the trace [tr]: the poll fails or brings no payload, and the list is
    as before; or the network answers with a body, and every entry went
    through [update_item] with the payload of that body; or the payload
    completes an entry but the text of its notification cannot be made,
    and the list is as before. *)
Inductive poll_case (e : env) (st : state) (tr : list event) (id : value) :
  state -> list event -> value -> Prop :=
| poll_failed (st' : state) (ext : list event) (resp : ApiResponse) :
    deployList st' = deployList st ->
    checkTimer st' = checkTimer st ->
    http_case e tr (poll_request id) ext resp ->
    success resp && truthy (data resp) = false ->
    poll_case e st tr id st' ext Null
| poll_answered (st' : state) (pre : list event) (parsed : value) :
    deployList st' = map (poll_item (payload parsed)) (deployList st) ->
    checkTimer st' = checkTimer st ->
    forallb is_prompt pre = true ->
    fetch e (tr ++ pre) (poll_request id) = FetchResponse 200 (inl parsed) ->
    truthy (payload parsed) = true ->
    existsb (due (payload parsed)) (deployList st)
    && notice_fails (payload parsed) = false ->
    poll_case e st tr id st'
      (pre ++ [Fetch (poll_request id)]
           ++ flat_map (poll_notice (payload parsed)) (deployList st))
      (prop (payload parsed) "status")
| poll_threw (st' : state) (pre : list event) (parsed : value) :
    deployList st' = deployList st ->
    checkTimer st' = checkTimer st ->
    forallb is_prompt pre = true ->
    fetch e (tr ++ pre) (poll_request id) = FetchResponse 200 (inl parsed) ->
    truthy (payload parsed) = true ->
    existsb (due (payload parsed)) (deployList st) = true ->
    notice_fails (payload parsed) = true ->
    poll_case e st tr id st'
      (pre ++ [Fetch (poll_request id); LogError "获取部署进度失败" conversion_error])
      Null.

(** A poll moved an entry from a status that is not terminal to one that
    is. *)
Definition completed (before_after : DeployInfo * DeployInfo) : bool :=
  negb (checkDone (status (fst before_after)))
  && checkDone (status (snd before_after)).

(** An entry with a status. *)
Definition entry (id : Z) (name : string) (st : value) : DeployInfo :=
  {| buildId := Num (Int id);
     applicationName := Str name;
     status := st;
     creator := Undefined;
     startTime := Undefined;
     endTime := Undefined;
     stageList := Undefined;
     loading := Undefined |}.

(** A manager that tracks the entries [l], with a token and no timer. *)
Definition tracking (l : list DeployInfo) : state :=
  {| deployList := l; checkTimer := None; authToken := Some "token" |}.

(** A network that answers every request with [o], and a user who gives
    no answer. *)
Definition network (o : fetch_outcome) : env :=
  {| fetch := fun _ _ => o;
     input_box := fun _ => None;
     url_valid := fun _ => true;
     to_number_other := fun _ => NaN;
     action_answer := fun _ _ => None;
     abort_confirmed := fun _ => false |}.

(** The same network with a user who picks the second entry of the menu
    of [showDeployActions], which is the refresh. *)
Definition refreshing (o : fetch_outcome) : env :=
  {| fetch := fun _ _ => o;
     input_box := fun _ => None;
     url_valid := fun _ => true;
     to_number_other := fun _ => NaN;
     action_answer := fun _ _ => Some 1;
     abort_confirmed := fun _ => false |}.

(** An HTTP 200 response with a JSON object as its body. *)
Definition ok_response (props : list (string * value)) : fetch_outcome :=
  FetchResponse 200 (inl (Obj props)).

(** An entry that was deployed, and the same application being deployed. *)
Definition finished_entry : DeployInfo := entry 1 "app" (status_value DONE).
Definition pending_entry : DeployInfo := entry 1 "app" Undefined.

(** A payload that reports build 1 as running. *)
Definition running_response : fetch_outcome :=
  ok_response [("buildId", Num (Int 1)); ("status", status_value DOING)].

(** A conflict response whose message names build 4521. *)
Definition conflict_response : fetch_outcome :=
  ok_response [("code", Str "409");
               ("message", Str "pipeline already exists, id: 4521")].

(** The same response with a build id in its data as well. *)
Definition conflict_with_data : fetch_outcome :=
  ok_response [("code", Str "409");
               ("message", Str "pipeline already exists, id: 4521");
               ("data", Obj [("buildId", Num (Int 7))])].

(** An entry of the list is for the application [applicationCode]: the
    test of the [find] of [startPipeline]. *)
Definition tracked (applicationCode : string) (l : list DeployInfo) : bool :=
  existsb (fun item => strict_eq (applicationName item) (Str applicationCode)) l.

(** The end of [startPipeline] when a run is tracked: the entry is
    pushed on the list of [st], the loop is started, [true] is returned. *)
Definition started (e : env) (id : number) (applicationCode : string)
    (st : state) (tr : list event) : (state * list event) * (bool + string) :=
  (fst (startProgressCheck e
          (set_deployList (deployList st ++ [new_deployInfo id applicationCode]) st, tr)),
   inl true).

(** A conflict response whose message names a build id above 2^53. *)
Definition conflict_huge : fetch_outcome :=
  ok_response [("code", Str "409");
               ("message", Str "pipeline already exists, id: 9007199254740993")].

(** A payload that reports build 1, of the application [app], as done,
    and one that reports it as running. *)
Definition done_response : fetch_outcome :=
  ok_response [("buildId", Num (Int 1)); ("status", status_value DONE);
               ("applicationName", Str "app")].

Definition doing_response : fetch_outcome :=
  ok_response [("buildId", Num (Int 1)); ("status", status_value DOING);
               ("applicationName", Str "app")].

(** A service that reports build 1 as done, then as running, then as
    done again: the answer to a request depends on the number of requests
    made before it. *)
Definition flapping : env :=
  {| fetch := fun tr _ =>
       match List.length (requests tr) with
       | 1 => doing_response
       | _ => done_response
       end;
     input_box := fun _ => None;
     url_valid := fun _ => true;
     to_number_other := fun _ => NaN;
     action_answer := fun _ _ => None;
     abort_confirmed := fun _ => false |}.


(** No request is answered by an HTTP 200 with a body. *)
Definition network_down (e : env) : Prop :=
  forall tr r, is_ok (fetch e tr r) = false.

(** The timers set in a trace. *)
Fixpoint timeouts (tr : list event) : list Z :=
  match tr with
  | [] => []
  | SetTimeout ms :: tr' => ms :: timeouts tr'
  | _ :: tr' => timeouts tr'
  end.

(** *** Vocabulary of the statements about the other operations *)

(** A manager without a token. *)
Definition anonymous (l : list DeployInfo) : state :=
  {| deployList := l; checkTimer := None; authToken := None |}.

(** The network of [network] with a user who types [answer] into every
    input box. *)
Definition typing (answer : option string) (o : fetch_outcome) : env :=
  {| fetch := fun _ _ => o;
     input_box := fun _ => answer;
     url_valid := fun _ => true;
     to_number_other := fun _ => NaN;
     action_answer := fun _ _ => None;
     abort_confirmed := fun _ => false |}.

(** A response that starts build 4521. *)
Definition start_response : fetch_outcome :=
  ok_response [("data", Obj [("buildId", Num (Int 4521))])].

(** The list after [abortPipeline] has set and cleared the flag of the
    entries of build [id]. *)
Definition loading_cleared (id : value) (l : list DeployInfo) : list DeployInfo :=
  map (fun item => if strict_eq (buildId item) id then set_loading item false else item) l.

(** The request of [abortPipeline] for an entry. *)
Definition abort_request (id : value) (deployInfo : DeployInfo) : request :=
  request_of abortPipeline_url "POST"
    (Obj [("buildId", id);
          ("applicationCode", applicationName deployInfo);
          ("environmentType", Str "daily")]) [] 0.

(** The network answers with an HTTP 200 and a body that is not
    [null]. *)
Definition answered (o : fetch_outcome) : bool :=
  match o with
  | FetchResponse http_status (inl parsed) =>
      (http_status =? 200)%Z && negb (strict_eq parsed Null)
  | _ => false
  end.

(** The manager after [abortPipeline] has set and cleared the flag. *)
Definition flag_cleared (id : value) (st : state) : state :=
  set_deployList (loading_cleared id (deployList st)) st.

(** A user who picks the first entry of the menu of [showDeployActions]
    and confirms. *)
Definition deciding (o : fetch_outcome) : env :=
  {| fetch := fun _ _ => o;
     input_box := fun _ => None;
     url_valid := fun _ => true;
     to_number_other := fun _ => NaN;
     action_answer := fun _ _ => Some 0;
     abort_confirmed := fun _ => true |}.

(** *** Looking up projects and the application of a project *)

(** [v?.[0]]: the first element of an array, the own property [0] of an
    object, the first character of a string (of which only its being a
    string is used below: no property is read from it that a string
    has). *)
Definition opt_first (v : value) : value :=
  match v with
  | Arr (x :: _) => x
  | Obj props => match lookup props "0" with Some x => x | None => Undefined end
  | Str (String c _) => Str (String c EmptyString)
  | _ => Undefined
  end.

(** The conversion of a value to text in a template literal: the text,
    or [None] when the conversion throws.  It is written out for strings,
    [undefined], [null], booleans, [NaN], [Infinity] and the integers that
    a double holds exactly; for every other value (an array, an object, a
    larger number) it is [other v]. *)
Definition ToString (other : value -> option string) (v : value) : option string :=
  match v with
  | Str s => Some s
  | Undefined => Some "undefined"
  | Null => Some "null"
  | Bool true => Some "true"
  | Bool false => Some "false"
  | Num NaN => Some "NaN"
  | Num Infinity => Some "Infinity"
  | Num (Int z) => if (Z.abs z <? 2 ^ 53)%Z then Some (decimal_text z) else other v
  | Arr _ | Obj _ => other v
  end.

(** [interface ProjectInfo], as [searchProjects] builds it: the four
    properties that it sets, and the element of the response whose other
    properties the spread copies. *)
Record ProjectInfo := {
  businessProjectId : value;
  businessProjectName : value;
  project_value : value;
  project_label : value;
  source_item : value
}.

Definition search_url : string := "/local-faw/api/project/business/searchProject".
Definition project_url : string := "/local-faw/api/devCenter/api/project".
Definition application_url : string := "/local-faw/api/devCenter/yq/project/".

(** The query of [searchProjects]: the keyword is sent when it is given
    and not empty. *)
Definition search_params (keyword : option string) : list (string * value) :=
  [("type", Str "project"); ("pageNum", Num (Int 1)); ("pageSize", Num (Int 100))]
  ++ match keyword with
     | Some text => if JS.truthy text then [("keyword", Str text)] else []
     | None => []
     end.

(** The callback of the [map] in [searchProjects]. *)
Definition normalize_project (item : value) : M ProjectInfo :=
  match item with
  | Undefined =>
      throw "Cannot read properties of undefined (reading 'businessProjectName')"
  | Null =>
      throw "Cannot read properties of null (reading 'businessProjectName')"
  | _ =>
      let name := or_else (or_else (prop item "businessProjectName") (prop item "name"))
                          (Str EmptyString) in
      ret {| businessProjectId :=
               or_else (or_else (prop item "businessProjectId") (prop item "id"))
                       (Str EmptyString);
             businessProjectName := name;
             project_value := name;
             project_label := name;
             source_item := item |}
  end.

(** [items.find(item => item.applicationClassify === 'front')] *)
Fixpoint find_front (items : list value) : M value :=
  match items with
  | [] => ret Undefined
  | item :: rest =>
      match item with
      | Undefined =>
          throw "Cannot read properties of undefined (reading 'applicationClassify')"
      | Null =>
          throw "Cannot read properties of null (reading 'applicationClassify')"
      | _ =>
          if strict_eq (prop item "applicationClassify") (Str "front") then ret item
          else find_front rest
      end
  end.

Section Text.

(** The conversion to text of the values for which [ToString] is not
    written out. *)
Variable to_string_other : value -> option string.

(** A value inside a template literal. *)
Definition to_text (v : value) : M string :=
  match ToString to_string_other v with
  | Some text => ret text
  | None => throw "Cannot convert object to primitive value"
  end.

(** The line that [searchProjects] logs for a project: its name and its
    id are converted to text. *)
Definition log_project (project : ProjectInfo) : M unit :=
  to_text (businessProjectName project) ;;
  to_text (businessProjectId project) ;;
  ret tt.

(** [searchProjects(keyword)] *)
Definition searchProjects (keyword : option string) : M (list ProjectInfo) :=
  try_catch
    (response <- httpRequest search_url "GET" Undefined (search_params keyword) 0 ;;
     let list := opt_prop (data response) "list" in
     if success response && truthy list then
       match list with
       | Arr items =>
           projects <- mapM normalize_project items ;;
           mapM log_project projects ;;
           ret projects
       | _ => throw "response.data.list.map is not a function"
       end
     else
       to_text (or_else (message response) (Str "未知错误")) ;;
       ret [])
    (fun error => logError "搜索项目失败" error ;; ret []).

(** The query of the first request of [getApplicationCode]. *)
Definition project_params (businessProjectId : string) : list (string * value) :=
  [("businessProjectId", Str businessProjectId); ("pageNum", Num (Int 1));
   ("pageSize", Num (Int 100)); ("filters", Str "showDelete=false")].

(** The query of its second request. *)
Definition application_params (bizProjectId : value) : list (string * value) :=
  [("bizProjectId", bizProjectId); ("relationType", Num (Int 1))].

(** [getApplicationCode(businessProjectId)]: the name of the first
    application of the front class, or [Null]. *)
Definition getApplicationCode (businessProjectId : string) : M value :=
  try_catch
    (projectResponse <- httpRequest project_url "GET" Undefined
                          (project_params businessProjectId) 0 ;;
     let bizProjectId :=
       opt_prop (opt_first (opt_prop (data projectResponse) "list")) "id" in
     if negb (success projectResponse) || negb (truthy bizProjectId) then ret Null
     else
       text <- to_text bizProjectId ;;
       appResponse <- httpRequest (application_url +++ text) "GET" Undefined
                        (application_params bizProjectId) 0 ;;
       let classifies := opt_prop (data appResponse) "applicationClassifies" in
       if success appResponse && truthy classifies then
         match classifies with
         | Arr items =>
             found <- find_front items ;;
             let frontApp := opt_first (opt_prop found "applications") in
             ret (or_else (opt_prop frontApp "nameEn") Null)
         | _ => throw "appResponse.data.applicationClassifies.find is not a function"
         end
       else ret Null)
    (fun error => logError "获取应用代码失败" error ;; ret Null).

End Text.

(** The requests of [searchProjects] and of [getApplicationCode]. *)
Definition search_request (keyword : option string) : request :=
  request_of search_url "GET" Undefined (search_params keyword) 0.

Definition project_request (businessProjectId : string) : request :=
  request_of project_url "GET" Undefined (project_params businessProjectId) 0.

Definition application_request (bizProjectId : value) (text : string) : request :=
  request_of (application_url +++ text) "GET" Undefined
             (application_params bizProjectId) 0.

(** The name and the id that [searchProjects] gives to the project made
    of an element: its own, or else its [name] and its [id], or else the
    empty string. *)
Definition project_name (item : value) : value :=
  or_else (or_else (prop item "businessProjectName") (prop item "name"))
          (Str EmptyString).

Definition project_ident (item : value) : value :=
  or_else (or_else (prop item "businessProjectId") (prop item "id"))
          (Str EmptyString).

(** What the [map] of [searchProjects] guarantees of a project. *)
Definition normalized (project : ProjectInfo) : Prop :=
  source_item project <> Null
  /\ source_item project <> Undefined
  /\ businessProjectName project = project_name (source_item project)
  /\ businessProjectId project = project_ident (source_item project)
  /\ project_value project = businessProjectName project
  /\ project_label project = businessProjectName project
  /\ (businessProjectName project = Str EmptyString
      \/ truthy (businessProjectName project) = true)
  /\ (businessProjectId project = Str EmptyString
      \/ truthy (businessProjectId project) = true).

(** What [searchProjects] guarantees of a project that it returns: the
    name and the id convert to text as well. *)
Definition well_formed (other : value -> option string) (project : ProjectInfo) : Prop :=
  normalized project
  /\ (exists text, ToString other (businessProjectName project) = Some text)
  /\ (exists text, ToString other (businessProjectId project) = Some text).

(** The three ways in which [searchProjects] ends after its request,
    which left the events [ext1] and returned [resp]: the projects of the
    list of the response are returned; or an error went to the log and
    nothing is returned; or the response did not succeed with a list and
    nothing is returned. *)
Inductive search_case (other : value -> option string) (resp : ApiResponse)
    (ext1 : list event) : list event -> list ProjectInfo -> Prop :=
| search_listed (projects : list ProjectInfo) :
    success resp = true ->
    opt_prop (data resp) "list" = Arr (map source_item projects) ->
    Forall (well_formed other) projects ->
    search_case other resp ext1 ext1 projects
| search_threw (error : string) :
    search_case other resp ext1 (ext1 ++ [LogError "搜索项目失败" error]) []
| search_empty :
    success resp && truthy (opt_prop (data resp) "list") = false ->
    search_case other resp ext1 ext1 [].

(** A service with one project, number 42, whose front application is
    [shop-web]; a text conversion that fails wherever it is not written
    out. *)
Definition directory : env :=
  {| fetch := fun _ r =>
       if String.eqb (req_url r) (replaceApi project_url)
       then ok_response [("data", Obj [("list", Arr [Obj [("id", Num (Int 42))]])])]
       else ok_response
              [("data",
                Obj [("applicationClassifies",
                      Arr [Obj [("applicationClassify", Str "back");
                                ("applications", Arr [Obj [("nameEn", Str "shop-api")]])];
                           Obj [("applicationClassify", Str "front");
                                ("applications", Arr [Obj [("nameEn", Str "shop-web")]])]])])];
     input_box := fun _ => None;
     url_valid := fun _ => true;
     to_number_other := fun _ => NaN;
     action_answer := fun _ _ => None;
     abort_confirmed := fun _ => false |}.

Definition no_text (v : value) : option string := None.

(** The id of the first project of a response: [data.list?.[0]?.id]. *)
Definition project_id (parsed : value) : value :=
  opt_prop (opt_first (opt_prop (payload parsed) "list")) "id".

(** Neither an array nor an object. *)
Definition primitive (v : value) : bool :=
  match v with
  | Arr _ | Obj _ => false
  | _ => true
  end.

End DeployManager.

(** ** Facts about the string and array primitives *)
Module JSFacts.
Import JS.

Lemma indexOf_skip (pre l : list string) (x : string) :
  ~ In x pre ->
  indexOf (pre ++ l) x = option_map (Nat.add (List.length pre)) (indexOf l x).
Proof.
  induction pre as [|y pre IH]; intros Hnot; simpl.
  - destruct (indexOf l x); reflexivity.
  - destruct (String.eqb_spec y x) as [->|Hne].
    + exfalso. apply Hnot. now left.
    + rewrite IH by (intros Hin; apply Hnot; now right).
      destruct (indexOf l x); reflexivity.
Qed.

Lemma indexOf_early (pre l : list string) (x : string) :
  In x pre -> exists i, indexOf (pre ++ l) x = Some i /\ i < List.length pre.
Proof.
  induction pre as [|y pre IH]; intros Hin; simpl in *.
  - contradiction.
  - destruct (String.eqb_spec y x) as [->|Hne].
    + exists 0. split; [reflexivity | lia].
    + destruct Hin as [Heq|Hin]; [contradiction|].
      destruct (IH Hin) as (i & -> & Hlt).
      exists (S i). split; [reflexivity | lia].
Qed.

Lemma filter_index_first_occurrence (seen l : list string) :
  filter_index (first_occurrence (seen ++ l)) (List.length seen) l = keep_new seen l.
Proof.
  revert seen. induction l as [|x l IH]; intros seen; simpl; [reflexivity|].
  assert (Hshift : filter_index (first_occurrence (seen ++ x :: l))
                                (S (List.length seen)) l
                   = keep_new (seen ++ [x]) l).
  { specialize (IH (seen ++ [x])).
    rewrite <- app_assoc, length_app in IH. simpl in IH.
    rewrite Nat.add_1_r in IH. exact IH. }
  rewrite Hshift. unfold first_occurrence.
  destruct (in_dec string_dec x seen) as [Hin|Hnot].
  - destruct (indexOf_early seen (x :: l) x Hin) as (i & -> & Hlt).
    destruct (Nat.eqb_spec i (List.length seen)); [lia | reflexivity].
  - rewrite indexOf_skip by assumption. simpl.
    rewrite String.eqb_refl. simpl. rewrite Nat.add_0_r, Nat.eqb_refl.
    reflexivity.
Qed.

Lemma keep_new_In (seen l : list string) (x : string) :
  In x (keep_new seen l) <-> In x l /\ ~ In x seen.
Proof.
  revert seen. induction l as [|y l IH]; intros seen; simpl.
  - tauto.
  - destruct (in_dec string_dec y seen) as [Hin|Hnot]; simpl; rewrite IH, in_app_iff;
      simpl; split.
    + intros [Hl Hs]. split; [now right | tauto].
    + intros [[->|Hl] Hs]; [contradiction|]. split; [assumption|].
      intros [H|[->|[]]]; [tauto | contradiction].
    + intros [->|[Hl Hs]]; [tauto|]. split; [now right | tauto].
    + intros [[->|Hl] Hs]; [now left|].
      destruct (string_dec y x) as [->|Hne]; [now left | right].
      split; [assumption|]. intros [H|[Heq|[]]]; [tauto | contradiction].
Qed.

Lemma keep_new_NoDup (seen l : list string) : NoDup (keep_new seen l).
Proof.
  revert seen. induction l as [|y l IH]; intros seen; simpl.
  - constructor.
  - destruct (in_dec string_dec y seen); [apply IH|].
    constructor; [|apply IH].
    rewrite keep_new_In, in_app_iff. simpl. tauto.
Qed.

Lemma prefix_app (p r : string) : String.prefix p (p +++ r) = true.
Proof.
  induction p as [|c p IH]; simpl.
  - destruct r; reflexivity.
  - destruct (ascii_dec c c) as [_|Hne]; [assumption | now elim Hne].
Qed.

Lemma prefix_split (p s : string) :
  String.prefix p s = true -> exists r, s = p +++ r.
Proof.
  revert s. induction p as [|c p IH]; intros s H.
  - exists s. reflexivity.
  - destruct s as [|d s]; simpl in H; [discriminate|].
    destruct (ascii_dec c d) as [->|]; [|discriminate].
    destruct (IH s H) as [r ->]. exists r. reflexivity.
Qed.

Lemma append_assoc (a b c : string) : (a +++ b) +++ c = a +++ b +++ c.
Proof. induction a as [|x a IH]; simpl; [reflexivity | now rewrite IH]. Qed.

Lemma append_empty_r (a : string) : a +++ EmptyString = a.
Proof. induction a as [|x a IH]; simpl; [reflexivity | now rewrite IH]. Qed.

(** A string includes each of its substrings. *)
Lemma includes_prefix (s p : string) :
  String.prefix p s = true -> includes s p = true.
Proof.
  intros H. destruct s; cbn [includes]; rewrite H; reflexivity.
Qed.

Lemma includes_app (a p b : string) : includes (a +++ p +++ b) p = true.
Proof.
  induction a as [|c a IH]; cbn [append includes].
  - apply includes_prefix, prefix_app.
  - rewrite IH. apply orb_true_r.
Qed.

Lemma includes_split (s p : string) :
  includes s p = true -> exists a b, s = a +++ p +++ b.
Proof.
  induction s as [|c s IH]; cbn [includes]; intros H.
  - rewrite orb_false_r in H. destruct (prefix_split _ _ H) as [r Hr].
    exists EmptyString, r. exact Hr.
  - apply orb_true_iff in H as [H|H].
    + destruct (prefix_split _ _ H) as [r Hr]. exists EmptyString, r. exact Hr.
    + destruct (IH H) as (a & b & ->). exists (String c a), b. reflexivity.
Qed.

(** Every piece of a split is a substring of what was split. *)
Lemma split_aux_substring (sep : ascii) (s acc piece : string) :
  In piece (split_aux sep s acc) -> exists a b, acc +++ s = a +++ piece +++ b.
Proof.
  revert acc. induction s as [|c s IH]; intros acc H; simpl in H.
  - destruct H as [<-|[]]. exists EmptyString, EmptyString.
    simpl. now rewrite !append_empty_r.
  - destruct (Ascii.eqb c sep).
    + destruct H as [<-|H].
      * exists EmptyString, (String c s). reflexivity.
      * destruct (IH EmptyString H) as (a & b & Hab). simpl in Hab.
        exists (acc +++ String c a), b.
        rewrite Hab, append_assoc. reflexivity.
    + destruct (IH _ H) as (a & b & Hab). exists a, b.
      rewrite <- Hab, append_assoc. reflexivity.
Qed.

Lemma split_piece_includes (sep : ascii) (s piece p : string) :
  In piece (split sep s) -> String.prefix p piece = true -> includes s p = true.
Proof.
  intros Hin Hp.
  destruct (split_aux_substring _ _ _ _ Hin) as (a & b & Hab). simpl in Hab.
  destruct (prefix_split _ _ Hp) as [r ->].
  rewrite Hab, append_assoc. apply includes_app.
Qed.

End JSFacts.

(** ** Properties of the branch-merge orchestrator *)
Module GitFacts.
Import JS JSFacts GitBranchManager.
Local Open Scope git_scope.

Lemma git_commands_app (tr1 tr2 : list event) :
  git_commands (tr1 ++ tr2) = git_commands tr1 ++ git_commands tr2.
Proof.
  induction tr1 as [|ev tr1 IH]; simpl; [reflexivity|].
  destruct ev; simpl; now rewrite IH.
Qed.

(** A command that succeeds adds itself to the trace and returns the
    output of the repository. *)
Lemma execGitCommand_resolved (e : env) (tr : list event) (command : string)
      (out : exec_output) :
  git e (git_commands tr) command = Resolved out ->
  execGitCommand command e tr = (tr ++ [Exec command], inl out).
Proof. intros H. unfold execGitCommand. now rewrite H. Qed.

Lemma execGitCommand_rejected (e : env) (tr : list event) (command message : string) :
  git e (git_commands tr) command = Rejected message ->
  execGitCommand command e tr = (tr ++ [Exec command], inr message).
Proof. intros H. unfold execGitCommand. now rewrite H. Qed.

Lemma parseBranches_keep_new (out : string) :
  parseBranches out =
  keep_new [] (filter (fun branch => JS.truthy branch
                                     && negb (JS.includes branch "HEAD"))
                      (map (fun branch => strip_remote (strip_marker branch))
                           (JS.split JS.LF out))).
Proof. unfold parseBranches. apply (filter_index_first_occurrence []). Qed.

Lemma parseBranches_In (out b : string) :
  In b (parseBranches out) <->
  (exists line, In line (JS.split JS.LF out) /\ b = strip_remote (strip_marker line))
  /\ JS.truthy b = true /\ JS.includes b "HEAD" = false.
Proof.
  rewrite parseBranches_keep_new, keep_new_In, filter_In, in_map_iff.
  rewrite andb_true_iff, negb_true_iff. split.
  - intros [[(line & <- & Hin) [Ht Hh]] _]. eauto.
  - intros [(line & Hin & ->) [Ht Hh]]. repeat split; eauto.
Qed.

Lemma parseBranches_NoDup (out : string) : NoDup (parseBranches out).
Proof. rewrite parseBranches_keep_new. apply keep_new_NoDup. Qed.







(** *** The happy path of the merge workflow *)
Section HappyPath.

Variable e : env.
Hypothesis Hsucceed : all_succeed e.
Hypothesis Hquiet : no_conflict e.

Lemma exec_ok (command : string) (tr : list event) :
  exists out, execGitCommand command e tr = (tr ++ [Exec command], inl out).
Proof.
  destruct (Hsucceed (git_commands tr) command) as [out Hout].
  exists out. now apply execGitCommand_resolved.
Qed.

Ltac run_exec :=
  match goal with
  | |- context [execGitCommand ?c e ?tr] =>
      let out := fresh "out" in
      let Hx := fresh "Hx" in
      destruct (exec_ok c tr) as [out Hx]; rewrite Hx; clear Hx
  end.

Ltac flatten := rewrite <- ?app_assoc; cbn [app].

Lemma switchToBranch_ok (branch : string) (tr : list event) :
  switchToBranch branch e tr =
  (tr ++ [Log ("🔄 切换到 " +++ branch +++ " 分支..."); Exec ("git checkout " +++ branch)],
   inl tt).
Proof.
  unfold switchToBranch, log, emit, bind, ret. run_exec. flatten; reflexivity.
Qed.

Lemma switchAndPullBranch_ok (branch : string) (tr : list event) :
  switchAndPullBranch branch e tr =
  (tr ++ [Log ("🔄 切换到 " +++ branch +++ " 分支...");
          Exec ("git checkout " +++ branch);
          Log ("⬇️ 拉取 " +++ branch +++ " 分支最新代码...");
          Exec ("git pull origin " +++ branch)],
   inl tt).
Proof.
  unfold switchAndPullBranch, log, emit, bind, ret. do 2 run_exec. flatten; reflexivity.
Qed.

Lemma checkMergeConflict_ok (tr : list event) :
  checkMergeConflict e tr = (tr ++ [Exec "git status --porcelain"], inl false).
Proof.
  unfold checkMergeConflict, try_catch, bind, ret.
  destruct (Hsucceed (git_commands tr) "git status --porcelain") as [out Hout].
  rewrite (execGitCommand_resolved _ _ _ _ Hout).
  now rewrite (Hquiet _ _ Hout).
Qed.

Lemma mergeToTargetBranch_ok (sourceBranch targetBranch : string) (tr : list event) :
  mergeToTargetBranch sourceBranch targetBranch e tr =
  (tr ++ [Log ("🔄 切换到 " +++ targetBranch +++ " 分支...");
          Exec ("git checkout " +++ targetBranch);
          Log ("⬇️ 拉取 " +++ targetBranch +++ " 分支最新代码...");
          Exec ("git pull origin " +++ targetBranch);
          Log ("🔀 合并 " +++ sourceBranch +++ " 到 " +++ targetBranch +++ "...");
          Exec ("git merge " +++ sourceBranch);
          Exec "git status --porcelain";
          Log ("⬆️ 推送 " +++ targetBranch +++ " 分支...");
          Exec ("git push origin " +++ targetBranch +++ ":" +++ targetBranch)],
   inl tt).
Proof.
  unfold mergeToTargetBranch.
  unfold bind at 1. rewrite switchToBranch_ok.
  unfold log, emit, bind, ret. do 2 run_exec.
  rewrite checkMergeConflict_ok. run_exec. flatten; reflexivity.
Qed.

Lemma executeMergeFlow_ok (branchToMerge originalBranch : string) (tr : list event) :
  executeMergeFlow branchToMerge originalBranch e tr =
  (tr ++ merge_trace branchToMerge originalBranch
      ++ [ShowInformationMessage success_message], inl tt).
Proof.
  unfold executeMergeFlow.
  unfold bind at 1. unfold emit at 1.
  unfold bind at 1. rewrite switchAndPullBranch_ok.
  unfold bind at 1. unfold emit at 1.
  unfold bind at 1. rewrite mergeToTargetBranch_ok.
  unfold bind at 1. unfold emit at 1.
  unfold bind at 1. rewrite mergeToTargetBranch_ok.
  unfold bind at 1. unfold emit at 1.
  unfold bind at 1. rewrite switchToBranch_ok.
  unfold bind, log, emit, merge_trace. flatten. reflexivity.
Qed.

End HappyPath.

(** C2, as the code has it.  When every git command succeeds and no
    status report shows a conflict, [executeMergeFlow] runs, in this
    order: checkout and pull of the source branch; checkout [dev], pull
    [dev], merge of the source branch, a status report, push of [dev];
    checkout [sit], pull [sit], merge of [dev], a status report, push of
    [sit]; checkout of the original branch.  It then ends with the
    success notification, and shows no other notification. *)
Theorem merge_flow_sequence (e : env) (branchToMerge originalBranch : string)
        (tr : list event) :
  all_succeed e ->
  no_conflict e ->
  executeMergeFlow branchToMerge originalBranch e tr =
    (tr ++ merge_trace branchToMerge originalBranch
        ++ [ShowInformationMessage success_message], inl tt)
  /\ git_commands (merge_trace branchToMerge originalBranch) =
     merge_sequence branchToMerge originalBranch
  /\ git_commands (fst (executeMergeFlow branchToMerge originalBranch e tr)) =
     git_commands tr ++ merge_sequence branchToMerge originalBranch.
Proof.
  intros Hs Hq. rewrite (executeMergeFlow_ok e Hs Hq).
  repeat split. cbn [fst]. rewrite !git_commands_app. cbn [git_commands].
  now rewrite app_nil_r.
Qed.

Lemma world_all_succeed (status_text : string) : all_succeed (world status_text).
Proof. intros history command. eexists. reflexivity. Qed.

Lemma world_no_conflict : no_conflict (world EmptyString).
Proof.
  intros history out H. cbn in H. injection H as <-. reflexivity.
Qed.

(** The theorem at the source branch [feature/login], in a clean
    repository. *)
Lemma merge_flow_sequence_witness :
  all_succeed (world EmptyString)
  /\ no_conflict (world EmptyString)
  /\ git_commands
       (fst (executeMergeFlow "feature/login" "feature/login" (world EmptyString) [])) =
     merge_sequence "feature/login" "feature/login".
Proof.
  split; [apply world_all_succeed|].
  split; [apply world_no_conflict|].
  apply (merge_flow_sequence (world EmptyString) "feature/login" "feature/login" []).
  - apply world_all_succeed.
  - apply world_no_conflict.
Defined.

(** C2, as the specification words it, fails: in a clean repository and
    for the source branch [feature/login], the commands that run are not
    the sequence of the scenario, which checks out and pulls [dev] a
    second time where the code checks out and pulls [sit]; this holds also
    when the status reports are left out of the comparison. *)
Lemma scenario_sequence_refuted :
  git_commands
    (fst (run (executeMergeFlow "feature/login" "feature/login") (world EmptyString)))
  <> scenario_sequence
  /\ without_status
       (git_commands
          (fst (run (executeMergeFlow "feature/login" "feature/login")
                    (world EmptyString))))
     <> scenario_sequence.
Proof.
  split; vm_compute; intros H; discriminate H.
Qed.

(** The whole command in the same repository: the four checks, then the
    merge sequence. *)
Example autoMergeBranch_clean_run :
  git_commands (fst (run autoMergeBranch (world EmptyString))) =
  [ "git rev-parse --git-dir"; "git status --porcelain";
    "git rev-parse --abbrev-ref HEAD"; "git branch -a" ]
  ++ merge_sequence "feature/login" "feature/login".
Proof. vm_compute. reflexivity. Qed.

(** *** Conflict detection *)

(** A status report with a line that starts with [UU], [AA] or [DD]
    passes the test of [checkMergeConflict]. *)
Lemma spec_conflict_detected (out : string) :
  spec_conflict out = true -> conflict_in out = true.
Proof.
  unfold spec_conflict, conflict_in, marker_line, startsWith.
  rewrite existsb_exists. intros (piece & Hin & H).
  apply orb_true_iff in H as [H|H]; [apply orb_true_iff in H as [H|H]|];
    rewrite (split_piece_includes _ _ _ _ Hin H);
    rewrite ?orb_true_r; reflexivity.
Qed.

(** When the commands succeed and the status report passes the test of
    [checkMergeConflict], the merge step throws the conflict error after
    the status report, and so runs no push. *)
Lemma mergeToTargetBranch_conflict (e : env) (sourceBranch targetBranch : string)
      (tr : list event) :
  all_succeed e ->
  (forall history out, git e history "git status --porcelain" = Resolved out ->
                       conflict_in (stdout out) = true) ->
  mergeToTargetBranch sourceBranch targetBranch e tr =
  (tr ++ [Log ("🔄 切换到 " +++ targetBranch +++ " 分支...");
          Exec ("git checkout " +++ targetBranch);
          Log ("⬇️ 拉取 " +++ targetBranch +++ " 分支最新代码...");
          Exec ("git pull origin " +++ targetBranch);
          Log ("🔀 合并 " +++ sourceBranch +++ " 到 " +++ targetBranch +++ "...");
          Exec ("git merge " +++ sourceBranch);
          Exec "git status --porcelain"],
   inr (conflict_message sourceBranch targetBranch)).
Proof.
  intros Hs Hc. unfold mergeToTargetBranch.
  unfold bind at 1. rewrite (switchToBranch_ok e Hs).
  unfold log, emit, bind, ret.
  do 2 (match goal with
        | |- context [execGitCommand ?c e ?t] =>
            let out := fresh "out" in
            let Hx := fresh "Hx" in
            destruct (exec_ok e Hs c t) as [out Hx]; rewrite Hx; clear Hx
        end).
  unfold checkMergeConflict, try_catch, bind, ret, throw.
  match goal with
  | |- context [execGitCommand "git status --porcelain" e ?t] =>
      destruct (Hs (git_commands t) "git status --porcelain") as [o3 H3];
      rewrite (execGitCommand_resolved _ _ _ _ H3)
  end.
  rewrite (Hc _ _ H3). rewrite <- ?app_assoc. cbn [app]. reflexivity.
Qed.

(** C6 at an input where the code and the specification part: after the
    merge into [dev] the status report is the single line [?? AA.txt] (an
    untracked file).  No line bears a conflict marker, yet the merge step
    throws the conflict error and does not push. *)
Theorem untracked_file_taken_for_conflict :
  spec_conflict (line "?? AA.txt") = false
  /\ snd (run (mergeToTargetBranch "feature/login" "dev") (world (line "?? AA.txt")))
     = inr (conflict_message "feature/login" "dev")
  /\ ~ In "git push origin dev:dev"
         (git_commands
            (fst (run (mergeToTargetBranch "feature/login" "dev")
                      (world (line "?? AA.txt"))))).
Proof.
  split; [reflexivity|]. split; [reflexivity|].
  vm_compute. intros H.
  repeat (destruct H as [H|H]; [discriminate H|]). exact H.
Qed.

(** *** The order of the commands, whatever fails *)

Lemma run_plan_app (e : env) (first rest : list step) (history : list string) :
  run_plan e history (first ++ rest) =
  match snd (run_plan e history first) with
  | Some error => (fst (run_plan e history first), Some error)
  | None =>
      (fst (run_plan e history first)
         ++ fst (run_plan e (history ++ fst (run_plan e history first)) rest),
       snd (run_plan e (history ++ fst (run_plan e history first)) rest))
  end.
Proof.
  revert history. induction first as [|s first IH]; intros history.
  - cbn [app run_plan fst snd]. rewrite app_nil_r. now destruct (run_plan e history rest).
  - cbn [app run_plan]. destruct (stops e history s) as [error|]; [reflexivity|].
    cbn [fst snd]. rewrite IH.
    destruct (snd (run_plan e (history ++ [command_of s]) first)); [reflexivity|].
    cbn [fst snd app]. now rewrite <- app_assoc.
Qed.

(** What a plan runs is a prefix of its commands, up to and with the first
    step that stops; it is all of them when no step stops. *)
Lemma run_plan_spec (e : env) (plan : list step) (history : list string) :
  match snd (run_plan e history plan) with
  | None =>
      fst (run_plan e history plan) = map command_of plan
      /\ forall i s, nth_error plan i = Some s ->
           stops e (history ++ firstn i (map command_of plan)) s = None
  | Some error =>
      exists i s,
        nth_error plan i = Some s
        /\ fst (run_plan e history plan) = firstn (S i) (map command_of plan)
        /\ stops e (history ++ firstn i (map command_of plan)) s = Some error
        /\ forall j s', j < i -> nth_error plan j = Some s' ->
             stops e (history ++ firstn j (map command_of plan)) s' = None
  end.
Proof.
  revert history. induction plan as [|s plan IH]; intros history.
  - cbn. split; [reflexivity|]. intros [|i] s H; discriminate H.
  - cbn [run_plan]. destruct (stops e history s) as [error|] eqn:Hs.
    + cbn [fst snd]. exists 0, s. cbn [nth_error firstn map]. rewrite app_nil_r.
      repeat split; try assumption. intros j s' Hj. lia.
    + cbn [fst snd]. specialize (IH (history ++ [command_of s])).
      destruct (snd (run_plan e (history ++ [command_of s]) plan)) as [error|].
      * destruct IH as (i & s' & Hi & Hrun & Hstop & Hbefore).
        exists (S i), s'. cbn [nth_error firstn map]. rewrite Hrun.
        split; [exact Hi|]. split; [reflexivity|]. split.
        { rewrite <- app_assoc in Hstop. exact Hstop. }
        intros [|j] s'' Hj Hnth.
        { cbn in Hnth. injection Hnth as <-. cbn [firstn]. now rewrite app_nil_r. }
        cbn [nth_error] in Hnth. cbn [firstn].
        specialize (Hbefore j s'' (proj2 (Nat.succ_lt_mono j i) Hj) Hnth).
        now rewrite <- app_assoc in Hbefore.
      * destruct IH as [Hrun Hnone]. cbn [map]. rewrite Hrun.
        split; [reflexivity|]. intros [|i] s' Hnth.
        { cbn in Hnth. injection Hnth as <-. cbn [firstn]. now rewrite app_nil_r. }
        cbn [nth_error] in Hnth. cbn [firstn].
        specialize (Hnone i s' Hnth). now rewrite <- app_assoc in Hnone.
Qed.

Lemma follows_bind {A B} (e : env) (m : M A) (k : A -> M B)
      (first rest : list step) (final : list event) :
  follows e m first [] ->
  (forall a, follows e (k a) rest final) ->
  follows e (bind m k) (first ++ rest) final.
Proof.
  intros Hm Hk tr. destruct (Hm tr) as (ext1 & Hs1 & Hc1 & Hrun1).
  rewrite run_plan_app.
  destruct (snd (run_plan e (git_commands tr) first)) as [error|].
  - exists ext1. cbn [fst snd]. split; [exact Hs1|]. split; [exact Hc1|].
    unfold bind. now rewrite Hrun1.
  - destruct Hrun1 as (a & Hrun1). rewrite app_nil_r in Hrun1.
    destruct (Hk a (tr ++ ext1)) as (ext2 & Hs2 & Hc2 & Hrun2).
    rewrite git_commands_app, Hc1 in Hc2, Hrun2.
    exists (ext1 ++ ext2). cbn [fst snd].
    rewrite forallb_app, Hs1, Hs2, git_commands_app, Hc1, Hc2.
    split; [reflexivity|]. split; [reflexivity|].
    unfold bind. rewrite Hrun1.
    destruct (snd (run_plan e (git_commands tr ++ fst (run_plan e (git_commands tr) first))
                            rest)) as [error|].
    + now rewrite Hrun2, <- app_assoc.
    + destruct Hrun2 as (b & Hrun2). exists b. now rewrite Hrun2, <- !app_assoc.
Qed.

(** The two ways of writing a sequence of three are the same
    computation. *)
Lemma follows_assoc {A B C} (e : env) (m : M A) (f : A -> M B) (k : B -> M C)
      (plan : list step) (final : list event) :
  follows e (bind (bind m f) k) plan final ->
  follows e (bind m (fun a => bind (f a) k)) plan final.
Proof.
  intros H tr. destruct (H tr) as (ext & Hs & Hc & Hrun).
  exists ext. split; [exact Hs|]. split; [exact Hc|].
  assert (Heq : bind m (fun a => bind (f a) k) e tr = bind (bind m f) k e tr).
  { unfold bind. now destruct (m e tr) as [tr' [a|error]]. }
  now rewrite Heq.
Qed.

Lemma follows_exec (e : env) (command : string) :
  follows e (execGitCommand command) [Must command] [].
Proof.
  intros tr. exists [Exec command]. split; [reflexivity|].
  cbn [run_plan stops command_of]. unfold execGitCommand.
  destruct (git e (git_commands tr) command) as [out|message]; cbn [fst snd].
  - split; [reflexivity|]. exists out. now rewrite app_nil_r.
  - now split.
Qed.

Lemma follows_emit (e : env) (ev : event) :
  silent ev = true -> git_commands [ev] = [] -> follows e (emit ev) [] [].
Proof.
  intros Hs Hc tr. exists [ev]. cbn [forallb run_plan fst snd]. rewrite Hs, Hc.
  split; [reflexivity|]. split; [reflexivity|]. exists tt. now rewrite app_nil_r.
Qed.

Lemma follows_ret {A} (e : env) (a : A) : follows e (ret a) [] [].
Proof.
  intros tr. exists []. cbn [forallb run_plan fst snd git_commands].
  split; [reflexivity|]. split; [reflexivity|]. exists a.
  unfold ret. now rewrite !app_nil_r.
Qed.

(** The status report and the test that follows it: a report that fails
    is passed over, and a report that passes the conflict test throws the
    conflict error. *)
Lemma follows_check (e : env) (sourceBranch targetBranch : string) :
  follows e (bind checkMergeConflict
                  (fun conflict : bool =>
                     if conflict
                     then throw (conflict_message sourceBranch targetBranch)
                     else ret tt))
          [Check sourceBranch targetBranch] [].
Proof.
  intros tr. exists [Exec "git status --porcelain"]. split; [reflexivity|].
  cbn [run_plan stops command_of].
  unfold checkMergeConflict, try_catch, bind, ret, throw, execGitCommand.
  destruct (git e (git_commands tr) "git status --porcelain") as [out|message].
  - destruct (conflict_in (stdout out)); cbn [fst snd].
    + now split.
    + split; [reflexivity|]. exists tt. now rewrite app_nil_r.
  - cbn [fst snd]. split; [reflexivity|]. exists tt. now rewrite app_nil_r.
Qed.

Ltac follows_step plan :=
  apply (follows_bind _ _ _ plan);
  [ first [ apply follows_exec | apply follows_emit; reflexivity ]
  | intros ? ].

Lemma follows_switchToBranch (e : env) (branch : string) :
  follows e (switchToBranch branch) [Must ("git checkout " +++ branch)] [].
Proof.
  unfold switchToBranch, log.
  follows_step (@nil step). follows_step [Must ("git checkout " +++ branch)].
  apply follows_ret.
Qed.

Lemma follows_switchAndPullBranch (e : env) (branch : string) :
  follows e (switchAndPullBranch branch)
          [Must ("git checkout " +++ branch); Must ("git pull origin " +++ branch)] [].
Proof.
  unfold switchAndPullBranch, log.
  follows_step (@nil step). follows_step [Must ("git checkout " +++ branch)].
  follows_step (@nil step). follows_step [Must ("git pull origin " +++ branch)].
  apply follows_ret.
Qed.

Lemma follows_mergeToTargetBranch (e : env) (sourceBranch targetBranch : string) :
  follows e (mergeToTargetBranch sourceBranch targetBranch)
          (merge_steps sourceBranch targetBranch) [].
Proof.
  unfold mergeToTargetBranch, merge_steps, log.
  apply (follows_bind _ _ _ [Must ("git checkout " +++ targetBranch)]);
    [apply follows_switchToBranch | intros _].
  follows_step (@nil step).
  follows_step [Must ("git pull origin " +++ targetBranch)].
  follows_step (@nil step).
  follows_step [Must ("git merge " +++ sourceBranch)].
  apply follows_assoc.
  apply (follows_bind _ _ _ [Check sourceBranch targetBranch]);
    [apply follows_check | intros _].
  follows_step (@nil step).
  follows_step [Must ("git push origin " +++ targetBranch +++ ":" +++ targetBranch)].
  apply follows_ret.
Qed.

Lemma follows_executeMergeFlow (e : env) (branchToMerge originalBranch : string) :
  follows e (executeMergeFlow branchToMerge originalBranch)
          (merge_plan branchToMerge originalBranch)
          [ShowInformationMessage success_message].
Proof.
  unfold executeMergeFlow, merge_plan, log.
  follows_step (@nil step).
  apply (follows_bind _ _ _ [Must ("git checkout " +++ branchToMerge);
                             Must ("git pull origin " +++ branchToMerge)]);
    [apply follows_switchAndPullBranch | intros _].
  follows_step (@nil step).
  apply (follows_bind _ _ _ (merge_steps branchToMerge "dev"));
    [apply follows_mergeToTargetBranch | intros _].
  follows_step (@nil step).
  apply (follows_bind _ _ _ (merge_steps "dev" "sit"));
    [apply follows_mergeToTargetBranch | intros _].
  follows_step (@nil step).
  apply (follows_bind _ _ _ [Must ("git checkout " +++ originalBranch)]);
    [apply follows_switchToBranch | intros _].
  follows_step (@nil step). follows_step (@nil step).
  intros tr. exists []. cbn [forallb run_plan fst snd git_commands].
  split; [reflexivity|]. split; [reflexivity|]. exists tt.
  reflexivity.
Qed.

(** X1.  [executeMergeFlow] takes the thirteen steps of its plan in their
    order, from whatever trace and whatever the repository answers.  A
    step stops the flow when its command is rejected, which throws the
    error of the command, except that a rejected status report is passed
    over; and when a status report that succeeds passes the conflict test,
    which throws the conflict error of that merge.  The flow runs the
    commands up to and with the first step that stops, throws there, and
    shows nothing to the user; when no step stops it runs all thirteen
    commands and returns after the success notification. *)
Theorem executeMergeFlow_ordered (e : env) (branchToMerge originalBranch : string)
        (tr : list event) :
  map command_of (merge_plan branchToMerge originalBranch)
  = merge_sequence branchToMerge originalBranch
  /\ exists ext,
       forallb silent ext = true
       /\ match snd (run_plan e (git_commands tr)
                              (merge_plan branchToMerge originalBranch)) with
          | None =>
              executeMergeFlow branchToMerge originalBranch e tr
              = (tr ++ ext ++ [ShowInformationMessage success_message], inl tt)
              /\ git_commands ext = merge_sequence branchToMerge originalBranch
              /\ forall i s,
                   nth_error (merge_plan branchToMerge originalBranch) i = Some s ->
                   stops e (git_commands tr
                              ++ firstn i (merge_sequence branchToMerge originalBranch))
                         s = None
          | Some error =>
              executeMergeFlow branchToMerge originalBranch e tr
              = (tr ++ ext, inr error)
              /\ exists i s,
                   nth_error (merge_plan branchToMerge originalBranch) i = Some s
                   /\ git_commands ext
                      = firstn (S i) (merge_sequence branchToMerge originalBranch)
                   /\ stops e (git_commands tr
                                 ++ firstn i (merge_sequence branchToMerge originalBranch))
                            s = Some error
                   /\ forall j s', j < i ->
                        nth_error (merge_plan branchToMerge originalBranch) j = Some s' ->
                        stops e (git_commands tr
                                   ++ firstn j (merge_sequence branchToMerge
                                                               originalBranch))
                              s' = None
          end.
Proof.
  assert (Hseq : map command_of (merge_plan branchToMerge originalBranch)
                 = merge_sequence branchToMerge originalBranch) by reflexivity.
  split; [exact Hseq|].
  destruct (follows_executeMergeFlow e branchToMerge originalBranch tr)
    as (ext & Hs & Hc & Hrun).
  exists ext. split; [exact Hs|].
  pose proof (run_plan_spec e (merge_plan branchToMerge originalBranch)
                (git_commands tr)) as Hspec.
  rewrite Hseq in Hspec.
  destruct (snd (run_plan e (git_commands tr)
                          (merge_plan branchToMerge originalBranch))) as [error|].
  - split; [exact Hrun|]. destruct Hspec as (i & s & Hi & Hfst & Hstop & Hbefore).
    exists i, s. rewrite Hc. now repeat split.
  - destruct Hrun as ([] & Hrun). destruct Hspec as [Hfst Hnone].
    split; [exact Hrun|]. rewrite Hc. now split.
Qed.

(** The flow where the status reports fail: the failures are passed over,
    all thirteen commands run and the success is shown.  With a push to
    [sit] that is rejected as well, the flow throws the error of the push,
    after twelve commands. *)
Lemma executeMergeFlow_status_fails :
  run (executeMergeFlow "feature/login" "main") status_fails
  = (merge_trace "feature/login" "main" ++ [ShowInformationMessage success_message],
     inl tt)
  /\ snd (run (executeMergeFlow "feature/login" "main") push_fails)
     = inr "rejected: non-fast-forward"
  /\ git_commands (fst (run (executeMergeFlow "feature/login" "main") push_fails))
     = firstn 12 (merge_sequence "feature/login" "main").
Proof. repeat split. Qed.

(** *** The checks before the merge *)

Lemma isGitRepository_runs (e : env) (tr : list event) :
  isGitRepository e tr =
  (tr ++ [Exec "git rev-parse --git-dir"],
   inl (match git e (git_commands tr) "git rev-parse --git-dir" with
        | Resolved _ => true
        | Rejected _ => false
        end)).
Proof.
  unfold isGitRepository, try_catch, bind, ret, execGitCommand.
  now destruct (git e (git_commands tr) "git rev-parse --git-dir").
Qed.

Lemma isWorkingDirectoryClean_runs (e : env) (tr : list event) :
  isWorkingDirectoryClean e tr =
  (tr ++ [Exec "git status --porcelain"],
   inl (match git e (git_commands tr) "git status --porcelain" with
        | Resolved out => (String.length (JS.trim (stdout out)) =? 0)%nat
        | Rejected _ => false
        end)).
Proof.
  unfold isWorkingDirectoryClean, try_catch, bind, ret, execGitCommand.
  now destruct (git e (git_commands tr) "git status --porcelain").
Qed.

Lemma getCurrentBranch_runs (e : env) (tr : list event) :
  getCurrentBranch e tr =
  (tr ++ [Exec "git rev-parse --abbrev-ref HEAD"],
   match git e (git_commands tr) "git rev-parse --abbrev-ref HEAD" with
   | Resolved out => inl (JS.trim (stdout out))
   | Rejected message => inr message
   end).
Proof.
  unfold getCurrentBranch, bind, ret, execGitCommand.
  now destruct (git e (git_commands tr) "git rev-parse --abbrev-ref HEAD").
Qed.

Lemma getAllBranches_runs (e : env) (tr : list event) :
  getAllBranches e tr =
  match git e (git_commands tr) "git branch -a" with
  | Resolved out => (tr ++ [Exec "git branch -a"], inl (parseBranches (stdout out)))
  | Rejected message =>
      (tr ++ [Exec "git branch -a"; LogError "获取分支列表失败" message], inl [])
  end.
Proof.
  unfold getAllBranches, try_catch, bind, ret, logError, emit, execGitCommand.
  destruct (git e (git_commands tr) "git branch -a"); [reflexivity|].
  now rewrite <- app_assoc.
Qed.


Lemma selectBranchToMerge_runs (currentBranch : string) (e : env) (tr : list event) :
  exists ext selected,
    selectBranchToMerge currentBranch e tr = (tr ++ ext, inl selected)
    /\ git_commands ext = ["git branch -a"].
Proof.
  unfold selectBranchToMerge. unfold bind at 1. rewrite getAllBranches_runs.
  destruct (git e (git_commands tr) "git branch -a");
    unfold bind, emit, ask, ret; eexists _, _; rewrite <- app_assoc;
    (split; [reflexivity|]); reflexivity.
Qed.

Lemma confirmMergeOperation_declined (branchToMerge : string) (e : env)
      (tr : list event) :
  confirm_answer e <> Some "确认合并" ->
  confirmMergeOperation branchToMerge e tr =
  (tr ++ [ShowWarningMessage (confirm_message branchToMerge) true ["确认合并"; "取消"]],
   inl false).
Proof.
  intros Hno. unfold confirmMergeOperation, bind, emit, ask, ret.
  destruct (confirm_answer e) as [answer|]; [|reflexivity].
  destruct (String.eqb_spec answer "确认合并") as [->|]; [now elim Hno | reflexivity].
Qed.

Ltac count_commands :=
  cbn [fst snd]; rewrite ?git_commands_app; cbn [git_commands app];
  first [ exists 0; reflexivity | exists 1; reflexivity | exists 2; reflexivity
        | exists 3; reflexivity | exists 4; reflexivity ].

(** What follows the checks of the repository and of the working tree,
    when the user does not confirm: the current branch is read, the
    branches are listed, and nothing else is run. *)
Lemma selection_declined (e : env) (tr : list event) :
  confirm_answer e <> Some "确认合并" ->
  exists ext result,
    (currentBranch <- getCurrentBranch ;;
     log ("📍 当前分支: " +++ currentBranch) ;;
     branchToMerge <- selectBranchToMerge currentBranch ;;
     match branchToMerge with
     | None => log "❌ 用户取消操作"
     | Some branch =>
         if negb (JS.truthy branch) then log "❌ 用户取消操作"
         else
           confirmed <- confirmMergeOperation branch ;;
           if negb confirmed then log "❌ 用户取消合并操作"
           else executeMergeFlow branch currentBranch
     end) e tr = (tr ++ ext, result)
    /\ exists n, git_commands ext
                 = firstn n ["git rev-parse --abbrev-ref HEAD"; "git branch -a"].
Proof.
  intros Hno. unfold bind at 1. rewrite getCurrentBranch_runs.
  destruct (git e (git_commands tr) "git rev-parse --abbrev-ref HEAD") as [out|message].
  2:{ exists [Exec "git rev-parse --abbrev-ref HEAD"], (inr message).
      split; [reflexivity|]. now exists 1. }
  unfold bind at 1. unfold log at 1, emit at 1.
  unfold bind at 1.
  match goal with
  | |- context [selectBranchToMerge ?c e ?t] =>
      destruct (selectBranchToMerge_runs c e t) as (ext & selected & Hrun & Hc);
      rewrite Hrun
  end.
  destruct selected as [branch|].
  - destruct (JS.truthy branch); cbn [negb].
    + unfold bind at 1. rewrite (confirmMergeOperation_declined _ _ _ Hno).
      cbn [negb]. unfold log, emit. eexists _, _. rewrite <- !app_assoc.
      split; [reflexivity|]. exists 2.
      rewrite !git_commands_app, Hc. reflexivity.
    + unfold log, emit. eexists _, _. rewrite <- !app_assoc.
      split; [reflexivity|]. exists 2.
      rewrite !git_commands_app, Hc. reflexivity.
  - unfold log, emit. eexists _, _. rewrite <- !app_assoc.
    split; [reflexivity|]. exists 2.
    rewrite !git_commands_app, Hc. reflexivity.
Qed.

(** X2.  Unless the user answers the confirmation dialogue with
    [确认合并], [autoMergeBranch] runs nothing but the first of the four
    read-only checks, in their order, whatever the repository and the
    other answers are; and it ends without throwing. *)
Theorem no_change_without_confirmation (e : env) :
  confirm_answer e <> Some "确认合并" ->
  exists tr,
    run autoMergeBranch e = (tr, inl tt)
    /\ exists n, git_commands tr = firstn n read_only_checks.
Proof.
  intros Hno.
  unfold run, autoMergeBranch, try_catch, autoMergeBranch_body.
  unfold bind at 1. unfold emit at 1.
  unfold bind at 1. unfold log at 1, emit at 1. cbn [fst snd].
  unfold bind at 1. rewrite isGitRepository_runs.
  destruct (git e _ "git rev-parse --git-dir"); cbn [negb].
  2:{ unfold bind, log, emit. cbn [fst snd]. eexists. split; [reflexivity|].
      exists 1. reflexivity. }
  unfold bind at 1. rewrite isWorkingDirectoryClean_runs.
  assert (Htail : forall tr0,
            git_commands tr0 = ["git rev-parse --git-dir"; "git status --porcelain"] ->
            exists tr,
              (let (tr', s) :=
                 (currentBranch <- getCurrentBranch ;;
                  log ("📍 当前分支: " +++ currentBranch) ;;
                  branchToMerge <- selectBranchToMerge currentBranch ;;
                  match branchToMerge with
                  | None => log "❌ 用户取消操作"
                  | Some branch =>
                      if negb (JS.truthy branch) then log "❌ 用户取消操作"
                      else
                        confirmed <- confirmMergeOperation branch ;;
                        if negb confirmed then log "❌ 用户取消合并操作"
                        else executeMergeFlow branch currentBranch
                  end) e tr0 in
               match s with
               | inl a => (tr', inl a)
               | inr err =>
                   (logError "合并过程中发生错误" err ;;
                    emit (ShowErrorMessage (friendly_error err))) e tr'
               end) = (tr, inl tt)
              /\ exists n, git_commands tr = firstn n read_only_checks).
  { intros tr0 Htr0.
    destruct (selection_declined e tr0 Hno) as (ext & result & Hrun & n & Hc).
    rewrite Hrun. destruct result as [[]|error].
    - eexists. split; [reflexivity|]. exists (2 + n).
      now rewrite git_commands_app, Htr0, Hc.
    - unfold bind, logError, emit. eexists. split; [reflexivity|]. exists (2 + n).
      cbn [fst snd]. rewrite !git_commands_app, Htr0, Hc. cbn [git_commands].
      now rewrite !app_nil_r. }
  unfold bind at 1.
  match goal with |- context [negb ?c] => destruct c end; cbn [negb].
  - unfold ret at 1. cbn [negb]. apply Htail. reflexivity.
  - unfold bind at 1. unfold log at 1, emit at 1.
    unfold bind at 1. unfold emit at 1.
    unfold bind at 1. unfold ask at 1.
    destruct (dirty_answer e) as [action|].
    + destruct (action =? "查看更改")%string.
      * unfold bind, emit, ret. cbn [negb]. eexists. split; [reflexivity|].
        exists 2. reflexivity.
      * destruct (action =? "继续操作")%string; cbn [negb].
        -- unfold ret at 1. cbn [negb]. apply Htail.
           rewrite !git_commands_app. reflexivity.
        -- unfold bind, log, emit, ret. cbn [negb]. eexists. split; [reflexivity|].
           exists 2. reflexivity.
    + unfold bind, log, emit, ret. cbn [negb]. eexists. split; [reflexivity|].
      exists 2. reflexivity.
Qed.

(** The theorem for a user who cancels the confirmation in a clean
    repository: the four checks are run, and nothing else. *)
Lemma no_change_without_confirmation_witness :
  confirm_answer (hesitant EmptyString None) <> Some "确认合并"
  /\ exists tr,
       run autoMergeBranch (hesitant EmptyString None) = (tr, inl tt)
       /\ exists n, git_commands tr = firstn n read_only_checks.
Proof.
  assert (H : confirm_answer (hesitant EmptyString None) <> Some "确认合并")
    by (cbn; discriminate).
  split; [exact H|].
  exact (no_change_without_confirmation (hesitant EmptyString None) H).
Defined.

(** *** Outside a repository, and with uncommitted changes *)

(** X3.  When [git rev-parse --git-dir] fails, [autoMergeBranch] runs no
    other command and asks nothing: it shows the error message for a
    working directory that is not a repository, and ends. *)
Theorem not_a_repository_stops (e : env) (message : string) :
  git e [] "git rev-parse --git-dir" = Rejected message ->
  run autoMergeBranch e =
  ([ OutputShow;
     Log "🚀 开始自动合并分支...";
     Exec "git rev-parse --git-dir";
     Log ("❌ " +++ not_repository_message);
     ShowErrorMessage not_repository_message ],
   inl tt).
Proof.
  intros H.
  unfold run, autoMergeBranch, try_catch, autoMergeBranch_body.
  unfold bind at 1. unfold emit at 1.
  unfold bind at 1. unfold log at 1, emit at 1. cbn [fst snd].
  unfold bind at 1. rewrite isGitRepository_runs.
  cbn [app git_commands]. rewrite H. reflexivity.
Qed.

(** The theorem in a directory where every git command fails. *)
Lemma not_a_repository_stops_witness :
  git no_repository [] "git rev-parse --git-dir"
  = Rejected "fatal: not a git repository (or any of the parent directories): .git"
  /\ git_commands (fst (run autoMergeBranch no_repository))
     = ["git rev-parse --git-dir"].
Proof.
  split; [reflexivity|].
  rewrite (not_a_repository_stops no_repository
             "fatal: not a git repository (or any of the parent directories): .git"
             eq_refl).
  reflexivity.
Defined.

Lemma trimStart_all_space (s : string) :
  all_space (JS.trimStart s) = all_space s.
Proof.
  unfold all_space.
  assert (H : forall n s, String.length s <= n ->
                          JS.all_space (JS.trimStart s) = JS.all_space s).
  { clear s. induction n as [|n IH]; intros s Hn.
    - destruct s; [reflexivity | cbn in Hn; lia].
    - destruct s as [|c1 s1]; [reflexivity|]. cbn [String.length] in Hn.
      cbn [JS.trimStart]. destruct (JS.is_space c1) eqn:H1.
      { cbn [JS.all_space]. rewrite H1. apply IH. lia. }
      destruct s1 as [|c2 s2]; [reflexivity|]. cbn [String.length] in Hn.
      destruct (JS.is_space2 c1 c2) eqn:H2.
      { cbn [JS.all_space]. rewrite H1, H2. apply IH. lia. }
      destruct s2 as [|c3 s3]; [reflexivity|]. cbn [String.length] in Hn.
      destruct (JS.is_space3 c1 c2 c3) eqn:H3; [|reflexivity].
      cbn [JS.all_space]. rewrite H1, H2, H3. apply IH. lia. }
  now apply (H (String.length s)).
Qed.

Lemma trimEnd_empty (s : string) :
  (String.length (JS.trimEnd s) =? 0)%nat = all_space s.
Proof.
  unfold all_space. destruct s as [|c s]; [reflexivity|]. cbn [JS.trimEnd].
  now destruct (JS.all_space (String c s)).
Qed.

(** [s.trim()] is empty exactly when [s] is white space. *)
Lemma trim_empty (s : string) :
  (String.length (JS.trim s) =? 0)%nat = all_space s.
Proof. unfold JS.trim. now rewrite trimEnd_empty, trimStart_all_space. Qed.

Lemma isWorkingDirectoryClean_all_space (e : env) (tr : list event) :
  isWorkingDirectoryClean e tr =
  (tr ++ [Exec "git status --porcelain"],
   inl (match git e (git_commands tr) "git status --porcelain" with
        | Resolved out => all_space (stdout out)
        | Rejected _ => false
        end)).
Proof.
  rewrite isWorkingDirectoryClean_runs.
  destruct (git e (git_commands tr) "git status --porcelain"); [|reflexivity].
  now rewrite trim_empty.
Qed.

(** X4.  [isWorkingDirectoryClean] runs the status report and nothing
    else, and never throws.  It answers that the tree is clean exactly
    when the report succeeds and prints nothing but white space: a report
    that fails counts as uncommitted changes. *)
Theorem isWorkingDirectoryClean_spec (e : env) (tr : list event) :
  exists clean,
    isWorkingDirectoryClean e tr = (tr ++ [Exec "git status --porcelain"], inl clean)
    /\ (clean = true <->
        exists out,
          git e (git_commands tr) "git status --porcelain" = Resolved out
          /\ all_space (stdout out) = true).
Proof.
  rewrite isWorkingDirectoryClean_all_space. eexists. split; [reflexivity|].
  destruct (git e (git_commands tr) "git status --porcelain") as [out|message].
  - split.
    + intros H. now exists out.
    + intros (out' & Heq & H). now injection Heq as ->.
  - split; [discriminate|]. intros (out' & Heq & _). discriminate Heq.
Qed.

(** X5.  When the working tree is not clean (the status report fails or
    prints something) and the user does not answer the warning with
    [继续操作], [autoMergeBranch] stops after the status report: the
    branches are not even listed, whatever the user would have
    confirmed. *)
Theorem uncommitted_changes_stop (e : env) (out : exec_output) :
  git e [] "git rev-parse --git-dir" = Resolved out ->
  match git e ["git rev-parse --git-dir"] "git status --porcelain" with
  | Resolved report => all_space (stdout report) = false
  | Rejected _ => True
  end ->
  dirty_answer e <> Some "继续操作" ->
  exists tr,
    run autoMergeBranch e = (tr, inl tt)
    /\ git_commands tr = ["git rev-parse --git-dir"; "git status --porcelain"]
    /\ In (ShowWarningMessage dirty_message false ["查看更改"; "继续操作"; "取消"]) tr.
Proof.
  intros Hrepo Hdirty Hanswer.
  unfold run, autoMergeBranch, try_catch, autoMergeBranch_body.
  unfold bind at 1. unfold emit at 1.
  unfold bind at 1. unfold log at 1, emit at 1. cbn [fst snd].
  unfold bind at 1. rewrite isGitRepository_runs.
  cbn [app git_commands]. rewrite Hrepo. cbn [negb].
  unfold bind at 1. rewrite isWorkingDirectoryClean_all_space.
  cbn [app git_commands].
  assert (Hfalse : match git e ["git rev-parse --git-dir"] "git status --porcelain" with
                   | Resolved report => all_space (stdout report)
                   | Rejected _ => false
                   end = false).
  { destruct (git e ["git rev-parse --git-dir"] "git status --porcelain");
      [exact Hdirty | reflexivity]. }
  rewrite Hfalse. cbn [negb].
  unfold bind at 1. unfold bind at 1. unfold log at 1, emit at 1.
  unfold bind at 1. unfold emit at 1.
  unfold bind at 1. unfold ask at 1.
  destruct (dirty_answer e) as [action|].
  - destruct (action =? "查看更改")%string.
    + unfold bind, emit, ret. cbn [negb fst snd app]. eexists.
      split; [reflexivity|]. split; [reflexivity|]. cbn. tauto.
    + destruct (String.eqb_spec action "继续操作") as [->|]; [now elim Hanswer|].
      unfold bind, log, emit, ret. cbn [negb fst snd app]. eexists.
      split; [reflexivity|]. split; [reflexivity|]. cbn. tauto.
  - unfold bind, log, emit, ret. cbn [negb fst snd app]. eexists.
    split; [reflexivity|]. split; [reflexivity|]. cbn. tauto.
Qed.

(** The theorem for a tree with one modified file and a user who
    cancels. *)
Lemma uncommitted_changes_stop_witness :
  all_space (line " M src/extension.ts") = false
  /\ dirty_answer (hesitant (line " M src/extension.ts") (Some "取消")) <> Some "继续操作"
  /\ exists tr,
       run autoMergeBranch (hesitant (line " M src/extension.ts") (Some "取消"))
       = (tr, inl tt)
       /\ git_commands tr = ["git rev-parse --git-dir"; "git status --porcelain"].
Proof.
  assert (H : dirty_answer (hesitant (line " M src/extension.ts") (Some "取消"))
              <> Some "继续操作") by (cbn; discriminate).
  split; [reflexivity|]. split; [exact H|].
  destruct (uncommitted_changes_stop
              (hesitant (line " M src/extension.ts") (Some "取消"))
              {| stdout := EmptyString; stderr := EmptyString |}
              eq_refl eq_refl H) as (tr & Hrun & Hc & _).
  exists tr. split; assumption.
Defined.

(** *** A conflict in the middle of the flow *)

(** X6.  When the commands succeed and the status report after the merge
    into [dev] passes the conflict test, [executeMergeFlow] throws the
    conflict error for [dev] right after that report: nothing is pushed,
    [sit] is not touched, the original branch is not checked out again,
    and no notification is shown by the flow itself. *)
Theorem conflict_stops_the_flow (e : env) (branchToMerge originalBranch : string)
        (tr : list event) :
  all_succeed e ->
  (forall history out, git e history "git status --porcelain" = Resolved out ->
                       conflict_in (stdout out) = true) ->
  exists ext,
    executeMergeFlow branchToMerge originalBranch e tr
    = (tr ++ ext, inr (conflict_message branchToMerge "dev"))
    /\ git_commands ext
       = [ "git checkout " +++ branchToMerge;
           "git pull origin " +++ branchToMerge;
           "git checkout dev";
           "git pull origin dev";
           "git merge " +++ branchToMerge;
           "git status --porcelain" ]
    /\ forallb silent ext = true.
Proof.
  intros Hs Hc. unfold executeMergeFlow.
  unfold bind at 1. unfold emit at 1.
  unfold bind at 1. rewrite (switchAndPullBranch_ok e Hs).
  unfold bind at 1. unfold emit at 1.
  unfold bind at 1. rewrite (mergeToTargetBranch_conflict e _ _ _ Hs Hc).
  rewrite <- !app_assoc. cbn [app].
  eexists. split; [reflexivity|]. split; reflexivity.
Qed.

(** The theorem in a repository whose status report shows a file that
    both sides changed. *)
Lemma conflict_stops_the_flow_witness :
  all_succeed (world (line "UU src/extension.ts"))
  /\ conflict_in (line "UU src/extension.ts") = true
  /\ snd (executeMergeFlow "feature/login" "main" (world (line "UU src/extension.ts")) [])
     = inr (conflict_message "feature/login" "dev").
Proof.
  assert (Hc : forall history out,
             git (world (line "UU src/extension.ts")) history "git status --porcelain"
             = Resolved out ->
             conflict_in (stdout out) = true).
  { intros history out H. cbn in H. injection H as <-. reflexivity. }
  split; [apply world_all_succeed|]. split; [reflexivity|].
  destruct (conflict_stops_the_flow (world (line "UU src/extension.ts"))
              "feature/login" "main" [] (world_all_succeed _) Hc)
    as (ext & Hrun & _).
  now rewrite Hrun.
Defined.

(** *** The list of branches *)

(** X7.  [getAllBranches] never throws and runs [git branch -a] only.
    When the command fails, the list is empty and the failure goes to the
    log, as the line for a listing that failed with the error of the
    command.  In every case the list has no duplicate, no empty name and no
    name that mentions [HEAD]. *)
Theorem getAllBranches_total (e : env) (tr : list event) :
  exists ext branches,
    getAllBranches e tr = (tr ++ ext, inl branches)
    /\ git_commands ext = ["git branch -a"]
    /\ forallb silent ext = true
    /\ NoDup branches
    /\ (forall b, In b branches -> b <> EmptyString /\ JS.includes b "HEAD" = false)
    /\ (forall message,
          git e (git_commands tr) "git branch -a" = Rejected message ->
          branches = []
          /\ ext = [Exec "git branch -a"; LogError "获取分支列表失败" message]).
Proof.
  rewrite getAllBranches_runs.
  destruct (git e (git_commands tr) "git branch -a") as [out|message].
  - exists [Exec "git branch -a"], (parseBranches (stdout out)).
    split; [reflexivity|]. split; [reflexivity|]. split; [reflexivity|].
    split; [apply parseBranches_NoDup|]. split; [|discriminate].
    intros b Hb. apply parseBranches_In in Hb as (_ & Ht & Hh).
    split; [|exact Hh]. intros ->. discriminate Ht.
  - exists [Exec "git branch -a"; LogError "获取分支列表失败" message], [].
    split; [reflexivity|]. split; [reflexivity|]. split; [reflexivity|].
    split; [constructor|]. split; [intros b []|].
    intros message' H. injection H as <-. now split.
Qed.

(** X8.  The branch that [selectBranchToMerge] returns is one of the
    names that [getAllBranches] made of the output of [git branch -a]:
    the user cannot select a branch that is not listed, and nothing is
    selected when the listing fails. *)
Theorem selected_branch_is_listed (currentBranch : string) (e : env)
        (tr tr' : list event) (branch : string) :
  selectBranchToMerge currentBranch e tr = (tr', inl (Some branch)) ->
  exists out,
    git e (git_commands tr) "git branch -a" = Resolved out
    /\ In branch (parseBranches (stdout out)).
Proof.
  unfold selectBranchToMerge. unfold bind at 1. rewrite getAllBranches_runs.
  destruct (git e (git_commands tr) "git branch -a") as [out|message];
    unfold bind, emit, ask, ret; cbn [fst snd]; intros H;
    injection H as _ H.
  - exists out. split; [reflexivity|].
    destruct (quick_pick_answer e _) as [i|]; [|discriminate H].
    rewrite nth_error_map in H.
    destruct (nth_error (parseBranches (stdout out)) i) as [b|] eqn:Hi;
      [|discriminate H].
    cbn in H. injection H as <-. now apply nth_error_In in Hi.
  - destruct (quick_pick_answer e _) as [i|]; [|discriminate H].
    destruct i; discriminate H.
Qed.

(** The theorem for a user who picks the first entry of the list. *)
Lemma selected_branch_is_listed_witness :
  selectBranchToMerge "feature/login" (world EmptyString) []
  = ([Exec "git branch -a";
      ShowQuickPick
        [ {| label := "feature/login"; description := "(当前分支)"; picked := true |};
          {| label := "dev"; description := EmptyString; picked := false |};
          {| label := "sit"; description := EmptyString; picked := false |} ]],
     inl (Some "feature/login"))
  /\ exists out,
       git (world EmptyString) [] "git branch -a" = Resolved out
       /\ In "feature/login" (parseBranches (stdout out)).
Proof.
  split; [reflexivity|].
  exact (selected_branch_is_listed "feature/login" (world EmptyString) [] _
           "feature/login" eq_refl).
Defined.

(** *** The message of a failed merge *)

(** X9.  The message that [autoMergeBranch] shows for an error has two
    forms only: the text for a directory that is not a repository when
    the error mentions [not a git repository], and [合并失败: ] followed by
    the error otherwise.  The third text of the code, for an error that
    mentions [fatal: not a git repository], is never shown, since such an
    error already has the first form. *)
Theorem friendly_error_two_forms (message : string) :
  friendly_error message
  = (if JS.includes message "not a git repository"
     then "当前目录不是Git仓库，请在Git项目中使用此功能"
     else "合并失败: " +++ message)
  /\ friendly_error message <> "请确保在Git仓库的根目录下使用此功能".
Proof.
  assert (Hform : friendly_error message
                  = if JS.includes message "not a git repository"
                    then "当前目录不是Git仓库，请在Git项目中使用此功能"
                    else "合并失败: " +++ message).
  { unfold friendly_error.
    destruct (JS.includes message "not a git repository") eqn:Hn; [reflexivity|].
    destruct (JS.includes message "fatal: not a git repository") eqn:Hf;
      [|reflexivity].
    destruct (includes_split _ _ Hf) as (a & b & ->).
    change ("fatal: not a git repository" +++ b)
      with ("fatal: " +++ "not a git repository" +++ b) in Hn.
    rewrite <- append_assoc, includes_app in Hn. discriminate Hn. }
  split; [exact Hform|]. rewrite Hform.
  destruct (JS.includes message "not a git repository"); intros H.
  - vm_compute in H. discriminate H.
  - cbn in H. discriminate H.
Qed.

(** *** [showBranchInfo] *)

Lemma forEach_log (e : env) (f : string -> string) (l : list string)
      (tr : list event) :
  forEach (fun x => log (f x)) l e tr = (tr ++ map (fun x => Log (f x)) l, inl tt).
Proof.
  revert tr. induction l as [|x l IH]; intros tr; cbn [forEach map].
  - unfold ret. now rewrite app_nil_r.
  - unfold bind, log at 1, emit. rewrite IH. now rewrite <- app_assoc.
Qed.

(** X10.  [showBranchInfo] never throws, shows no notification and
    asks nothing; it runs the two read-only commands at most.  When the
    name of the current branch cannot be read it stops there, with the
    error in the log.  Otherwise it writes the name of the current branch
    and one line for each listed branch, the current one marked; a
    listing that fails gives no such line. *)
Theorem showBranchInfo_spec (e : env) (tr : list event) :
  exists ext,
    showBranchInfo e tr = (tr ++ ext, inl tt)
    /\ match git e (git_commands tr) "git rev-parse --abbrev-ref HEAD" with
       | Rejected message =>
           ext = [Exec "git rev-parse --abbrev-ref HEAD";
                  LogError "获取分支信息失败" message]
       | Resolved out =>
           exists listed branches,
             getAllBranches e (tr ++ [Exec "git rev-parse --abbrev-ref HEAD"])
             = ((tr ++ [Exec "git rev-parse --abbrev-ref HEAD"]) ++ listed,
                inl branches)
             /\ ext = [Exec "git rev-parse --abbrev-ref HEAD"] ++ listed
                      ++ [OutputShow;
                          Log "📋 分支信息:";
                          Log ("当前分支: " +++ JS.trim (stdout out));
                          Log "所有分支:"]
                      ++ map (fun branch =>
                                Log ("  - " +++ branch +++
                                     (if String.eqb branch (JS.trim (stdout out))
                                      then " (当前)" else EmptyString)))
                             branches
       end.
Proof.
  unfold showBranchInfo, try_catch. unfold bind at 1. rewrite getCurrentBranch_runs.
  destruct (git e (git_commands tr) "git rev-parse --abbrev-ref HEAD") as [out|message].
  2:{ unfold logError, emit. rewrite <- app_assoc. eexists.
      split; reflexivity. }
  assert (Hlist : exists listed branches,
            getAllBranches e (tr ++ [Exec "git rev-parse --abbrev-ref HEAD"])
            = ((tr ++ [Exec "git rev-parse --abbrev-ref HEAD"]) ++ listed,
               inl branches)).
  { rewrite getAllBranches_runs.
    destruct (git e _ "git branch -a"); eexists _, _; reflexivity. }
  destruct Hlist as (listed & branches & Hrun).
  unfold bind at 1. rewrite Hrun.
  unfold bind at 1. unfold emit at 1.
  unfold bind at 1. unfold log at 1, emit at 1.
  unfold bind at 1. unfold log at 1, emit at 1.
  unfold bind at 1. unfold log at 1, emit at 1.
  rewrite forEach_log.
  exists ([Exec "git rev-parse --abbrev-ref HEAD"] ++ listed
          ++ [OutputShow;
              Log "📋 分支信息:";
              Log ("当前分支: " +++ JS.trim (stdout out));
              Log "所有分支:"]
          ++ map (fun branch =>
                    Log ("  - " +++ branch +++
                         (if String.eqb branch (JS.trim (stdout out))
                          then " (当前)" else EmptyString)))
                 branches).
  split.
  - f_equal. rewrite <- !app_assoc. reflexivity.
  - exists listed, branches. split; reflexivity.
Qed.

End GitFacts.

(** ** Properties of the deploy orchestrator *)
Module DeployFacts.
Import Value DeployManager.
Local Open Scope deploy_scope.

Lemma notifications_app (tr1 tr2 : list event) :
  notifications (tr1 ++ tr2) = notifications tr1 ++ notifications tr2.
Proof.
  induction tr1 as [|ev tr1 IH]; simpl; [reflexivity|].
  destruct ev; simpl; now rewrite IH.
Qed.

Lemma requests_app (tr1 tr2 : list event) :
  requests (tr1 ++ tr2) = requests tr1 ++ requests tr2.
Proof.
  induction tr1 as [|ev tr1 IH]; simpl; [reflexivity|].
  destruct ev; simpl; now rewrite IH.
Qed.

(** [===] between primitives is equality. *)
Lemma strict_eq_eq (a b : value) : strict_eq a b = true -> a = b.
Proof.
  destruct a as [| |x|x|x|x|x], b as [| |y|y|y|y|y]; simpl; try discriminate;
    try reflexivity; intros H.
  - now apply Bool.eqb_prop in H as ->.
  - destruct x as [x| |], y as [y| |]; simpl in H; try discriminate;
      try reflexivity.
    now apply Z.eqb_eq in H as ->.
  - now apply String.eqb_eq in H as ->.
Qed.

(** The events of [getToken] are neither requests, nor notifications,
    nor timers. *)
Lemma prompt_requests (pre : list event) :
  forallb is_prompt pre = true -> requests pre = [].
Proof.
  induction pre as [|ev pre IH]; [reflexivity|]. cbn [forallb].
  intros H. apply andb_true_iff in H as [Hev H].
  destruct ev; try discriminate Hev; cbn; auto.
Qed.

Lemma prompt_notifications (pre : list event) :
  forallb is_prompt pre = true -> notifications pre = [].
Proof.
  induction pre as [|ev pre IH]; [reflexivity|]. cbn [forallb].
  intros H. apply andb_true_iff in H as [Hev H].
  destruct ev; try discriminate Hev; cbn; auto.
Qed.

Lemma prompt_timeouts (pre : list event) :
  forallb is_prompt pre = true -> timeouts pre = [].
Proof.
  induction pre as [|ev pre IH]; [reflexivity|]. cbn [forallb].
  intros H. apply andb_true_iff in H as [Hev H].
  destruct ev; try discriminate Hev; cbn; auto.
Qed.

(** *** [httpRequest] *)

(** [getToken] returns the token of the configuration or asks for one;
    it touches neither the list nor the timer and shows no notification. *)
Lemma getToken_spec (e : env) (st : state) (tr : list event) :
  exists st' pre token,
    getToken e (st, tr) = ((st', tr ++ pre), inl token)
    /\ deployList st' = deployList st
    /\ checkTimer st' = checkTimer st
    /\ forallb is_prompt pre = true.
Proof.
  unfold getToken, bind, get, trace, ask, emit, modify, ret. cbn [fst snd].
  assert (Hnone : ((st, tr ++ [ShowInputBox]), @inl (option string) string None)
                  = ((st, tr ++ [ShowInputBox]), inl None)
                  /\ deployList st = deployList st /\ checkTimer st = checkTimer st
                  /\ forallb is_prompt [ShowInputBox] = true)
    by (repeat split).
  destruct (authToken st) as [[|c t]|]; cbn [fst snd].
  2:{ exists st, [], (Some (String c t)). rewrite app_nil_r. repeat split. }
  all: destruct (input_box e (tr ++ [ShowInputBox])) as [[|c t]|]; cbn [fst snd];
    [ exists st, [ShowInputBox], None; exact Hnone
    | exists (set_authToken (Some (String c t)) st),
        [ShowInputBox; ConfigUpdate (String c t)], (Some (String c t));
      rewrite <- app_assoc; repeat split
    | exists st, [ShowInputBox], None; exact Hnone ].
Qed.

(** What a call of [httpRequest] comes to.  It never throws, and it
    leaves the list and the timer alone. *)
Ltac finish :=
  cbn [fst snd]; rewrite <- ?app_assoc; cbn [app]; repeat split; try assumption.

Lemma httpRequest_spec (url method : string) (body : value)
      (params : list (string * value)) (timeout : Z)
      (e : env) (st : state) (tr : list event) :
  exists st' ext resp,
    httpRequest url method body params timeout e (st, tr) = ((st', tr ++ ext), inl resp)
    /\ deployList st' = deployList st
    /\ checkTimer st' = checkTimer st
    /\ http_case e tr (request_of url method body params timeout) ext resp.
Proof.
  destruct (getToken_spec e st tr) as (st' & pre & token & Htok & Hl & Ht & Hq).
  unfold httpRequest, try_catch. unfold bind at 1. rewrite Htok.
  fold (request_of url method body params timeout).
  set (r := request_of url method body params timeout).
  destruct token as [token|].
  - unfold logError, bind, ask, trace, emit, throw, ret. cbn [fst snd].
    destruct (url_valid e (replaceApi url)); cbn [negb fst snd].
    + destruct (forallb (fun entry => converts (snd entry)) params);
        cbn [negb fst snd].
      2:{ exists st', (pre ++ [LogError "HTTP请求失败" conversion_error]),
            (failure conversion_error).
          finish. now apply http_not_sent. }
      destruct (fetch e (tr ++ pre) r) as [error|http_status [parsed|error]] eqn:Hf.
      * exists st', (pre ++ [Fetch r; LogError "HTTP请求失败" error]), (failure error).
        finish.
        apply http_refused; try assumption. left. now rewrite Hf.
      * destruct (http_status =? 200)%Z eqn:Hs.
        -- apply Z.eqb_eq in Hs. subst http_status.
           destruct parsed.
           2:{ exists st', (pre ++ [Fetch r; LogError "HTTP请求失败"
                                       "Cannot read properties of null (reading 'data')"]),
                 (failure "Cannot read properties of null (reading 'data')").
               finish.
               apply http_refused; try assumption. now right. }
           all: eexists st', (pre ++ [Fetch r]), (envelope _);
             finish;
             apply http_answered; try assumption; try discriminate; exact Hf.
        -- exists st', (pre ++ [Fetch r; LogError "HTTP请求失败"
                                  ("HTTP " +++ decimal_text http_status)]),
             (failure ("HTTP " +++ decimal_text http_status)).
           finish.
           apply http_refused; try assumption. left. rewrite Hf. exact Hs.
      * destruct (http_status =? 200)%Z eqn:Hs.
        -- exists st', (pre ++ [Fetch r; LogError "HTTP请求失败" error]), (failure error).
           finish.
           apply http_refused; try assumption. left. now rewrite Hf.
        -- exists st', (pre ++ [Fetch r; LogError "HTTP请求失败"
                                  ("HTTP " +++ decimal_text http_status)]),
             (failure ("HTTP " +++ decimal_text http_status)).
           finish.
           apply http_refused; try assumption. left. now rewrite Hf.
    + exists st', (pre ++ [LogError "HTTP请求失败" "Invalid URL"]), (failure "Invalid URL").
      finish.
      now apply http_not_sent.
  - unfold throw, logError, bind, emit, ret. cbn [fst snd].
    exists st', (pre ++ [LogError "HTTP请求失败" "未获取到token"]), (failure "未获取到token").
    finish.
    now apply http_not_sent.
Qed.

(** *** [fetchProgress] *)

(** The callback of the [map] throws when the entry is due for a
    notification whose text cannot be made; otherwise it shows the
    notification that is due and returns the entry, merged or as it is. *)
Lemma update_item_spec (data : value) (item : DeployInfo) (e : env)
      (s : state * list event) :
  update_item data item e s =
  if due data item && notice_fails data then (s, inr conversion_error)
  else ((fst s, snd s ++ poll_notice data item), inl (poll_item data item)).
Proof.
  unfold update_item, due, poll_notice, poll_item, matches, showDeployNotification,
    finished_notice.
  destruct s as [st tr]. cbn [fst snd].
  destruct (strict_eq (buildId item) (prop data "buildId")); cbn [andb].
  - destruct (checkDone (prop data "status") && negb (checkDone (status item)));
      cbn [andb].
    + destruct (notice_fails data); [reflexivity|].
      destruct (strict_eq (prop data "status") (status_value DONE));
        reflexivity.
    + unfold bind, ret. now rewrite app_nil_r.
  - unfold ret. now rewrite app_nil_r.
Qed.

(** The [map] throws at the first entry that is due, before anything is
    shown, when the text cannot be made. *)
Lemma mapM_update_item (data : value) (l : list DeployInfo) (e : env)
      (st : state) (tr : list event) :
  mapM (update_item data) l e (st, tr) =
  if existsb (due data) l && notice_fails data
  then ((st, tr), inr conversion_error)
  else ((st, tr ++ flat_map (poll_notice data) l), inl (map (poll_item data) l)).
Proof.
  revert tr. induction l as [|item l IH]; intros tr;
    cbn [mapM flat_map map existsb].
  - unfold ret. now rewrite app_nil_r.
  - unfold bind at 1. rewrite update_item_spec. cbn [fst snd].
    destruct (due data item) eqn:Hdue; cbn [orb andb].
    + destruct (notice_fails data) eqn:Hf; [reflexivity|].
      unfold bind at 1. rewrite IH, andb_false_r.
      unfold ret. now rewrite app_assoc.
    + assert (Hn : poll_notice data item = []).
      { unfold poll_notice. unfold due in Hdue. now rewrite Hdue. }
      rewrite Hn, app_nil_r. unfold bind at 1. rewrite IH.
      now destruct (existsb (due data) l && notice_fails data).
Qed.

(** [fetchProgress] never throws, and ends in one of the three ways of
    [poll_case]. *)
Lemma fetchProgress_spec (id : value) (e : env) (st : state) (tr : list event) :
  exists st' ext v,
    fetchProgress id e (st, tr) = ((st', tr ++ ext), inl v)
    /\ poll_case e st tr id st' ext v.
Proof.
  destruct (httpRequest_spec detail_url "POST" (Obj [("buildId", id)]) [] 0 e st tr)
    as (st1 & ext & resp & Hrun & Hl & Ht & Hcase).
  unfold fetchProgress, try_catch. unfold bind at 1. rewrite Hrun.
  destruct (success resp && truthy (data resp)) eqn:Hok.
  - unfold bind at 1. unfold get at 1. cbn [fst snd].
    unfold bind at 1. rewrite mapM_update_item.
    destruct Hcase as [pre error Hq|pre error Hq Hbad|pre parsed Hq Hf Hnn];
      try discriminate Hok.
    cbn [envelope success data andb] in Hok |- *.
    rewrite Hl.
    destruct (existsb (due (payload parsed)) (deployList st)
              && notice_fails (payload parsed)) eqn:Hthrow.
    + apply andb_true_iff in Hthrow as [Hdue Hfails].
      unfold logError, bind, emit, ret. cbn [fst snd].
      exists st1,
        (pre ++ [Fetch (poll_request id); LogError "获取部署进度失败" conversion_error]),
        Null.
      split.
      * rewrite <- !app_assoc. reflexivity.
      * now apply poll_threw with (parsed := parsed).
    + unfold bind, modify, ret. cbn [fst snd].
      exists (set_deployList (map (poll_item (payload parsed)) (deployList st)) st1),
        (pre ++ [Fetch (poll_request id)]
             ++ flat_map (poll_notice (payload parsed)) (deployList st)),
        (prop (payload parsed) "status").
      split.
      * rewrite <- !app_assoc. reflexivity.
      * now apply poll_answered.
  - unfold ret. exists st1, ext, Null. split; [reflexivity|].
    now apply poll_failed with (resp := resp).
Qed.

(** *** The completion notification *)

Lemma checkDone_has_prop (data : value) (key : string) :
  checkDone (prop data key) = true -> has_prop data key = true.
Proof.
  unfold prop, has_prop. destruct data; try discriminate.
  destruct (lookup props key); [reflexivity | discriminate].
Qed.

(** An entry is notified exactly when the poll completes it. *)
Lemma poll_notice_completed (data : value) (item : DeployInfo) :
  poll_notice data item =
  if completed (item, poll_item data item) then [finished_notice data] else [].
Proof.
  unfold poll_notice, completed, poll_item. cbn [fst snd].
  destruct (matches data item); cbn [andb].
  - unfold spread, spread_field. cbn [status].
    destruct (checkDone (prop data "status")) eqn:Hd.
    + rewrite (checkDone_has_prop _ _ Hd), Hd.
      now rewrite andb_true_r.
    + destruct (has_prop data "status").
      * rewrite Hd. now rewrite andb_false_r.
      * now destruct (checkDone (status item)).
  - now destruct (checkDone (status item)).
Qed.

Lemma notifications_finished_notice (data : value) :
  notifications [finished_notice data] = [finished_notice data].
Proof.
  unfold finished_notice.
  now destruct (strict_eq (prop data "status") (status_value DONE)).
Qed.

Lemma notifications_poll_notice (data : value) (l : list DeployInfo) :
  notifications (flat_map (poll_notice data) l) = flat_map (poll_notice data) l.
Proof.
  induction l as [|item l IH]; cbn [flat_map]; [reflexivity|].
  rewrite notifications_app, IH. f_equal.
  unfold poll_notice.
  destruct (matches data item
            && (checkDone (prop data "status") && negb (checkDone (status item))));
    [apply notifications_finished_notice | reflexivity].
Qed.

Lemma poll_notice_count (data : value) (l : list DeployInfo) :
  List.length (flat_map (poll_notice data) l) =
  List.length (filter completed (combine l (map (poll_item data) l))).
Proof.
  induction l as [|item l IH]; cbn [flat_map map combine filter]; [reflexivity|].
  rewrite length_app, IH, poll_notice_completed.
  now destruct (completed (item, poll_item data item)).
Qed.

Lemma poll_notice_In (data : value) (l : list DeployInfo) (n : event) :
  In n (flat_map (poll_notice data) l) ->
  n = finished_notice data /\ checkDone (prop data "status") = true.
Proof.
  rewrite in_flat_map. intros (item & _ & Hin). unfold poll_notice in Hin.
  destruct (matches data item); cbn [andb] in Hin; [|contradiction].
  destruct (checkDone (prop data "status")); cbn [andb] in Hin; [|contradiction].
  destruct (negb (checkDone (status item))); [|contradiction].
  destruct Hin as [<-|[]]. now split.
Qed.

Lemma http_case_notifications (e : env) (tr : list event) (r : request)
      (ext : list event) (resp : ApiResponse) :
  http_case e tr r ext resp -> notifications ext = [].
Proof.
  intros [pre error Hq|pre error Hq _|pre parsed Hq _ _];
    now rewrite notifications_app, (prompt_notifications _ Hq).
Qed.

Lemma completed_same (l : list DeployInfo) : filter completed (combine l l) = [].
Proof.
  induction l as [|item l IH]; cbn [combine filter]; [reflexivity|].
  unfold completed at 1. cbn [fst snd].
  now destruct (checkDone (status item)).
Qed.

(** With a token, a valid address and parameters that convert, a request
    that the network answers with an HTTP 200 and a body is sent at once
    and returns the envelope of that body. *)
Lemma httpRequest_answered (url method : string) (body : value)
      (params : list (string * value)) (timeout : Z)
      (e : env) (st : state) (tr : list event) (c : ascii) (t : string)
      (parsed : value) :
  authToken st = Some (String c t) ->
  url_valid e (replaceApi url) = true ->
  forallb (fun entry => converts (snd entry)) params = true ->
  fetch e tr (request_of url method body params timeout)
  = FetchResponse 200 (inl parsed) ->
  parsed <> Null ->
  httpRequest url method body params timeout e (st, tr)
  = ((st, tr ++ [Fetch (request_of url method body params timeout)]),
     inl (envelope parsed)).
Proof.
  intros Htok Hurl Hpar Hf Hnn.
  unfold httpRequest, try_catch. unfold bind at 1.
  assert (Hget : getToken e (st, tr) = ((st, tr), inl (Some (String c t)))).
  { unfold getToken, bind, get, ret. cbn [fst snd]. now rewrite Htok. }
  rewrite Hget. unfold bind, ask, trace, emit, throw, ret. cbn [fst snd].
  rewrite Hurl, Hpar. cbn [negb fst snd].
  fold (request_of url method body params timeout). rewrite Hf.
  cbn [Z.eqb Pos.eqb].
  destruct parsed; try reflexivity. now elim Hnn.
Qed.

(** A terminal status is a number: it converts. *)
Lemma checkDone_converts (v : value) : checkDone v = true -> converts v = true.
Proof.
  unfold checkDone. destruct (truthy v); [|discriminate].
  unfold terminal_statuses. cbn [map existsb status_value status_code].
  rewrite !orb_false_r. intros H.
  repeat (apply orb_true_iff in H as [H|H]);
    apply strict_eq_eq in H; rewrite H; reflexivity.
Qed.

(** The notifications of a poll are those of the entries that are due. *)
Lemma poll_notice_due (data : value) (l : list DeployInfo) :
  flat_map (poll_notice data) l
  = map (fun _ => finished_notice data) (filter (due data) l).
Proof.
  induction l as [|item l IH]; cbn [flat_map filter]; [reflexivity|].
  rewrite IH. unfold poll_notice. fold (due data item).
  now destruct (due data item).
Qed.

(** After the poll, no entry is due for the payload of that poll. *)
Lemma due_after_poll (data : value) (item : DeployInfo) :
  due data (poll_item data item) = false.
Proof.
  unfold due, poll_item, matches.
  destruct (strict_eq (buildId item) (prop data "buildId")) eqn:Hm.
  - destruct (checkDone (prop data "status")) eqn:Hd;
      [|now rewrite andb_false_r].
    unfold spread, spread_field. cbn [status buildId].
    rewrite (checkDone_has_prop _ _ Hd), Hd. now rewrite !andb_false_r.
  - now rewrite Hm.
Qed.

(** C5, as the code has it.  The manager has a token, the address of
    the service is valid, and the network answers the poll with an
    HTTP 200 and a payload whose name converts to text.  Then the poll
    merges the payload into the entries of its build id and shows, after
    its request, one completion notification for each entry that it
    completes, in the order of the list, and nothing else: an entry is
    completed when its build id is that of the payload, the status of the
    payload is terminal and the status of the entry was not.  The
    notification is informational when the status of the payload is
    [DONE] and a warning for the other terminal statuses.  An entry whose
    status is terminal already is not notified, and after the poll no
    entry is due for the same payload: the same answer, polled again,
    notifies nothing. *)
Theorem completion_notification_once (id : value) (e : env) (st : state)
        (tr : list event) (c : ascii) (t : string) (parsed : value) :
  authToken st = Some (String c t) ->
  url_valid e (replaceApi detail_url) = true ->
  fetch e tr (poll_request id) = FetchResponse 200 (inl parsed) ->
  truthy (payload parsed) = true ->
  converts (prop (payload parsed) "applicationName") = true ->
  let data := payload parsed in
  let st' := set_deployList (map (poll_item data) (deployList st)) st in
  fetchProgress id e (st, tr)
  = ((st',
      tr ++ Fetch (poll_request id)
         :: map (fun _ => finished_notice data) (filter (due data) (deployList st))),
     inl (prop data "status"))
  /\ (forall item,
        due data item = true <->
        strict_eq (buildId item) (prop data "buildId") = true
        /\ checkDone (prop data "status") = true
        /\ checkDone (status item) = false)
  /\ finished_notice data
     = (if strict_eq (prop data "status") (status_value DONE)
        then ShowInformationMessage
               (DeployFinished (prop data "applicationName") (prop data "status"))
        else ShowWarningMessage
               (DeployFinished (prop data "applicationName") (prop data "status")))
  /\ (forall item, checkDone (status item) = true -> due data item = false)
  /\ filter (due data) (deployList st') = [].
Proof.
  intros Htok Hurl Hf Hp Hname data st'. subst data st'.
  assert (Hnn : parsed <> Null) by (intros ->; discriminate Hp).
  split; [|split; [|split; [reflexivity|split]]].
  - pose proof (httpRequest_answered detail_url "POST" (Obj [("buildId", id)]) [] 0
                  e st tr c t parsed Htok Hurl eq_refl Hf Hnn) as Hrun.
    unfold fetchProgress, try_catch. unfold bind at 1. rewrite Hrun.
    cbn [envelope success DeployManager.data andb]. rewrite Hp.
    unfold bind at 1. unfold get at 1. cbn [fst snd].
    unfold bind at 1. rewrite mapM_update_item.
    assert (Hno : existsb (due (payload parsed)) (deployList st)
                  && notice_fails (payload parsed) = false).
    { destruct (existsb (due (payload parsed)) (deployList st)) eqn:He;
        [|reflexivity].
      apply existsb_exists in He as (item & _ & Hdue).
      unfold due in Hdue. apply andb_true_iff in Hdue as [_ Hdue].
      apply andb_true_iff in Hdue as [Hdone _].
      unfold notice_fails.
      now rewrite (checkDone_converts _ Hdone), Hname, andb_false_r. }
    rewrite Hno. unfold bind, modify, ret. cbn [fst snd].
    rewrite poll_notice_due, <- app_assoc. reflexivity.
  - intros item. unfold due, matches.
    rewrite !andb_true_iff, negb_true_iff. tauto.
  - intros item Hdone. unfold due. rewrite Hdone. cbn [negb].
    now rewrite !andb_false_r.
  - cbn [set_deployList deployList].
    induction (deployList st) as [|item l IH]; [reflexivity|].
    cbn [map filter]. now rewrite due_after_poll.
Qed.

(** The theorem at an entry of build 1 without a status and a service
    that reports the build as done: one informational notification. *)
Lemma completion_notification_once_witness :
  fetchProgress (Num (Int 1)) (network done_response) (tracking [pending_entry], [])
  = ((tracking [entry 1 "app" (status_value DONE)],
      [Fetch (poll_request (Num (Int 1)));
       ShowInformationMessage (DeployFinished (Str "app") (status_value DONE))]),
     inl (status_value DONE)).
Proof.
  exact (proj1 (completion_notification_once (Num (Int 1)) (network done_response)
                  (tracking [pending_entry]) [] "t" "oken"
                  (Obj [("buildId", Num (Int 1)); ("status", status_value DONE);
                        ("applicationName", Str "app")])
                  eq_refl eq_refl eq_refl eq_refl eq_refl)).
Defined.

(** C5, as the specification words it, fails: the notification fires once
    for each move of an entry to a terminal status, not once for an entry.
    The only entry has no status; three polls are answered with [DONE],
    [DOING] and [DONE]; the completion of the entry is notified twice. *)
Lemma completion_notified_twice :
  map status
      (deployList (fst (fst (fetchProgress (Num (Int 1)) flapping
                               (tracking [pending_entry], [])))))
  = [status_value DONE]
  /\ map status
         (deployList
            (fst (fst ((fetchProgress (Num (Int 1)) ;; fetchProgress (Num (Int 1)))
                         flapping (tracking [pending_entry], [])))))
     = [status_value DOING]
  /\ notifications
       (snd (fst ((fetchProgress (Num (Int 1)) ;; fetchProgress (Num (Int 1)) ;;
                   fetchProgress (Num (Int 1)))
                    flapping (tracking [pending_entry], []))))
     = [ShowInformationMessage (DeployFinished (Str "app") (status_value DONE));
        ShowInformationMessage (DeployFinished (Str "app") (status_value DONE))].
Proof. vm_compute. repeat split. Qed.

(** *** The frame of a poll *)

Lemma poll_item_buildId (data : value) (item : DeployInfo) :
  buildId (poll_item data item) = buildId item.
Proof.
  unfold poll_item. destruct (matches data item) eqn:Hm; [|reflexivity].
  unfold spread, spread_field. cbn [buildId].
  destruct (has_prop data "buildId"); [|reflexivity].
  symmetry. now apply strict_eq_eq.
Qed.




(** A poll for build 1 answered with the payload of build 2 updates the
    entry of build 2. *)
Example poll_updates_the_entry_of_the_payload :
  map status
      (deployList
         (fst (fst (fetchProgress (Num (Int 1))
                      (network (ok_response [("buildId", Num (Int 2));
                                             ("status", status_value DONE)]))
                      (tracking [entry 1 "a" Undefined; entry 2 "b" Undefined], [])))))
  = [Undefined; status_value DONE].
Proof. vm_compute. reflexivity. Qed.

(** *** The requests of the polling loop *)

Lemma requests_poll_notice (data : value) (l : list DeployInfo) :
  requests (flat_map (poll_notice data) l) = [].
Proof.
  induction l as [|item l IH]; cbn [flat_map]; [reflexivity|].
  rewrite requests_app, IH, app_nil_r. unfold poll_notice, finished_notice.
  destruct (matches data item
            && (checkDone (prop data "status") && negb (checkDone (status item))));
    [|reflexivity].
  now destruct (strict_eq (prop data "status") (status_value DONE)).
Qed.

Lemma http_case_requests (e : env) (tr : list event) (r : request)
      (ext : list event) (resp : ApiResponse) :
  http_case e tr r ext resp -> requests ext = [] \/ requests ext = [r].
Proof.
  intros [pre error Hq|pre error Hq _|pre parsed Hq _ _];
    rewrite requests_app, (prompt_requests _ Hq); cbn; auto.
Qed.

(** A poll sends at most one request, the one for its build id. *)
Lemma fetchProgress_requests (id : value) (e : env) (st : state) (tr : list event) :
  exists st' ext v,
    fetchProgress id e (st, tr) = ((st', tr ++ ext), inl v)
    /\ (requests ext = [] \/ requests ext = [poll_request id]).
Proof.
  destruct (fetchProgress_spec id e st tr) as (st' & ext & v & Hrun & Hcase).
  exists st', ext, v. split; [exact Hrun|].
  destruct Hcase as [st' ext resp Hl Ht Hhttp Hno
                    |st' pre parsed Hl Ht Hq Hf Hp Hfine
                    |st' pre parsed Hl Ht Hq Hf Hp Hdue Hfails].
  - now apply http_case_requests in Hhttp.
  - right. rewrite !requests_app, (prompt_requests _ Hq), requests_poll_notice.
    reflexivity.
  - right. now rewrite requests_app, (prompt_requests _ Hq).
Qed.

Lemma mapM_fetchProgress_requests (e : env) (l : list DeployInfo) (st : state)
      (tr : list event) :
  exists st' ext statusList,
    mapM (fun item => fetchProgress (buildId item)) l e (st, tr)
    = ((st', tr ++ ext), inl statusList)
    /\ forall r, In r (requests ext) ->
         exists item, In item l /\ r = poll_request (buildId item).
Proof.
  revert st tr. induction l as [|item l IH]; intros st tr; cbn [mapM].
  - exists st, [], []. unfold ret. rewrite app_nil_r. split; [reflexivity|].
    intros r [].
  - destruct (fetchProgress_requests (buildId item) e st tr)
      as (st1 & ext1 & v & Hrun & Hreq).
    destruct (IH st1 (tr ++ ext1)) as (st2 & ext2 & vs & Hrest & Hin).
    exists st2, (ext1 ++ ext2), (v :: vs).
    unfold bind at 1. rewrite Hrun. unfold bind at 1. rewrite Hrest.
    unfold ret. rewrite app_assoc. split; [reflexivity|].
    intros r Hr. rewrite requests_app in Hr. apply in_app_iff in Hr as [Hr|Hr].
    + exists item. split; [now left|].
      destruct Hreq as [Hreq|Hreq]; rewrite Hreq in Hr; [contradiction|].
      now destruct Hr as [<-|[]].
    + destruct (Hin r Hr) as (item' & Hitem' & ->).
      exists item'. split; [now right | reflexivity].
Qed.

(** A round of the loop sends requests only for entries of the list
    whose status is [PREPARE], [DOING] or absent. *)
Lemma loop_polls_only_deploying (e : env) (st : state) (tr : list event) :
  exists st' ext,
    checkProgressLoop e (st, tr) = ((st', tr ++ ext), inl tt)
    /\ forall r, In r (requests ext) ->
         exists item, In item (deployList st) /\ is_deploying item = true
                      /\ r = poll_request (buildId item).
Proof.
  unfold checkProgressLoop, try_catch.
  unfold bind at 1. unfold get at 1. cbn [fst snd].
  destruct (List.length (filter is_deploying (deployList st)) =? 0)%nat.
  - exists st, []. unfold ret. rewrite app_nil_r. split; [reflexivity|].
    intros r [].
  - destruct (mapM_fetchProgress_requests e (filter is_deploying (deployList st)) st tr)
      as (st' & ext & vs & Hrun & Hin).
    unfold bind at 1. rewrite Hrun.
    assert (Honly : forall r, In r (requests ext) ->
              exists item, In item (deployList st) /\ is_deploying item = true
                           /\ r = poll_request (buildId item)).
    { intros r Hr. destruct (Hin r Hr) as (item & Hitem & ->).
      apply filter_In in Hitem as [Hitem Hdep]. now exists item. }
    destruct (existsb (fun status => truthy status && negb (checkDone status)) vs).
    + unfold bind, emit, modify. cbn [fst snd].
      exists (set_checkTimer (Some true) st'), (ext ++ [SetTimeout 20000]).
      rewrite app_assoc. split; [reflexivity|].
      intros r Hr. rewrite requests_app in Hr. cbn in Hr. rewrite app_nil_r in Hr.
      now apply Honly.
    + unfold ret. exists st', ext. split; [reflexivity | exact Honly].
Qed.

(** *** Terminal statuses and polls *)

Lemma terminal_not_deploying (item : DeployInfo) :
  checkDone (status item) = true -> is_deploying item = false.
Proof.
  unfold checkDone, is_deploying.
  destruct (truthy (status item)); [|discriminate].
  cbn [negb]. rewrite orb_false_r. unfold terminal_statuses.
  cbn [map existsb status_value status_code].
  rewrite !orb_false_r. intros H.
  repeat (apply orb_true_iff in H as [H|H]);
    apply strict_eq_eq in H; rewrite H; reflexivity.
Qed.

(** C3, as the code has it.  Once the status of an entry is terminal,
    the entry is not among those that [checkProgressLoop] polls: every
    request of a round is for an entry whose status is not terminal.  A
    poll made all the same (a refresh, the poll after an abort, or a poll
    whose payload carries the build id of the entry) leaves the status of
    the entry as it was or replaces it with the status that the poll
    returns; so the entry stays terminal when that status is terminal. *)
Theorem terminal_status_after_poll (id : value) (e : env) (st : state)
        (tr : list event) (i : nat) (item : DeployInfo) :
  nth_error (deployList st) i = Some item ->
  checkDone (status item) = true ->
  is_deploying item = false
  /\ (exists st' ext,
        checkProgressLoop e (st, tr) = ((st', tr ++ ext), inl tt)
        /\ forall r, In r (requests ext) ->
             exists polled,
               In polled (deployList st)
               /\ checkDone (status polled) = false
               /\ r = poll_request (buildId polled))
  /\ exists st' ext v item',
       fetchProgress id e (st, tr) = ((st', tr ++ ext), inl v)
       /\ nth_error (deployList st') i = Some item'
       /\ (status item' = status item \/ status item' = v)
       /\ (checkDone v = true -> checkDone (status item') = true).
Proof.
  intros Hi Hdone. split; [now apply terminal_not_deploying|]. split.
  { destruct (loop_polls_only_deploying e st tr) as (st' & ext & Hrun & Honly).
    exists st', ext. split; [exact Hrun|].
    intros r Hr. destruct (Honly r Hr) as (polled & Hin & Hdep & ->).
    exists polled. repeat split; try assumption.
    destruct (checkDone (status polled)) eqn:Hc; [|reflexivity].
    apply terminal_not_deploying in Hc. congruence. }
  destruct (fetchProgress_spec id e st tr) as (st' & ext & v & Hrun & Hcase).
  destruct Hcase as [st' ext resp Hl Ht Hhttp Hno
                    |st' pre parsed Hl Ht Hq Hf Hp Hfine
                    |st' pre parsed Hl Ht Hq Hf Hp Hdue Hfails].
  - exists st', ext, Null, item. rewrite Hl. repeat split; auto.
  - eexists st', _, _, (poll_item (payload parsed) item).
    split; [exact Hrun|]. rewrite Hl, nth_error_map, Hi.
    split; [reflexivity|].
    assert (Hst : status (poll_item (payload parsed) item) = status item
                  \/ status (poll_item (payload parsed) item)
                     = prop (payload parsed) "status").
    { unfold poll_item. destruct (matches (payload parsed) item); [|now left].
      unfold spread, spread_field. cbn [status].
      destruct (has_prop (payload parsed) "status"); [now right | now left]. }
    split; [exact Hst|].
    intros Hv. destruct Hst as [->| ->]; assumption.
  - eexists st', _, Null, item. split; [exact Hrun|].
    rewrite Hl. repeat split; auto.
Qed.

(** The theorem at a finished entry and a network that reports the build
    as done. *)
Lemma terminal_status_after_poll_witness :
  nth_error (deployList (tracking [finished_entry])) 0 = Some finished_entry
  /\ checkDone (status finished_entry) = true
  /\ is_deploying finished_entry = false.
Proof.
  split; [reflexivity|]. split; [reflexivity|].
  apply (terminal_status_after_poll (Num (Int 1)) (network running_response)
           (tracking [finished_entry]) [] 0 finished_entry);
    reflexivity.
Defined.

(** C3, as the specification words it, fails: an entry of build 1 is
    [DONE]; the user refreshes it, the poll for build 1 is answered with
    the status [DOING], and the status of the entry is [DOING], which is
    not terminal. *)
Lemma terminal_status_reverted :
  checkDone (status finished_entry) = true
  /\ map status
         (deployList
            (fst (fst (fetchProgress (buildId finished_entry)
                         (network running_response)
                         (tracking [finished_entry], [])))))
     = [status_value DOING]
  /\ map status
         (deployList
            (fst (fst (showDeployActions finished_entry
                         (refreshing running_response)
                         (tracking [finished_entry], [])))))
     = [status_value DOING]
  /\ checkDone (status_value DOING) = false.
Proof. vm_compute. repeat split. Qed.

(** *** The polling loop *)

Lemma timeouts_app (tr1 tr2 : list event) :
  timeouts (tr1 ++ tr2) = timeouts tr1 ++ timeouts tr2.
Proof.
  induction tr1 as [|ev tr1 IH]; simpl; [reflexivity|].
  destruct ev; simpl; now rewrite IH.
Qed.

Lemma http_case_timeouts (e : env) (tr : list event) (r : request)
      (ext : list event) (resp : ApiResponse) :
  http_case e tr r ext resp -> timeouts ext = [].
Proof.
  intros [pre error Hq|pre error Hq _|pre parsed Hq _ _];
    now rewrite timeouts_app, (prompt_timeouts _ Hq).
Qed.

(** A poll that fails keeps the list and the timer, returns [null], shows
    nothing and sets no timer. *)
Lemma fetchProgress_down (id : value) (e : env) (st : state) (tr : list event) :
  network_down e ->
  exists st' ext,
    fetchProgress id e (st, tr) = ((st', tr ++ ext), inl Null)
    /\ deployList st' = deployList st
    /\ checkTimer st' = checkTimer st
    /\ notifications ext = []
    /\ timeouts ext = [].
Proof.
  intros Hdown.
  destruct (fetchProgress_spec id e st tr) as (st' & ext & v & Hrun & Hcase).
  destruct Hcase as [st' ext resp Hl Ht Hhttp Hno
                    |st' pre parsed Hl Ht Hq Hf Hp Hfine
                    |st' pre parsed Hl Ht Hq Hf Hp Hdue Hfails].
  - exists st', ext. repeat split; try assumption.
    + now apply http_case_notifications in Hhttp.
    + now apply http_case_timeouts in Hhttp.
  - specialize (Hdown (tr ++ pre) (poll_request id)). rewrite Hf in Hdown.
    discriminate Hdown.
  - specialize (Hdown (tr ++ pre) (poll_request id)). rewrite Hf in Hdown.
    discriminate Hdown.
Qed.

Lemma mapM_fetchProgress_down (e : env) (l : list DeployInfo) (st : state)
      (tr : list event) :
  network_down e ->
  exists st' ext statusList,
    mapM (fun item => fetchProgress (buildId item)) l e (st, tr)
    = ((st', tr ++ ext), inl statusList)
    /\ deployList st' = deployList st
    /\ checkTimer st' = checkTimer st
    /\ notifications ext = []
    /\ timeouts ext = []
    /\ Forall (fun v => v = Null) statusList.
Proof.
  intros Hdown. revert st tr.
  induction l as [|item l IH]; intros st tr; cbn [mapM].
  - exists st, [], []. unfold ret. rewrite app_nil_r. repeat split. constructor.
  - destruct (fetchProgress_down (buildId item) e st tr Hdown)
      as (st1 & ext1 & Hrun & Hl1 & Ht1 & Hn1 & Hs1).
    destruct (IH st1 (tr ++ ext1))
      as (st2 & ext2 & vs & Hrest & Hl2 & Ht2 & Hn2 & Hs2 & Hall).
    exists st2, (ext1 ++ ext2), (Null :: vs).
    unfold bind at 1. rewrite Hrun. unfold bind at 1. rewrite Hrest.
    unfold ret. rewrite app_assoc, notifications_app, timeouts_app, Hn1, Hn2, Hs1, Hs2.
    repeat split; try congruence. now constructor.
Qed.

(** When every poll of a round fails, [checkProgressLoop] does not set
    its timer again: the list and the timer are as before the round. *)
Lemma failed_round_not_rearmed (e : env) (st : state) (tr : list event) :
  network_down e ->
  exists st' ext,
    checkProgressLoop e (st, tr) = ((st', tr ++ ext), inl tt)
    /\ deployList st' = deployList st
    /\ checkTimer st' = checkTimer st
    /\ timeouts ext = [].
Proof.
  intros Hdown. unfold checkProgressLoop, try_catch.
  unfold bind at 1. unfold get at 1. cbn [fst snd].
  destruct (List.length (filter is_deploying (deployList st)) =? 0)%nat.
  - exists st, []. unfold ret. rewrite app_nil_r. repeat split.
  - destruct (mapM_fetchProgress_down e (filter is_deploying (deployList st)) st tr Hdown)
      as (st' & ext & vs & Hrun & Hl & Ht & Hn & Hs & Hall).
    unfold bind at 1. rewrite Hrun.
    assert (Hnone : existsb (fun status => truthy status && negb (checkDone status)) vs
                    = false).
    { clear - Hall. induction Hall as [|v vs -> _ IH]; [reflexivity|]. exact IH. }
    rewrite Hnone. unfold ret. exists st', ext. repeat split; assumption.
Qed.

(** C4 at an input where the code and the specification part: one entry
    is tracked, its status is absent, and the network rejects the poll.
    The entry keeps its status and is still one that the loop would poll,
    but the round ends without a timer, so that no further round runs:
    when the 20 seconds have passed nothing fires and nothing is polled. *)
Theorem failed_poll_ends_the_loop :
  let e := network (FetchRejected "network error") in
  let round := fst (checkProgressLoop e (tracking [pending_entry], [])) in
  deployList (fst round) = [pending_entry]
  /\ is_deploying pending_entry = true
  /\ requests (snd round) = [poll_request (Num (Int 1))]
  /\ checkTimer (fst round) = None
  /\ timeouts (snd round) = []
  /\ timer_fires e round = (round, inl tt).
Proof. vm_compute. repeat split. Qed.

(** *** [startPipeline] *)

(** [startPipeline] turns down an application that has an entry in the
    list, whatever the status of the entry: it shows the warning, sends
    no request and returns [false]. *)
Lemma startPipeline_tracked (applicationCode : string) (e : env) (st : state)
      (tr : list event) :
  tracked applicationCode (deployList st) = true ->
  startPipeline applicationCode e (st, tr) =
  ((st, tr ++ [ShowWarningMessage AlreadyDeploying]), inl false).
Proof.
  intros H. unfold startPipeline, try_catch.
  unfold bind at 1. unfold get at 1. cbn [fst snd].
  unfold tracked in H. rewrite H. reflexivity.
Qed.

(** C1 at an input where the code and the specification part: the only
    entry for the application is [DONE], a terminal status, and yet
    [startPipeline] turns the application down, with the warning and
    without a request, on every network. *)
Theorem finished_entry_blocks_start (e : env) (tr : list event) :
  checkDone (status finished_entry) = true
  /\ is_deploying finished_entry = false
  /\ startPipeline "app" e (tracking [finished_entry], tr) =
     ((tracking [finished_entry], tr ++ [ShowWarningMessage AlreadyDeploying]),
      inl false).
Proof.
  split; [reflexivity|]. split; [reflexivity|].
  now apply startPipeline_tracked.
Qed.

Lemma checkProgressLoop_returns (e : env) (s : state * list event) :
  exists s', checkProgressLoop e s = (s', inl tt).
Proof.
  unfold checkProgressLoop, try_catch.
  match goal with
  | |- context [match ?m e s with _ => _ end] => destruct (m e s) as [s' [[]|error]]
  end.
  - now exists s'.
  - unfold logError, emit. eexists. reflexivity.
Qed.

Lemma startProgressCheck_returns (e : env) (s : state * list event) :
  exists s', startProgressCheck e s = (s', inl tt).
Proof.
  unfold startProgressCheck. unfold bind at 1. unfold get at 1.
  unfold bind at 1.
  destruct (checkTimer (fst s)).
  - unfold bind, emit, modify. cbn [fst snd]. apply checkProgressLoop_returns.
  - unfold ret. apply checkProgressLoop_returns.
Qed.

(** Pushing an entry and starting the loop, as [startPipeline] does in
    its two successful branches. *)
Lemma push_and_start (e : env) (id : number) (applicationCode : string)
      (st : state) (tr : list event) :
  (push (new_deployInfo id applicationCode) ;; startProgressCheck ;; ret true)
    e (st, tr)
  = started e id applicationCode st tr.
Proof.
  unfold started. unfold bind at 1. unfold push, modify. cbn [fst snd].
  unfold bind.
  destruct (startProgressCheck_returns e
              (set_deployList (deployList st ++ [new_deployInfo id applicationCode]) st,
               tr)) as [s' ->].
  reflexivity.
Qed.

Lemma take_digits_all (s : string) : all_digits (take_digits s) = true.
Proof.
  induction s as [|c s IH]; [reflexivity|]. cbn [take_digits].
  destruct (JS.is_digit c) eqn:Hc; [|reflexivity].
  cbn [all_digits]. now rewrite Hc.
Qed.

(** What the pattern matches is a non-empty string of digits. *)
Lemma buildIdMatch_digits (text digits : string) :
  buildIdMatch text = Some digits ->
  exists c rest, digits = String c rest /\ all_digits digits = true.
Proof.
  induction text as [|c text IH]; [discriminate|]. cbn [buildIdMatch].
  destruct (after_label (String c text)) as [after|] eqn:Hafter; [|exact IH].
  intros H. injection H as <-.
  unfold after_label in Hafter.
  destruct text as [|c2 [|c3 rest]]; try discriminate.
  destruct (Ascii.eqb c "i" && Ascii.eqb c2 "d" && Ascii.eqb c3 ":");
    [|discriminate].
  destruct (JS.after_space rest) as [after'|]; [|discriminate].
  destruct (starts_with_digit after') eqn:Hd; [|discriminate].
  injection Hafter as <-.
  destruct after' as [|d after']; [discriminate|]. cbn in Hd.
  exists d, (take_digits after'). split.
  - cbn [take_digits]. now rewrite Hd.
  - apply take_digits_all.
Qed.

Lemma round_double_small (z : Z) : (z < 2 ^ 53)%Z -> round_double z = Int z.
Proof.
  intros H. unfold round_double.
  now destruct (Z.ltb_spec z (2 ^ 53)); [|lia].
Qed.

Lemma take_digits_app (digits rest : string) :
  all_digits digits = true -> starts_with_digit rest = false ->
  take_digits (digits +++ rest) = digits.
Proof.
  intros Hall Hrest. induction digits as [|c digits IH]; cbn [append take_digits].
  - destruct rest as [|d rest]; [reflexivity|].
    cbn [starts_with_digit] in Hrest. cbn [take_digits]. now rewrite Hrest.
  - cbn [all_digits] in Hall. apply andb_true_iff in Hall as [Hc Hall].
    now rewrite Hc, IH.
Qed.

Lemma buildIdMatch_here (s after : string) :
  after_label s = Some after -> buildIdMatch s = Some (take_digits after).
Proof.
  intros H. destruct s as [|c s]; [discriminate H|].
  cbn [buildIdMatch]. now rewrite H.
Qed.

Lemma buildIdMatch_skip (c : ascii) (s : string) :
  after_label (String c s) = None -> buildIdMatch (String c s) = buildIdMatch s.
Proof. intros H. cbn [buildIdMatch]. now rewrite H. Qed.

(** The pattern finds the digits that follow the first [id: ] of a
    message: here [before] has no [id:], and [rest] does not go on with a
    digit. *)
Lemma buildIdMatch_found (before digits rest : string) :
  JS.includes before "id:" = false ->
  starts_with_digit digits = true ->
  all_digits digits = true ->
  starts_with_digit rest = false ->
  buildIdMatch (before +++ "id: " +++ digits +++ rest) = Some digits.
Proof.
  intros Hbefore Hd Hall Hrest.
  induction before as [|c before IH].
  - rewrite (buildIdMatch_here _ (digits +++ rest)).
    + now rewrite take_digits_app.
    + assert (Hs : starts_with_digit (digits +++ rest) = true).
      { destruct digits; [discriminate Hd | exact Hd]. }
      cbn [append]. unfold after_label.
      change (JS.after_space (String " " (digits +++ rest)))
        with (Some (digits +++ rest)).
      cbn [Ascii.eqb Bool.eqb andb]. now rewrite Hs.
  - cbn [JS.includes] in Hbefore. apply orb_false_iff in Hbefore as [Hp Hbefore].
    specialize (IH Hbefore).
    change ((String c before) +++ "id: " +++ digits +++ rest)
      with (String c (before +++ "id: " +++ digits +++ rest)).
    rewrite buildIdMatch_skip; [exact IH|].
    unfold after_label.
    destruct before as [|c2 [|c3 before]]; cbn [append].
    + now destruct (Ascii.eqb c "i").
    + now destruct (Ascii.eqb c "i"), (Ascii.eqb c2 "d").
    + destruct (Ascii.eqb_spec c "i") as [->|]; [|reflexivity].
      destruct (Ascii.eqb_spec c2 "d") as [->|]; [|reflexivity].
      destruct (Ascii.eqb_spec c3 ":") as [->|]; [|reflexivity].
      change (String "i" (String "d" (String ":" before)))
        with ("id:" +++ before) in Hp.
      rewrite JSFacts.prefix_app in Hp. discriminate Hp.
Qed.

(** The white space of the pattern is that of the language: the match is
    the leftmost one, also behind a no-break space. *)
Lemma buildIdMatch_no_break_space :
  buildIdMatch ("uuid:" +++ NBSP +++ "12 busy, id: 4521") = Some "12"
  /\ buildIdMatch ("pipeline already exists, id:" +++ NBSP +++ "4521") = Some "4521".
Proof. split; reflexivity. Qed.

(** C7, as the code has it.  The application has no entry, the response
    to the start request has the code [409] and a message in which the
    pattern finds the digits of a number below 2^53, and the response did
    not succeed with a build id of its own.  Then [startPipeline] pushes
    an entry with that number as build id and the application code as
    name on the list, which the request left as it was; it starts the
    polling loop on the new list, where the new entry is one that the
    loop polls; and it returns [true]. *)
Theorem conflict_response_recovered (applicationCode : string) (e : env)
        (st : state) (tr : list event) (st1 : state) (tr1 : list event)
        (resp : ApiResponse) (text digits : string) :
  tracked applicationCode (deployList st) = false ->
  httpRequest startPipeline_url "POST" (start_body applicationCode) [] 0 e (st, tr)
    = ((st1, tr1), inl resp) ->
  success resp && truthy (opt_prop (data resp) "buildId") = false ->
  code resp = Str "409" ->
  message resp = Str text ->
  buildIdMatch text = Some digits ->
  (decimal digits < 2 ^ 53)%Z ->
  startPipeline applicationCode e (st, tr)
    = started e (Int (decimal digits)) applicationCode st1 tr1
  /\ deployList st1 = deployList st
  /\ is_deploying (new_deployInfo (Int (decimal digits)) applicationCode) = true.
Proof.
  intros Hnew Hrun Hno Hcode Hmsg Hmatch Hsmall.
  destruct (buildIdMatch_digits _ _ Hmatch) as (c & rest & Hd & Hall).
  split; [|split; [|reflexivity]].
  - unfold startPipeline, try_catch.
    unfold bind at 1. unfold get at 1. cbn [fst snd].
    unfold tracked in Hnew. rewrite Hnew.
    unfold bind at 1. rewrite Hrun.
    unfold bind at 1. unfold ask at 1.
    rewrite Hno, Hcode, Hmsg. cbn [strict_eq]. rewrite String.eqb_refl.
    assert (Ht : truthy (Str text) = true).
    { destruct text; [discriminate Hmatch | reflexivity]. }
    rewrite Ht. cbn [andb]. rewrite Hmatch.
    rewrite push_and_start.
    assert (Hn : ToNumber (to_number_other e) (Str digits) = Int (decimal digits)).
    { rewrite Hd in *. cbn [ToNumber]. rewrite Hall. now apply round_double_small. }
    rewrite Hn. reflexivity.
  - destruct (httpRequest_spec startPipeline_url "POST" (start_body applicationCode)
                [] 0 e st tr) as (st' & ext & resp' & Hrun' & Hl & _).
    rewrite Hrun in Hrun'. now injection Hrun' as -> _ _.
Qed.

(** The theorem at the conflict response of the scenario: the entry of
    build 4521 is pushed. *)
Lemma conflict_response_recovered_witness :
  tracked "app" (deployList (tracking [])) = false
  /\ buildIdMatch "pipeline already exists, id: 4521" = Some "4521"
  /\ (decimal "4521" < 2 ^ 53)%Z
  /\ startPipeline "app" (network conflict_response) (tracking [], [])
     = started (network conflict_response) (Int 4521) "app" (tracking [])
               [Fetch (request_of startPipeline_url "POST" (start_body "app") [] 0)].
Proof.
  split; [reflexivity|]. split; [reflexivity|]. split; [reflexivity|].
  apply (conflict_response_recovered "app" (network conflict_response)
           (tracking []) [] (tracking [])
           [Fetch (request_of startPipeline_url "POST" (start_body "app") [] 0)]
           (envelope (Obj [("code", Str "409");
                           ("message", Str "pipeline already exists, id: 4521")]))
           "pipeline already exists, id: 4521" "4521");
    reflexivity.
Defined.

(** C7, as the specification words it, fails twice.  A response with the
    code [409] and the message of build 4521 that also carries a build id
    in its data makes an entry for the build id of the data, 7; and a
    message that names build 9007199254740993 makes an entry for build
    9007199254740992, the nearest double. *)
Lemma conflict_response_not_always_recovered :
  buildIdMatch "pipeline already exists, id: 4521" = Some "4521"
  /\ map buildId
         (deployList
            (fst (fst (startPipeline "app" (network conflict_with_data)
                         (tracking [], [])))))
     = [Num (Int 7)]
  /\ map buildId
         (deployList
            (fst (fst (startPipeline "app" (network conflict_huge)
                         (tracking [], [])))))
     = [Num (Int 9007199254740992)].
Proof. vm_compute. repeat split. Qed.

(** The message of a failure envelope, or the text that stands for an
    empty one, is a string: it converts. *)
Lemma failure_detail_converts (error fallback : string) :
  converts (or_else (Str error) (Str fallback)) = true.
Proof. unfold or_else. now destruct (truthy (Str error)). Qed.

(** When no request is answered by an HTTP 200 with a body,
    [startPipeline] tracks nothing and returns [false]. *)
Lemma startPipeline_down (applicationCode : string) (e : env) (st : state)
      (tr : list event) :
  network_down e ->
  exists st' ext,
    startPipeline applicationCode e (st, tr) = ((st', tr ++ ext), inl false)
    /\ deployList st' = deployList st.
Proof.
  intros Hdown.
  destruct (tracked applicationCode (deployList st)) eqn:Htracked.
  - exists st, [ShowWarningMessage AlreadyDeploying].
    split; [now apply startPipeline_tracked | reflexivity].
  - destruct (httpRequest_spec startPipeline_url "POST" (start_body applicationCode)
                [] 0 e st tr) as (st' & ext & resp & Hrun & Hl & _ & Hcase).
    unfold startPipeline, try_catch.
    unfold bind at 1. unfold get at 1. cbn [fst snd].
    unfold tracked in Htracked. rewrite Htracked.
    unfold bind at 1. rewrite Hrun.
    unfold bind at 1. unfold ask at 1.
    destruct Hcase as [pre error Hq|pre error Hq Hbad|pre parsed Hq Hf Hnn].
    + cbn [failure success code message andb strict_eq].
      unfold startPipeline_failed. cbn [failure message].
      rewrite failure_detail_converts. unfold bind, emit, ret. cbn [fst snd].
      eexists st', _. rewrite <- app_assoc. split; [reflexivity | exact Hl].
    + cbn [failure success code message andb strict_eq].
      unfold startPipeline_failed. cbn [failure message].
      rewrite failure_detail_converts. unfold bind, emit, ret. cbn [fst snd].
      eexists st', _. rewrite <- app_assoc. split; [reflexivity | exact Hl].
    + specialize (Hdown (tr ++ pre)
                        (request_of startPipeline_url "POST"
                                    (start_body applicationCode) [] 0)).
      rewrite Hf in Hdown. discriminate Hdown.
Qed.

(** C9.  [httpRequest] always returns an envelope.  An envelope with
    [success = false] has no code; this is the envelope returned whenever
    the request was not answered by an HTTP 200 with a body (another
    status, a rejection by the network, the abort of the time-out).  An
    envelope with [success = true] is made of the body of an HTTP 200
    response and has the code of that body.  So an envelope has the code
    [409], which is the test of the recovery branch of [startPipeline],
    only when an HTTP 200 response had a body with the code [409]; and
    when no request is answered by an HTTP 200 with a body,
    [startPipeline] returns [false] and tracks no build. *)
Theorem failure_envelope_has_no_code (e : env) (st : state) (tr : list event) :
  (forall url method body params timeout,
     exists st' ext resp,
       httpRequest url method body params timeout e (st, tr)
         = ((st', tr ++ ext), inl resp)
       /\ (success resp = false -> code resp = Undefined)
       /\ ((forall pre,
              is_ok (fetch e (tr ++ pre) (request_of url method body params timeout))
              = false) ->
           success resp = false /\ code resp = Undefined)
       /\ (success resp = true ->
           exists pre parsed,
             ext = pre ++ [Fetch (request_of url method body params timeout)]
             /\ fetch e (tr ++ pre) (request_of url method body params timeout)
                = FetchResponse 200 (inl parsed)
             /\ code resp = prop parsed "code")
       /\ (strict_eq (code resp) (Str "409") = true ->
           success resp = true
           /\ exists pre parsed,
                fetch e (tr ++ pre) (request_of url method body params timeout)
                = FetchResponse 200 (inl parsed)
                /\ prop parsed "code" = Str "409"))
  /\ (forall applicationCode,
        network_down e ->
        exists st' ext,
          startPipeline applicationCode e (st, tr) = ((st', tr ++ ext), inl false)
          /\ deployList st' = deployList st).
Proof.
  split; [|intros applicationCode; apply startPipeline_down].
  intros url method body params timeout.
  destruct (httpRequest_spec url method body params timeout e st tr)
    as (st' & ext & resp & Hrun & _ & _ & Hcase).
  exists st', ext, resp. split; [exact Hrun|].
  destruct Hcase as [pre error Hq|pre error Hq Hbad|pre parsed Hq Hf Hnn];
    cbn [failure envelope success code].
  - repeat split; try reflexivity; try discriminate.
  - repeat split; try reflexivity; try discriminate.
  - split; [discriminate|]. split; [|split].
    + intros Hnever. specialize (Hnever pre). rewrite Hf in Hnever.
      discriminate Hnever.
    + intros _. exists pre, parsed. repeat split. exact Hf.
    + intros H409. split; [reflexivity|]. exists pre, parsed.
      split; [exact Hf | now apply strict_eq_eq].
Qed.

(** *** Addresses and tokens *)

Lemma not_prefixed_http (prefix rest : string) :
  JS.startsWith (String "h" rest) (String "/" prefix) = false.
Proof.
  unfold JS.startsWith. cbn [String.prefix].
  destruct (ascii_dec "/" "h") as [H|_]; [discriminate H | reflexivity].
Qed.

(** X11.  [replaceApi] puts the address of a server in front of a path
    that starts with [/api-dev] or [/local-faw] and leaves every other
    string as it is; the path itself is kept.  Applying it twice is the
    same as applying it once. *)
Theorem replaceApi_spec (api : string) :
  (exists base,
     replaceApi api = base +++ api
     /\ (base = EmptyString /\ JS.startsWith api "/api-dev" = false
                            /\ JS.startsWith api "/local-faw" = false
         \/ base = "http://10.52.70.10:410" /\ JS.startsWith api "/api-dev" = true
         \/ base = "http://10.52.70.10:510" /\ JS.startsWith api "/local-faw" = true))
  /\ replaceApi (replaceApi api) = replaceApi api.
Proof.
  unfold replaceApi at 1 3.
  destruct (JS.startsWith api "/api-dev") eqn:H1.
  - split.
    + exists "http://10.52.70.10:410". split; [reflexivity|]. right. left. now split.
    + unfold replaceApi. rewrite H1. cbn [append].
      now rewrite !not_prefixed_http.
  - destruct (JS.startsWith api "/local-faw") eqn:H2.
    + split.
      * exists "http://10.52.70.10:510". split; [reflexivity|]. right. right.
        now split.
      * unfold replaceApi. rewrite H1, H2. cbn [append].
        now rewrite !not_prefixed_http.
    + split.
      * exists EmptyString. split; [reflexivity|]. left. now repeat split.
      * unfold replaceApi. now rewrite H1, H2.
Qed.

(** X12.  A token that [getToken] returns is non-empty and is the token
    of the configuration from then on: the next call returns it without a
    prompt, from whatever trace.  When [getToken] returns nothing, the
    user was asked and the configuration is as before. *)
Theorem token_is_remembered (e : env) (st st' : state) (tr tr' : list event)
        (result : option string) :
  getToken e (st, tr) = ((st', tr'), inl result) ->
  match result with
  | Some token =>
      token <> EmptyString
      /\ authToken st' = Some token
      /\ forall later, getToken e (st', later) = ((st', later), inl (Some token))
  | None => st' = st /\ tr' = tr ++ [ShowInputBox]
  end.
Proof.
  assert (Hlater : forall c t s,
            authToken s = Some (String c t) ->
            forall later,
              getToken e (s, later) = ((s, later), inl (Some (String c t)))).
  { intros c t s Hs later. unfold getToken, bind, get, ret. cbn [fst snd].
    now rewrite Hs. }
  unfold getToken, bind, get, trace, ask, emit, modify, ret. cbn [fst snd].
  destruct (authToken st) as [[|c t]|] eqn:Hst; cbn [fst snd].
  2:{ intros H. injection H as <- <- <-. split; [discriminate|].
      split; [exact Hst|]. now apply Hlater. }
  all: destruct (input_box e (tr ++ [ShowInputBox])) as [[|c t]|];
    cbn [fst snd]; intros H; injection H as <- <- <-;
    [ split; reflexivity
    | split; [discriminate|]; split; [reflexivity|]; now apply Hlater
    | split; reflexivity ].
Qed.

(** The theorem for a user who types a token when none is configured. *)
Lemma token_is_remembered_witness :
  getToken (typing (Some "secret") (FetchRejected "offline")) (anonymous [], [])
  = ((set_authToken (Some "secret") (anonymous []),
      [ShowInputBox; ConfigUpdate "secret"]), inl (Some "secret"))
  /\ forall later,
       getToken (typing (Some "secret") (FetchRejected "offline"))
                (set_authToken (Some "secret") (anonymous []), later)
       = ((set_authToken (Some "secret") (anonymous []), later), inl (Some "secret")).
Proof.
  split; [reflexivity|].
  apply (token_is_remembered (typing (Some "secret") (FetchRejected "offline"))
           (anonymous []) _ [] _ (Some "secret") eq_refl).
Defined.

(** X13.  [httpRequest] sends at most one request, the one it builds
    from its arguments.  It sends none, and returns a failure envelope,
    when no token is to be had or when the address does not parse. *)
Theorem httpRequest_requests (url method : string) (body : value)
        (params : list (string * value)) (timeout : Z)
        (e : env) (st : state) (tr : list event) :
  exists st' ext resp,
    httpRequest url method body params timeout e (st, tr) = ((st', tr ++ ext), inl resp)
    /\ (requests ext = []
        \/ requests ext = [request_of url method body params timeout])
    /\ (snd (getToken e (st, tr)) = inl None ->
        requests ext = [] /\ resp = failure "未获取到token")
    /\ (url_valid e (replaceApi url) = false ->
        requests ext = [] /\ success resp = false).
Proof.
  destruct (httpRequest_spec url method body params timeout e st tr)
    as (st' & ext & resp & Hrun & _ & _ & Hcase).
  exists st', ext, resp. split; [exact Hrun|].
  split; [now apply http_case_requests in Hcase|].
  destruct (getToken_spec e st tr) as (st1 & pre & token & Htok & _ & _ & Hq).
  revert Hrun. unfold httpRequest, try_catch. unfold bind at 1. rewrite Htok.
  cbn [snd]. destruct token as [token|].
  - split; [discriminate|]. revert Hrun.
    unfold logError, bind, ask, trace, emit, throw, ret. cbn [fst snd].
    intros Hrun Hbad. rewrite Hbad in Hrun. cbn [negb fst snd] in Hrun.
    injection Hrun as _ Hext <-. rewrite <- app_assoc in Hext.
    apply app_inv_head in Hext. subst ext.
    rewrite requests_app, (prompt_requests _ Hq). now split.
  - unfold throw, logError, bind, emit, ret. cbn [fst snd]. intros Hrun.
    injection Hrun as _ Hext <-. rewrite <- app_assoc in Hext.
    apply app_inv_head in Hext. subst ext.
    rewrite requests_app, (prompt_requests _ Hq). repeat split.
Qed.

(** *** What a round of polling keeps *)

Lemma timeouts_poll_notice (data : value) (l : list DeployInfo) :
  timeouts (flat_map (poll_notice data) l) = [].
Proof.
  induction l as [|item l IH]; cbn [flat_map]; [reflexivity|].
  rewrite timeouts_app, IH, app_nil_r. unfold poll_notice, finished_notice.
  destruct (matches data item
            && (checkDone (prop data "status") && negb (checkDone (status item))));
    [|reflexivity].
  now destruct (strict_eq (prop data "status") (status_value DONE)).
Qed.

Lemma map_buildId_poll_item (data : value) (l : list DeployInfo) :
  map buildId (map (poll_item data) l) = map buildId l.
Proof.
  rewrite map_map. apply map_ext. intros item. apply poll_item_buildId.
Qed.

(** A poll keeps the build ids and the timer, and sets no timer. *)
Lemma fetchProgress_keeps (id : value) (e : env) (st : state) (tr : list event) :
  exists st' ext v,
    fetchProgress id e (st, tr) = ((st', tr ++ ext), inl v)
    /\ map buildId (deployList st') = map buildId (deployList st)
    /\ checkTimer st' = checkTimer st
    /\ timeouts ext = [].
Proof.
  destruct (fetchProgress_spec id e st tr) as (st' & ext & v & Hrun & Hcase).
  exists st', ext, v. split; [exact Hrun|].
  destruct Hcase as [st' ext resp Hl Ht Hhttp Hno
                    |st' pre parsed Hl Ht Hq Hf Hp Hfine
                    |st' pre parsed Hl Ht Hq Hf Hp Hdue Hfails].
  - rewrite Hl. repeat split; try assumption.
    now apply http_case_timeouts in Hhttp.
  - rewrite Hl, map_buildId_poll_item. repeat split; try assumption.
    rewrite !timeouts_app, (prompt_timeouts _ Hq), timeouts_poll_notice.
    reflexivity.
  - rewrite Hl. repeat split; try assumption.
    now rewrite timeouts_app, (prompt_timeouts _ Hq).
Qed.

Lemma mapM_fetchProgress_keeps (e : env) (l : list DeployInfo) (st : state)
      (tr : list event) :
  exists st' ext statusList,
    mapM (fun item => fetchProgress (buildId item)) l e (st, tr)
    = ((st', tr ++ ext), inl statusList)
    /\ map buildId (deployList st') = map buildId (deployList st)
    /\ checkTimer st' = checkTimer st
    /\ timeouts ext = [].
Proof.
  revert st tr. induction l as [|item l IH]; intros st tr; cbn [mapM].
  - exists st, [], []. unfold ret. rewrite app_nil_r. repeat split.
  - destruct (fetchProgress_keeps (buildId item) e st tr)
      as (st1 & ext1 & v & Hrun & Hl1 & Ht1 & Hs1).
    destruct (IH st1 (tr ++ ext1)) as (st2 & ext2 & vs & Hrest & Hl2 & Ht2 & Hs2).
    exists st2, (ext1 ++ ext2), (v :: vs).
    unfold bind at 1. rewrite Hrun. unfold bind at 1. rewrite Hrest.
    unfold ret. rewrite app_assoc, timeouts_app, Hs1, Hs2.
    repeat split; congruence.
Qed.

Lemma checkProgressLoop_keeps (e : env) (st : state) (tr : list event) :
  exists st' ext,
    checkProgressLoop e (st, tr) = ((st', tr ++ ext), inl tt)
    /\ map buildId (deployList st') = map buildId (deployList st)
    /\ (timeouts ext = [] /\ checkTimer st' = checkTimer st
        \/ timeouts ext = [20000%Z] /\ checkTimer st' = Some true).
Proof.
  unfold checkProgressLoop, try_catch.
  unfold bind at 1. unfold get at 1. cbn [fst snd].
  destruct (List.length (filter is_deploying (deployList st)) =? 0)%nat.
  - exists st, []. unfold ret. rewrite app_nil_r. repeat split. now left.
  - destruct (mapM_fetchProgress_keeps e (filter is_deploying (deployList st)) st tr)
      as (st' & ext & vs & Hrun & Hl & Ht & Hs).
    unfold bind at 1. rewrite Hrun.
    destruct (existsb (fun status => truthy status && negb (checkDone status)) vs).
    + unfold bind, emit, modify. cbn [fst snd].
      exists (set_checkTimer (Some true) st'), (ext ++ [SetTimeout 20000]).
      rewrite app_assoc, timeouts_app, Hs. repeat split; [exact Hl|]. now right.
    + unfold ret. exists st', ext. repeat split; [exact Hl|]. now left.
Qed.

(** X14.  A round of [checkProgressLoop] never throws and never adds,
    removes or reorders an entry, nor changes a build id.  It sets its
    timer at most once, to 20000 milliseconds; when it does not, the timer
    is as it was.  A round with no entry whose status is [PREPARE],
    [DOING] or absent does nothing at all. *)
Theorem polling_round_invariants (e : env) (st : state) (tr : list event) :
  exists st' ext,
    checkProgressLoop e (st, tr) = ((st', tr ++ ext), inl tt)
    /\ map buildId (deployList st') = map buildId (deployList st)
    /\ (timeouts ext = [] /\ checkTimer st' = checkTimer st
        \/ timeouts ext = [20000%Z] /\ checkTimer st' = Some true)
    /\ (forallb (fun item => negb (is_deploying item)) (deployList st) = true ->
        st' = st /\ ext = []).
Proof.
  destruct (checkProgressLoop_keeps e st tr) as (st' & ext & Hrun & Hl & Ht).
  exists st', ext. split; [exact Hrun|]. split; [exact Hl|]. split; [exact Ht|].
  intros Hidle.
  assert (Hnone : filter is_deploying (deployList st) = []).
  { clear - Hidle. induction (deployList st) as [|item l IH]; [reflexivity|].
    cbn [forallb] in Hidle. apply andb_true_iff in Hidle as [Hi Hidle].
    cbn [filter]. apply negb_true_iff in Hi. rewrite Hi. now apply IH. }
  revert Hrun. unfold checkProgressLoop, try_catch.
  unfold bind at 1. unfold get at 1. cbn [fst snd]. rewrite Hnone.
  cbn [List.length Nat.eqb]. unfold ret. intros Hrun.
  injection Hrun as Hst Htr. split; [now symmetry|].
  rewrite <- (app_nil_r tr) in Htr at 1. apply app_inv_head in Htr.
  now symmetry.
Qed.

(** *** What [startPipeline] does to the list *)

Lemma startProgressCheck_keeps (e : env) (st : state) (tr : list event) :
  exists st' ext,
    startProgressCheck e (st, tr) = ((st', tr ++ ext), inl tt)
    /\ map buildId (deployList st') = map buildId (deployList st).
Proof.
  unfold startProgressCheck. unfold bind at 1. unfold get at 1. cbn [fst snd].
  unfold bind at 1. destruct (checkTimer st).
  - unfold bind, emit, modify. cbn [fst snd].
    destruct (checkProgressLoop_keeps e (set_checkTimer (Some false) st)
                (tr ++ [ClearTimeout])) as (st' & ext & Hrun & Hl & _).
    rewrite Hrun. exists st', ([ClearTimeout] ++ ext).
    now rewrite app_assoc.
  - unfold ret.
    destruct (checkProgressLoop_keeps e st tr) as (st' & ext & Hrun & Hl & _).
    rewrite Hrun. now exists st', ext.
Qed.

Lemma started_keeps (e : env) (id : number) (applicationCode : string)
      (st : state) (tr : list event) :
  exists st' ext,
    started e id applicationCode st tr = ((st', tr ++ ext), inl true)
    /\ map buildId (deployList st') = map buildId (deployList st) ++ [Num id].
Proof.
  unfold started.
  destruct (startProgressCheck_keeps e
              (set_deployList (deployList st ++ [new_deployInfo id applicationCode]) st)
              tr) as (st' & ext & Hrun & Hl).
  rewrite Hrun. exists st', ext. split; [reflexivity|].
  rewrite Hl. cbn [set_deployList deployList]. now rewrite map_app.
Qed.

(** X15.  [startPipeline] never throws.  When it returns [false] the
    list and the timer are as before.  When it returns [true] the
    application had no entry, and the list has one entry more, at its end:
    the build ids are those of before followed by the new one. *)
Theorem startPipeline_outcome (applicationCode : string) (e : env) (st : state)
        (tr : list event) :
  exists st' ext started_ok,
    startPipeline applicationCode e (st, tr) = ((st', tr ++ ext), inl started_ok)
    /\ (started_ok = false ->
        deployList st' = deployList st /\ checkTimer st' = checkTimer st)
    /\ (started_ok = true ->
        tracked applicationCode (deployList st) = false
        /\ exists id,
             map buildId (deployList st') = map buildId (deployList st) ++ [Num id]).
Proof.
  destruct (tracked applicationCode (deployList st)) eqn:Htracked.
  { exists st, [ShowWarningMessage AlreadyDeploying], false.
    rewrite (startPipeline_tracked _ _ _ _ Htracked).
    split; [reflexivity|]. split; [now split | discriminate]. }
  destruct (httpRequest_spec startPipeline_url "POST" (start_body applicationCode)
              [] 0 e st tr) as (st1 & ext1 & resp & Hrun & Hl & Ht & _).
  assert (Hstarted : forall id,
            exists st' ext started_ok,
              started e id applicationCode st1 (tr ++ ext1)
              = ((st', tr ++ ext), inl started_ok)
              /\ (started_ok = false ->
                  deployList st' = deployList st /\ checkTimer st' = checkTimer st)
              /\ (started_ok = true ->
                  false = false
                  /\ exists id',
                       map buildId (deployList st')
                       = map buildId (deployList st) ++ [Num id'])).
  { intros id.
    destruct (started_keeps e id applicationCode st1 (tr ++ ext1))
      as (st' & ext & Hs & Hids).
    exists st', (ext1 ++ ext), true. rewrite Hs, app_assoc.
    split; [reflexivity|]. split; [discriminate|]. intros _.
    split; [reflexivity|]. exists id. now rewrite Hids, Hl. }
  assert (Hfailed : forall ext,
            exists st' ext' started_ok,
              ((st1, (tr ++ ext1) ++ ext), @inl bool string false)
              = ((st', tr ++ ext'), inl started_ok)
              /\ (started_ok = false ->
                  deployList st' = deployList st /\ checkTimer st' = checkTimer st)
              /\ (started_ok = true ->
                  false = false
                  /\ exists id',
                       map buildId (deployList st')
                       = map buildId (deployList st) ++ [Num id'])).
  { intros ext. exists st1, (ext1 ++ ext), false. rewrite app_assoc.
    split; [reflexivity|]. split; [now split | discriminate]. }
  unfold startPipeline, try_catch.
  unfold bind at 1. unfold get at 1. cbn [fst snd].
  unfold tracked in Htracked. rewrite Htracked.
  unfold bind at 1. rewrite Hrun.
  unfold bind at 1. unfold ask at 1.
  assert (Hshown : (exists st' ext' started_ok,
            startPipeline_failed resp e (st1, tr ++ ext1)
            = ((st', tr ++ ext'), inl started_ok)
            /\ (started_ok = false ->
                deployList st' = deployList st /\ checkTimer st' = checkTimer st)
            /\ (started_ok = true ->
                false = false
                /\ exists id',
                     map buildId (deployList st')
                     = map buildId (deployList st) ++ [Num id']))
          \/ startPipeline_failed resp e (st1, tr ++ ext1)
             = ((st1, tr ++ ext1), inr conversion_error)).
  { unfold startPipeline_failed.
    destruct (converts (or_else (message resp) (Str "未知错误"))); [left | now right].
    unfold bind, emit, ret. cbn [fst snd]. apply Hfailed. }
  destruct (success resp && truthy (opt_prop (data resp) "buildId")).
  { destruct (converts (opt_prop (data resp) "buildId")).
    - rewrite push_and_start. apply Hstarted.
    - unfold throw, logError, bind, emit, ret; cbn [fst snd];
        rewrite <- app_assoc; apply Hfailed. }
  destruct (strict_eq (code resp) (Str "409") && truthy (message resp)).
  2:{ destruct Hshown as [(st' & ext' & ok & -> & Hrest)| ->];
        [now exists st', ext', ok|].
      unfold logError, bind, emit, ret; cbn [fst snd];
        rewrite <- app_assoc; apply Hfailed. }
  destruct (message resp) as [| | | |text| |] eqn:Hmessage.
  5:{ destruct (buildIdMatch text).
      - rewrite push_and_start. apply Hstarted.
      - destruct Hshown as [(st' & ext' & ok & -> & Hrest)| ->];
          [now exists st', ext', ok|].
        unfold logError, bind, emit, ret; cbn [fst snd];
          rewrite <- app_assoc; apply Hfailed. }
  all: unfold throw, logError, bind, emit, ret; cbn [fst snd];
    rewrite <- app_assoc; apply Hfailed.
Qed.

(** A primitive value converts. *)
Lemma primitive_converts (v : value) : primitive v = true -> converts v = true.
Proof. destruct v; try reflexivity; discriminate. Qed.

(** X16.  When the application has no entry and the response to the start
    request succeeds with a build id in its data that is a primitive
    value, [startPipeline] pushes an entry for that build id, converted to
    a number (a number stays as it is), with the application code as name,
    on the list that the request left as it was; it starts the polling
    loop, in which the new entry is polled, and returns [true]. *)
Theorem successful_start (applicationCode : string) (e : env)
        (st : state) (tr : list event) (st1 : state) (tr1 : list event)
        (resp : ApiResponse) :
  tracked applicationCode (deployList st) = false ->
  httpRequest startPipeline_url "POST" (start_body applicationCode) [] 0 e (st, tr)
    = ((st1, tr1), inl resp) ->
  success resp = true ->
  truthy (opt_prop (data resp) "buildId") = true ->
  primitive (opt_prop (data resp) "buildId") = true ->
  startPipeline applicationCode e (st, tr)
    = started e (ToNumber (to_number_other e) (opt_prop (data resp) "buildId"))
              applicationCode st1 tr1
  /\ deployList st1 = deployList st
  /\ (forall id, opt_prop (data resp) "buildId" = Num id ->
                 ToNumber (to_number_other e) (opt_prop (data resp) "buildId") = id)
  /\ (forall id, is_deploying (new_deployInfo id applicationCode) = true).
Proof.
  intros Hnew Hrun Hok Hid Hprim. split; [|split; [|split]].
  - unfold startPipeline, try_catch.
    unfold bind at 1. unfold get at 1. cbn [fst snd].
    unfold tracked in Hnew. rewrite Hnew.
    unfold bind at 1. rewrite Hrun.
    unfold bind at 1. unfold ask at 1.
    rewrite Hok, Hid, (primitive_converts _ Hprim). cbn [andb].
    now rewrite push_and_start.
  - destruct (httpRequest_spec startPipeline_url "POST" (start_body applicationCode)
                [] 0 e st tr) as (st' & ext & resp' & Hrun' & Hl & _).
    rewrite Hrun in Hrun'. now injection Hrun' as -> _ _.
  - intros id ->. reflexivity.
  - reflexivity.
Qed.

(** The theorem for a response that starts build 4521. *)
Lemma successful_start_witness :
  tracked "app" (deployList (tracking [])) = false
  /\ startPipeline "app" (network start_response) (tracking [], [])
     = started (network start_response) (Int 4521) "app" (tracking [])
               [Fetch (request_of startPipeline_url "POST" (start_body "app") [] 0)].
Proof.
  split; [reflexivity|].
  apply (successful_start "app" (network start_response) (tracking []) []
           (tracking [])
           [Fetch (request_of startPipeline_url "POST" (start_body "app") [] 0)]
           (envelope (Obj [("data", Obj [("buildId", Num (Int 4521))])])));
    reflexivity.
Defined.

(** *** [abortPipeline] *)

Lemma map_loading (id : value) (flag : bool) (l : list DeployInfo) :
  map (fun item => if strict_eq (buildId item) id then set_loading item false else item)
      (map (fun item => if strict_eq (buildId item) id then set_loading item flag
                        else item) l)
  = loading_cleared id l.
Proof.
  unfold loading_cleared. rewrite map_map. apply map_ext. intros item.
  destruct (strict_eq (buildId item) id) eqn:H; cbn [set_loading buildId];
    now rewrite H.
Qed.

Lemma map_buildId_loading (id : value) (flag : bool) (l : list DeployInfo) :
  map buildId
      (map (fun item => if strict_eq (buildId item) id then set_loading item flag
                        else item) l)
  = map buildId l.
Proof.
  rewrite map_map. apply map_ext. intros item.
  now destruct (strict_eq (buildId item) id).
Qed.

(** X17.  [abortPipeline] for a build id that no entry has shows the
    warning that the build was not found, sends no request, leaves the
    state as it is and returns [false]. *)
Theorem abort_of_unknown_build (id : value) (e : env) (st : state)
        (tr : list event) :
  (forall item, In item (deployList st) -> strict_eq (buildId item) id = false) ->
  abortPipeline id e (st, tr)
  = ((st, tr ++ [ShowWarningMessage BuildNotFound]), inl false).
Proof.
  intros Hnone. unfold abortPipeline, try_catch.
  unfold bind at 1. unfold get at 1. cbn [fst snd].
  assert (Hfind : find_item (fun item => strict_eq (buildId item) id) (deployList st)
                  = None).
  { unfold find_item. destruct (find _ (deployList st)) as [item|] eqn:Hf;
      [|reflexivity].
    apply find_some in Hf as [Hin Hid]. now rewrite (Hnone item Hin) in Hid. }
  rewrite Hfind. reflexivity.
Qed.

(** The theorem for a manager that tracks build 1 and is asked to abort
    build 2. *)
Lemma abort_of_unknown_build_witness :
  (forall item, In item (deployList (tracking [pending_entry])) ->
                strict_eq (buildId item) (Num (Int 2)) = false)
  /\ abortPipeline (Num (Int 2)) (network running_response)
                   (tracking [pending_entry], [])
     = ((tracking [pending_entry], [ShowWarningMessage BuildNotFound]), inl false).
Proof.
  assert (H : forall item, In item (deployList (tracking [pending_entry])) ->
                           strict_eq (buildId item) (Num (Int 2)) = false).
  { intros item [<-|[]]. reflexivity. }
  split; [exact H|].
  exact (abort_of_unknown_build (Num (Int 2)) (network running_response)
           (tracking [pending_entry]) [] H).
Defined.

(** The way through [abortPipeline] when an entry has the build id: the
    flag is set, the request is made, the flag is cleared; then the poll
    or the error message. *)
Lemma abortPipeline_found (id : value) (e : env) (st : state) (tr : list event)
      (deployInfo : DeployInfo) :
  find_item (fun item => strict_eq (buildId item) id) (deployList st) = Some deployInfo ->
  exists st1 ext resp,
    http_case e tr (abort_request id deployInfo) ext resp
    /\ deployList st1 = loading_cleared id (deployList st)
    /\ checkTimer st1 = checkTimer st
    /\ abortPipeline id e (st, tr)
       = if success resp
         then (fst (fetchProgress id e (st1, tr ++ ext)), inl true)
         else ((st1, tr ++ ext
                        ++ [ShowErrorMessage
                              (AbortFailed (or_else (message resp) (Str "未知错误")))]),
               inl false).
Proof.
  intros Hfind.
  destruct (httpRequest_spec abortPipeline_url "POST"
              (Obj [("buildId", id);
                    ("applicationCode", applicationName deployInfo);
                    ("environmentType", Str "daily")]) [] 0 e
              (set_deployList
                 (map (fun item => if strict_eq (buildId item) id
                                   then set_loading item true else item)
                      (deployList st)) st) tr)
    as (st0 & ext & resp & Hrun & Hl & Ht & Hcase).
  exists (set_deployList
            (map (fun item => if strict_eq (buildId item) id
                              then set_loading item false else item)
                 (deployList st0)) st0), ext, resp.
  split; [exact Hcase|]. cbn [set_deployList deployList checkTimer] in *.
  split; [now rewrite Hl, map_loading|]. split; [exact Ht|].
  unfold abortPipeline, try_catch.
  unfold bind at 1. unfold get at 1. cbn [fst snd]. rewrite Hfind.
  unfold bind at 1. unfold modify at 1. cbn [fst snd].
  unfold bind at 1. rewrite Hrun.
  unfold bind at 1. unfold modify at 1. cbn [fst snd].
  destruct (success resp) eqn:Hok.
  - destruct (fetchProgress_spec id e
                (set_deployList
                   (map (fun item => if strict_eq (buildId item) id
                                     then set_loading item false else item)
                        (deployList st0)) st0) (tr ++ ext))
      as (st2 & ext2 & v & Hpoll & _).
    unfold bind, ret. now rewrite Hpoll.
  - assert (Hconv : converts (or_else (message resp) (Str "未知错误")) = true).
    { destruct Hcase as [pre error Hq|pre error Hq Hbad|pre parsed Hq Hf Hnn];
        try apply failure_detail_converts.
      discriminate Hok. }
    cbv zeta. rewrite Hconv. unfold bind, emit, ret. cbn [fst snd].
    now rewrite <- app_assoc.
Qed.

(** X18.  When an entry has the build id and the abort request is not
    answered by an HTTP 200 with a body, [abortPipeline] returns [false]
    and shows one error message.  The entries keep their status and every
    other field but the [loading] flag of the entries of that build, which
    is [false] afterwards; no poll is made and the timer is untouched. *)
Theorem failed_abort (id : value) (e : env) (st : state) (tr : list event)
        (deployInfo : DeployInfo) :
  network_down e ->
  find_item (fun item => strict_eq (buildId item) id) (deployList st) = Some deployInfo ->
  exists st' ext detail,
    abortPipeline id e (st, tr) = ((st', tr ++ ext), inl false)
    /\ deployList st' = loading_cleared id (deployList st)
    /\ map status (deployList st') = map status (deployList st)
    /\ checkTimer st' = checkTimer st
    /\ notifications ext = [ShowErrorMessage (AbortFailed detail)]
    /\ (requests ext = [] \/ requests ext = [abort_request id deployInfo]).
Proof.
  intros Hdown Hfind.
  destruct (abortPipeline_found id e st tr deployInfo Hfind)
    as (st1 & ext & resp & Hcase & Hl & Ht & Hrun).
  assert (Hfail : success resp = false).
  { destruct Hcase as [pre error Hq|pre error Hq Hbad|pre parsed Hq Hf Hnn];
      try reflexivity.
    specialize (Hdown (tr ++ pre) (abort_request id deployInfo)).
    rewrite Hf in Hdown. discriminate Hdown. }
  rewrite Hfail in Hrun.
  eexists st1, _, _. split; [exact Hrun|]. split; [exact Hl|].
  split; [|split; [exact Ht|split]].
  - rewrite Hl. unfold loading_cleared. rewrite map_map. apply map_ext.
    intros item. now destruct (strict_eq (buildId item) id).
  - rewrite notifications_app, (http_case_notifications _ _ _ _ _ Hcase).
    reflexivity.
  - rewrite requests_app. cbn [requests]. rewrite app_nil_r.
    now apply http_case_requests in Hcase.
Qed.

(** The theorem for a tracked build and a network that is down. *)
Lemma failed_abort_witness :
  network_down (network (FetchRejected "offline"))
  /\ snd (abortPipeline (Num (Int 1)) (network (FetchRejected "offline"))
            (tracking [pending_entry], []))
     = inl false.
Proof.
  assert (H : network_down (network (FetchRejected "offline")))
    by (intros tr r; reflexivity).
  split; [exact H|].
  destruct (failed_abort (Num (Int 1)) (network (FetchRejected "offline"))
              (tracking [pending_entry]) [] pending_entry H eq_refl)
    as (st' & ext & detail & Hrun & _).
  now rewrite Hrun.
Defined.

(** [abortPipeline] never throws and keeps the build ids of the list. *)
Lemma abortPipeline_keeps (id : value) (e : env) (st : state) (tr : list event) :
  exists st' ext aborted,
    abortPipeline id e (st, tr) = ((st', tr ++ ext), inl aborted)
    /\ map buildId (deployList st') = map buildId (deployList st).
Proof.
  destruct (find_item (fun item => strict_eq (buildId item) id) (deployList st))
    as [deployInfo|] eqn:Hfind.
  - destruct (abortPipeline_found id e st tr deployInfo Hfind)
      as (st1 & ext & resp & Hcase & Hl & Ht & Hrun).
    rewrite Hrun.
    assert (Hids : map buildId (deployList st1) = map buildId (deployList st)).
    { rewrite Hl. apply map_buildId_loading. }
    destruct (success resp).
    + destruct (fetchProgress_keeps id e st1 (tr ++ ext))
        as (st2 & ext2 & v & Hpoll & Hl2 & _).
      rewrite Hpoll. exists st2, (ext ++ ext2), true. rewrite app_assoc.
      split; [reflexivity | congruence].
    + eexists st1, _, false. split; [reflexivity | exact Hids].
  - exists st, [ShowWarningMessage BuildNotFound], false.
    split; [|reflexivity].
    unfold abortPipeline, try_catch.
    unfold bind at 1. unfold get at 1. cbn [fst snd]. now rewrite Hfind.
Qed.

(** *** [showDeployActions] *)

(** X19.  For an entry whose name is a string, as the interface has it
    (the menu and the confirmation quote the name), [showDeployActions]
    never throws and never adds an entry.  It removes entries only when
    the user picked the removal for an entry whose status, as shown in the
    menu, is terminal: then every entry with that build id goes, and the
    others stay in their order.  In every other case the build ids of the
    list are as before. *)
Theorem showDeployActions_outcome (deploy : DeployInfo) (name : string) (e : env)
        (st : state) (tr : list event) :
  applicationName deploy = Str name ->
  exists st' ext,
    showDeployActions deploy e (st, tr) = ((st', tr ++ ext), inl tt)
    /\ (map buildId (deployList st') = map buildId (deployList st)
        \/ checkDone (status deploy) = true
           /\ deployList st'
              = filter (fun item => negb (strict_eq (buildId item) (buildId deploy)))
                       (deployList st)
           /\ In (ShowInformationMessage TaskRemoved) ext).
Proof.
  intros Hname. unfold showDeployActions.
  assert (Hconv : converts (applicationName deploy) = true) by now rewrite Hname.
  rewrite Hconv. cbn [negb].
  unfold bind at 1. unfold emit at 1. cbn [fst snd].
  unfold bind at 1. unfold trace at 1. cbn [fst snd].
  unfold bind at 1. unfold ask at 1.
  destruct (action_answer e (tr ++ [ShowQuickPick]) (actions_for deploy)) as [i|].
  2:{ exists st, [ShowQuickPick]. split; [reflexivity | now left]. }
  destruct (nth_error (actions_for deploy) i) as [[| |]|] eqn:Hi.
  - unfold bind, modify, emit. cbn [fst snd].
    eexists _, [ShowQuickPick; ShowInformationMessage TaskRemoved].
    rewrite <- app_assoc. split; [reflexivity|]. right.
    split; [|split; [reflexivity | cbn; tauto]].
    unfold actions_for in Hi.
    destruct (checkDone (status deploy)); [reflexivity|].
    destruct i as [|[|i]]; cbn in Hi; try discriminate Hi.
    destruct i; discriminate Hi.
  - unfold bind at 1. unfold emit at 1. cbn [fst snd].
    unfold bind at 1. unfold trace at 1. cbn [fst snd].
    destruct (abort_confirmed e _).
    + destruct (abortPipeline_keeps (buildId deploy) e st
                  ((tr ++ [ShowQuickPick])
                     ++ [ShowWarningMessage (ConfirmAbort (applicationName deploy))]))
        as (st' & ext & aborted & Hrun & Hl).
      unfold bind. rewrite Hrun. unfold ret.
      eexists st', _. rewrite <- !app_assoc. split; [reflexivity | now left].
    + unfold ret. eexists st, _. rewrite <- !app_assoc.
      split; [reflexivity | now left].
  - destruct (fetchProgress_keeps (buildId deploy) e st (tr ++ [ShowQuickPick]))
      as (st' & ext & v & Hrun & Hl & _).
    unfold bind at 1. rewrite Hrun. unfold emit. cbn [fst snd].
    eexists st', _. rewrite <- !app_assoc. split; [reflexivity | now left].
  - exists st, [ShowQuickPick]. split; [reflexivity | now left].
Qed.

(** The theorem for a user who picks the abort of a running build and
    confirms, with a network that is down. *)
Lemma showDeployActions_outcome_witness :
  applicationName pending_entry = Str "app"
  /\ exists st' ext,
       showDeployActions pending_entry (deciding (FetchRejected "offline"))
                         (tracking [pending_entry], [])
       = ((st', [] ++ ext), inl tt)
       /\ (map buildId (deployList st') = map buildId (deployList (tracking [pending_entry]))
           \/ checkDone (status pending_entry) = true
              /\ deployList st'
                 = filter (fun item => negb (strict_eq (buildId item)
                                                      (buildId pending_entry)))
                          (deployList (tracking [pending_entry]))
              /\ In (ShowInformationMessage TaskRemoved) ext).
Proof.
  split; [reflexivity|].
  exact (showDeployActions_outcome pending_entry "app"
           (deciding (FetchRejected "offline")) (tracking [pending_entry]) [] eq_refl).
Defined.

(** *** Aborting and polling *)

(** A call of [httpRequest] that succeeds was answered by the network. *)
Lemma http_case_success (e : env) (tr : list event) (r : request)
      (ext : list event) (resp : ApiResponse) :
  http_case e tr r ext resp ->
  success resp = true ->
  exists pre parsed,
    forallb is_prompt pre = true
    /\ fetch e (tr ++ pre) r = FetchResponse 200 (inl parsed)
    /\ ext = pre ++ [Fetch r]
    /\ resp = envelope parsed.
Proof.
  intros [pre error Hq|pre error Hq _|pre parsed Hq Hf _] Hok; try discriminate Hok.
  now exists pre, parsed.
Qed.

(** With a token, a valid address and parameters that convert, a request
    that the network does not answer with an HTTP 200 and a body is sent
    and returns a failure envelope. *)
Lemma httpRequest_refused (url method : string) (body : value)
      (params : list (string * value)) (timeout : Z)
      (e : env) (st : state) (tr : list event) (c : ascii) (t : string) :
  authToken st = Some (String c t) ->
  url_valid e (replaceApi url) = true ->
  forallb (fun entry => converts (snd entry)) params = true ->
  answered (fetch e tr (request_of url method body params timeout)) = false ->
  exists error,
    httpRequest url method body params timeout e (st, tr)
    = ((st, tr ++ [Fetch (request_of url method body params timeout);
                   LogError "HTTP请求失败" error]),
       inl (failure error)).
Proof.
  intros Htok Hurl Hpar Hno.
  unfold httpRequest, try_catch. unfold bind at 1.
  assert (Hget : getToken e (st, tr) = ((st, tr), inl (Some (String c t)))).
  { unfold getToken, bind, get, ret. cbn [fst snd]. now rewrite Htok. }
  rewrite Hget. unfold logError, bind, ask, trace, emit, throw, ret. cbn [fst snd].
  rewrite Hurl, Hpar. cbn [negb fst snd].
  fold (request_of url method body params timeout).
  destruct (fetch e tr (request_of url method body params timeout))
    as [error|http_status [parsed|error]]; cbn [answered] in Hno.
  - exists error. cbn [fst snd]. now rewrite <- app_assoc.
  - destruct (http_status =? 200)%Z.
    + destruct parsed; try discriminate Hno.
      eexists. cbn [fst snd]. now rewrite <- app_assoc.
    + eexists. cbn [fst snd]. now rewrite <- app_assoc.
  - destruct (http_status =? 200)%Z; eexists; cbn [fst snd];
      now rewrite <- app_assoc.
Qed.

Lemma answered_inv (o : fetch_outcome) :
  answered o = true ->
  exists parsed, o = FetchResponse 200 (inl parsed) /\ parsed <> Null.
Proof.
  destruct o as [error|http_status [parsed|error]]; try discriminate.
  cbn [answered]. intros H. apply andb_true_iff in H as [Hs Hn].
  apply Z.eqb_eq in Hs. subst http_status. exists parsed. split; [reflexivity|].
  intros ->. discriminate Hn.
Qed.

(** X21.  The manager has a token, the address of the service is valid
    and an entry has the build id.  Then [abortPipeline] sends the abort
    request for that entry at once, and its end is that of the answer.
    When the network answers with an HTTP 200 and a body, it clears the
    flag, polls the build (the poll sends at most its one request) and
    returns [true], whatever the poll brings, without an error message
    of its own.  In every other case it clears the flag, logs the error
    of the request, shows one error message and returns [false], without
    a poll. *)
Theorem abort_then_poll (id : value) (e : env) (st : state) (tr : list event)
        (deployInfo : DeployInfo) (c : ascii) (t : string) :
  find_item (fun item => strict_eq (buildId item) id) (deployList st) = Some deployInfo ->
  authToken st = Some (String c t) ->
  url_valid e (replaceApi abortPipeline_url) = true ->
  if answered (fetch e tr (abort_request id deployInfo))
  then
    exists st' ext v,
      fetchProgress id e (flag_cleared id st, tr ++ [Fetch (abort_request id deployInfo)])
      = ((st', (tr ++ [Fetch (abort_request id deployInfo)]) ++ ext), inl v)
      /\ abortPipeline id e (st, tr)
         = ((st', (tr ++ [Fetch (abort_request id deployInfo)]) ++ ext), inl true)
      /\ (requests ext = [] \/ requests ext = [poll_request id])
  else
    exists error detail,
      abortPipeline id e (st, tr)
      = ((flag_cleared id st,
          tr ++ [Fetch (abort_request id deployInfo);
                 LogError "HTTP请求失败" error;
                 ShowErrorMessage (AbortFailed detail)]),
         inl false).
Proof.
  intros Hfind Htok Hurl.
  set (flagged := set_deployList
                    (map (fun item => if strict_eq (buildId item) id
                                      then set_loading item true else item)
                         (deployList st)) st).
  assert (Hcleared : set_deployList
                       (map (fun item => if strict_eq (buildId item) id
                                         then set_loading item false else item)
                            (deployList flagged)) flagged
                     = flag_cleared id st).
  { unfold flag_cleared, flagged, set_deployList. cbn [deployList checkTimer authToken].
    now rewrite map_loading. }
  assert (Hstart :
            abortPipeline id e (st, tr)
            = try_catch
                (bind (httpRequest abortPipeline_url "POST"
                         (Obj [("buildId", id);
                               ("applicationCode", applicationName deployInfo);
                               ("environmentType", Str "daily")]) [] 0)
                      (fun response =>
                         bind (modify (fun st => set_deployList
                                  (map (fun item => if strict_eq (buildId item) id
                                                    then set_loading item false else item)
                                       (deployList st)) st))
                              (fun _ =>
                                 if success response
                                 then bind (fetchProgress id) (fun _ => ret true)
                                 else
                                   let detail := or_else (message response)
                                                         (Str "未知错误") in
                                   if converts detail
                                   then bind (emit (ShowErrorMessage (AbortFailed detail)))
                                             (fun _ => ret false)
                                   else throw conversion_error)))
                (fun error =>
                   bind (logError "终止部署失败" error)
                        (fun _ => bind (emit (ShowErrorMessage AbortFailedError))
                                       (fun _ => ret false)))
                e (flagged, tr)).
  { unfold abortPipeline, try_catch.
    unfold bind at 1. unfold get at 1. cbn [fst snd]. rewrite Hfind.
    unfold bind at 1. unfold modify at 1. cbn [fst snd]. reflexivity. }
  rewrite Hstart. clear Hstart.
  destruct (answered (fetch e tr (abort_request id deployInfo))) eqn:Hans.
  - apply answered_inv in Hans as (parsed & Hf & Hnn).
    unfold try_catch. unfold bind at 1.
    rewrite (httpRequest_answered abortPipeline_url "POST"
               (Obj [("buildId", id);
                     ("applicationCode", applicationName deployInfo);
                     ("environmentType", Str "daily")]) [] 0 e flagged tr c t parsed
               Htok Hurl eq_refl Hf Hnn).
    fold (abort_request id deployInfo).
    unfold bind at 1. unfold modify at 1. cbn [fst snd envelope success].
    rewrite Hcleared.
    destruct (fetchProgress_requests id e (flag_cleared id st)
                (tr ++ [Fetch (abort_request id deployInfo)]))
      as (st' & ext & v & Hpoll & Hreq).
    exists st', ext, v. split; [exact Hpoll|]. split; [|exact Hreq].
    unfold bind, ret. now rewrite Hpoll.
  - destruct (httpRequest_refused abortPipeline_url "POST"
                (Obj [("buildId", id);
                      ("applicationCode", applicationName deployInfo);
                      ("environmentType", Str "daily")]) [] 0 e flagged tr c t
                Htok Hurl eq_refl Hans) as (error & Hrun).
    unfold try_catch. unfold bind at 1.
    rewrite Hrun. fold (abort_request id deployInfo).
    unfold bind at 1. unfold modify at 1. cbn [fst snd failure success message].
    rewrite Hcleared, failure_detail_converts.
    unfold bind, emit, ret. cbn [fst snd].
    exists error, (or_else (Str error) (Str "未知错误")).
    now rewrite <- app_assoc.
Qed.

(** The theorem for a tracked build whose abort the service accepts. *)
Lemma abort_then_poll_witness :
  snd (abortPipeline (Num (Int 1)) (network running_response)
         (tracking [pending_entry], []))
  = inl true.
Proof.
  pose proof (abort_then_poll (Num (Int 1)) (network running_response)
                (tracking [pending_entry]) [] pending_entry "t" "oken"
                eq_refl eq_refl eq_refl) as H.
  cbn [answered network fetch running_response ok_response Z.eqb Pos.eqb
       strict_eq negb andb] in H.
  destruct H as (st' & ext & v & _ & Hrun & _).
  now rewrite Hrun.
Defined.

(** *** Looking up projects and the application of a project *)

Lemma to_text_pure (other : value -> option string) (v : value) (e : env)
      (s : state * list event) :
  exists r,
    to_text other v e s = (s, r)
    /\ match r with
       | inl text => ToString other v = Some text
       | inr _ => True
       end.
Proof.
  unfold to_text. destruct (ToString other v) as [text|].
  - exists (inl text). now split.
  - eexists (inr _). now split.
Qed.

Lemma or_else_empty (a : value) :
  or_else a (Str EmptyString) = Str EmptyString
  \/ truthy (or_else a (Str EmptyString)) = true.
Proof.
  unfold or_else. destruct (truthy a) eqn:Ha; [now right | now left].
Qed.

Lemma or_else_null (a : value) :
  or_else a Null = Null \/ truthy (or_else a Null) = true.
Proof.
  unfold or_else. destruct (truthy a) eqn:Ha; [now right | now left].
Qed.

(** The [map] of [searchProjects] touches neither the state nor the
    trace; it makes a project of every element, in order, or throws. *)
Lemma mapM_normalize_project (items : list value) (e : env) (s : state * list event) :
  exists r,
    mapM normalize_project items e s = (s, r)
    /\ match r with
       | inl projects =>
           map source_item projects = items /\ Forall normalized projects
       | inr _ => True
       end.
Proof.
  induction items as [|item items IH]; cbn [mapM].
  - exists (inl []). now split.
  - destruct IH as (r & Hrest & Hr).
    assert (Hgo : forall project : ProjectInfo,
              source_item project = item ->
              normalized project ->
              exists r',
                bind (ret project)
                     (fun y : ProjectInfo =>
                        bind (mapM normalize_project items)
                             (fun ys => ret (y :: ys))) e s = (s, r')
                /\ match r' with
                   | inl projects =>
                       map source_item projects = item :: items
                       /\ Forall normalized projects
                   | inr _ => True
                   end).
    { intros project H0 H1. unfold bind at 1. unfold ret at 1.
      unfold bind at 1. rewrite Hrest. destruct r as [projects|error].
      - exists (inl (project :: projects)). split; [reflexivity|].
        destruct Hr as [Hmap Hall]. split; [cbn [map]; now rewrite H0, Hmap|].
        now constructor.
      - exists (inr error). now split. }
    unfold normalize_project at 1.
    destruct item;
      try (eexists (inr _); split; [reflexivity | exact I]);
      (apply Hgo; [reflexivity|]; unfold normalized;
       cbn [source_item businessProjectName businessProjectId project_value
            project_label];
       repeat split; try discriminate; apply or_else_empty).
Qed.

(** The lines logged for the projects touch neither the state nor the
    trace; they throw when a name or an id has no text. *)
Lemma mapM_log_project (other : value -> option string) (projects : list ProjectInfo)
      (e : env) (s : state * list event) :
  exists r,
    mapM (log_project other) projects e s = (s, r)
    /\ match r with
       | inl _ =>
           Forall (fun project =>
                     (exists text,
                        ToString other (businessProjectName project) = Some text)
                     /\ (exists text,
                           ToString other (businessProjectId project) = Some text))
                  projects
       | inr _ => True
       end.
Proof.
  induction projects as [|project projects IH]; cbn [mapM].
  - exists (inl []). now split.
  - unfold log_project at 1.
    destruct (to_text_pure other (businessProjectName project) e s)
      as (r1 & H1 & Hr1).
    unfold bind at 1. unfold bind at 1. rewrite H1.
    destruct r1 as [name|error]; [|exists (inr error); now split].
    destruct (to_text_pure other (businessProjectId project) e s)
      as (r2 & H2 & Hr2).
    unfold bind at 1. rewrite H2.
    destruct r2 as [id|error]; [|exists (inr error); now split].
    unfold ret at 1. destruct IH as (r & Hrest & Hr).
    unfold bind at 1. rewrite Hrest.
    destruct r as [done|error]; [|exists (inr error); now split].
    exists (inl (tt :: done)). split; [reflexivity|].
    constructor; [|exact Hr]. split; [now exists name | now exists id].
Qed.

(** [searchProjects] ends in one of the three ways of [search_case]. *)
Lemma searchProjects_cases (other : value -> option string)
      (keyword : option string) (e : env) (st st1 : state) (tr ext1 : list event)
      (resp : ApiResponse) :
  httpRequest search_url "GET" Undefined (search_params keyword) 0 e (st, tr)
  = ((st1, tr ++ ext1), inl resp) ->
  exists ext projects,
    searchProjects other keyword e (st, tr) = ((st1, tr ++ ext), inl projects)
    /\ search_case other resp ext1 ext projects.
Proof.
  intros Hrun.
  assert (Hcaught : forall error,
            exists ext projects,
              bind (logError "搜索项目失败" error)
                   (fun _ => ret (@nil ProjectInfo)) e (st1, tr ++ ext1)
              = ((st1, tr ++ ext), inl projects)
              /\ search_case other resp ext1 ext projects).
  { intros error. exists (ext1 ++ [LogError "搜索项目失败" error]), [].
    unfold logError, bind, emit, ret. cbn [fst snd]. rewrite <- app_assoc.
    split; [reflexivity | apply search_threw]. }
  unfold searchProjects, try_catch. unfold bind at 1. rewrite Hrun.
  destruct (success resp && truthy (opt_prop (data resp) "list")) eqn:Hok.
  - apply andb_true_iff in Hok as [Hok _].
    destruct (opt_prop (data resp) "list") as [| | | | |items|] eqn:Hlist.
    1-5, 7: unfold throw; apply Hcaught.
    destruct (mapM_normalize_project items e (st1, tr ++ ext1)) as (r1 & H1 & Hr1).
    unfold bind at 1. rewrite H1.
    destruct r1 as [projects|error]; [|apply Hcaught].
    destruct (mapM_log_project other projects e (st1, tr ++ ext1)) as (r2 & H2 & Hr2).
    unfold bind at 1. rewrite H2.
    destruct r2 as [done|error]; [|apply Hcaught].
    exists ext1, projects. unfold ret. split; [reflexivity|].
    destruct Hr1 as [Hmap Hshape].
    apply search_listed; [exact Hok | now rewrite Hmap |].
    clear - Hshape Hr2. induction projects as [|project projects IH];
      [constructor|].
    inversion Hshape as [|? ? Hs Hshape']; subst.
    inversion Hr2 as [|? ? Ht Hr2']; subst.
    constructor; [|now apply IH].
    destruct Ht as (Htn & Hti). now split.
  - destruct (to_text_pure other (or_else (message resp) (Str "未知错误")) e
                (st1, tr ++ ext1)) as (r & Htext & _).
    unfold bind at 1. rewrite Htext.
    destruct r as [text|error]; [|apply Hcaught].
    exists ext1, []. unfold ret. split; [reflexivity | now apply search_empty].
Qed.

(** X22.  [searchProjects] never throws, shows no notification, keeps the
    list and the timer, and sends at most one request.  It returns the
    empty list, or one project for every element of the list of the
    response, in order: then the request was answered by an HTTP 200, no
    element is [null], and every project has the name and the id of its
    element (its own, or else its [name] and [id], or else the empty
    string), its name as value and label, and a name and an id that
    convert to text.  So one element that is [null], or whose name or id
    has no text, empties the whole result, and the error goes to the
    log. *)
Theorem searchProjects_outcome (other : value -> option string)
        (keyword : option string) (e : env) (st : state) (tr : list event) :
  exists st' ext projects,
    searchProjects other keyword e (st, tr) = ((st', tr ++ ext), inl projects)
    /\ deployList st' = deployList st
    /\ checkTimer st' = checkTimer st
    /\ notifications ext = []
    /\ (requests ext = [] \/ requests ext = [search_request keyword])
    /\ Forall (well_formed other) projects
    /\ (projects = []
        \/ exists pre parsed,
             forallb is_prompt pre = true
             /\ fetch e (tr ++ pre) (search_request keyword)
                = FetchResponse 200 (inl parsed)
             /\ opt_prop (payload parsed) "list" = Arr (map source_item projects))
    /\ (forall st1 ext1 resp items,
          httpRequest search_url "GET" Undefined (search_params keyword) 0 e (st, tr)
          = ((st1, tr ++ ext1), inl resp) ->
          success resp = true ->
          opt_prop (data resp) "list" = Arr items ->
          (In Null items
           \/ exists item,
                In item items
                /\ (ToString other (project_name item) = None
                    \/ ToString other (project_ident item) = None)) ->
          projects = []
          /\ exists error, ext = ext1 ++ [LogError "搜索项目失败" error]).
Proof.
  destruct (httpRequest_spec search_url "GET" Undefined (search_params keyword) 0
              e st tr) as (st1 & ext1 & resp & Hrun & Hl & Ht & Hcase).
  fold (search_request keyword) in Hcase.
  assert (Hn := http_case_notifications _ _ _ _ _ Hcase).
  assert (Hr := http_case_requests _ _ _ _ _ Hcase).
  assert (Hsame : forall st2 ext2 resp2,
            httpRequest search_url "GET" Undefined (search_params keyword) 0 e (st, tr)
            = ((st2, tr ++ ext2), inl resp2) ->
            ext2 = ext1 /\ resp2 = resp).
  { intros st2 ext2 resp2 H. rewrite Hrun in H. injection H as _ Hext <-.
    apply app_inv_head in Hext. now split. }
  destruct (searchProjects_cases other keyword e st st1 tr ext1 resp Hrun)
    as (ext & projects & Hsearch & Hend).
  destruct Hend as [projects Hok Hlist Hall|error|Hno].
  - exists st1, ext1, projects. split; [exact Hsearch|].
    split; [exact Hl|]. split; [exact Ht|]. split; [exact Hn|]. split; [exact Hr|].
    split; [exact Hall|]. split.
    + right. destruct (http_case_success _ _ _ _ _ Hcase Hok)
        as (pre & parsed & Hq & Hf & _ & Hresp).
      exists pre, parsed. split; [exact Hq|]. split; [exact Hf|].
      rewrite Hresp in Hlist. exact Hlist.
    + intros st2 ext2 resp2 items H Hok2 Hitems Hbad.
      destruct (Hsame _ _ _ H) as [-> ->].
      rewrite Hlist in Hitems. injection Hitems as <-. exfalso.
      assert (Hfrom : forall item, In item (map source_item projects) ->
                exists project, well_formed other project
                                /\ source_item project = item).
      { intros item Hin. apply in_map_iff in Hin as (project & <- & Hin).
        exists project. split; [|reflexivity].
        now apply (proj1 (Forall_forall _ _) Hall). }
      destruct Hbad as [Hnull|(item & Hin & Hbad)].
      * destruct (Hfrom _ Hnull) as (project & ((Hnn & _) & _) & Hsrc).
        now elim Hnn.
      * destruct (Hfrom _ Hin)
          as (project & ((_ & _ & Hname & Hid & _) & (tn & Htn) & (ti & Hti)) & <-).
        rewrite Hname in Htn. rewrite Hid in Hti.
        destruct Hbad as [Hbad|Hbad]; congruence.
  - exists st1, (ext1 ++ [LogError "搜索项目失败" error]), [].
    split; [exact Hsearch|]. split; [exact Hl|]. split; [exact Ht|].
    rewrite notifications_app, requests_app, Hn. cbn [notifications requests app].
    rewrite app_nil_r.
    split; [reflexivity|]. split; [exact Hr|]. split; [constructor|].
    split; [now left|].
    intros st2 ext2 resp2 items H _ _ _. destruct (Hsame _ _ _ H) as [-> ->].
    split; [reflexivity | now exists error].
  - exists st1, ext1, []. split; [exact Hsearch|].
    split; [exact Hl|]. split; [exact Ht|]. split; [exact Hn|]. split; [exact Hr|].
    split; [constructor|]. split; [now left|].
    intros st2 ext2 resp2 items H Hok2 Hitems _. destruct (Hsame _ _ _ H) as [-> ->].
    rewrite Hok2, Hitems in Hno. discriminate Hno.
Qed.

(** [find] touches neither the state nor the trace. *)
Lemma find_front_pure (items : list value) (e : env) (s : state * list event) :
  exists r, find_front items e s = (s, r).
Proof.
  induction items as [|item items IH]; cbn [find_front].
  - now exists (inl Undefined).
  - destruct item; try (eexists; reflexivity);
      match goal with
      | |- context [strict_eq ?a ?b] => destruct (strict_eq a b)
      end; (exact IH || (eexists; reflexivity)).
Qed.

(** X23.  [getApplicationCode] never throws, shows no notification and
    keeps the list and the timer.  It returns [null] or a truthy value.
    It sends at most two requests: the second one only when the first
    was answered by an HTTP 200 with a first project whose id is truthy
    and converts to text, and that text ends the address of the second
    request.  A truthy result takes both requests. *)
Theorem getApplicationCode_outcome (other : value -> option string)
        (businessProjectId : string) (e : env) (st : state) (tr : list event) :
  exists st' ext applicationCode,
    getApplicationCode other businessProjectId e (st, tr)
    = ((st', tr ++ ext), inl applicationCode)
    /\ deployList st' = deployList st
    /\ checkTimer st' = checkTimer st
    /\ notifications ext = []
    /\ (applicationCode = Null \/ truthy applicationCode = true)
    /\ (requests ext = []
        \/ requests ext = [project_request businessProjectId]
        \/ exists pre parsed text,
             forallb is_prompt pre = true
             /\ fetch e (tr ++ pre) (project_request businessProjectId)
                = FetchResponse 200 (inl parsed)
             /\ truthy (project_id parsed) = true
             /\ ToString other (project_id parsed) = Some text
             /\ requests ext = [project_request businessProjectId;
                                application_request (project_id parsed) text])
    /\ (truthy applicationCode = true -> List.length (requests ext) = 2%nat).
Proof.
  destruct (httpRequest_spec project_url "GET" Undefined
              (project_params businessProjectId) 0 e st tr)
    as (st1 & ext1 & resp1 & Hrun1 & Hl1 & Ht1 & Hcase1).
  fold (project_request businessProjectId) in Hcase1.
  assert (Hn1 := http_case_notifications _ _ _ _ _ Hcase1).
  unfold getApplicationCode, try_catch. unfold bind at 1. rewrite Hrun1.
  destruct (negb (success resp1)
            || negb (truthy (opt_prop (opt_first (opt_prop (data resp1) "list")) "id")))
    eqn:Hstop.
  { unfold ret. exists st1, ext1, Null.
    split; [reflexivity|]. split; [exact Hl1|]. split; [exact Ht1|].
    split; [exact Hn1|]. split; [now left|].
    split; [|discriminate].
    destruct (http_case_requests _ _ _ _ _ Hcase1) as [-> | ->];
      [now left | right; now left]. }
  apply orb_false_iff in Hstop as [Hok1 Hid].
  apply negb_false_iff in Hok1. apply negb_false_iff in Hid.
  destruct (http_case_success _ _ _ _ _ Hcase1 Hok1)
    as (pre & parsed & Hq & Hf & Hext1 & Hresp1).
  rewrite Hresp1 in Hid. cbn [envelope data] in Hid. fold (project_id parsed) in Hid.
  rewrite Hresp1. cbn [envelope data]. fold (project_id parsed).
  assert (Hr1 : requests ext1 = [project_request businessProjectId]).
  { rewrite Hext1, requests_app, (prompt_requests _ Hq). reflexivity. }
  assert (Hnull : forall st' tail,
            deployList st' = deployList st ->
            checkTimer st' = checkTimer st ->
            notifications tail = [] ->
            (requests tail = []
             \/ exists text,
                  ToString other (project_id parsed) = Some text
                  /\ requests tail = [application_request (project_id parsed) text]) ->
            exists st'' ext applicationCode,
              ((st', (tr ++ ext1) ++ tail), @inl value string Null)
              = ((st'', tr ++ ext), inl applicationCode)
              /\ deployList st'' = deployList st
              /\ checkTimer st'' = checkTimer st
              /\ notifications ext = []
              /\ (applicationCode = Null \/ truthy applicationCode = true)
              /\ (requests ext = []
                  \/ requests ext = [project_request businessProjectId]
                  \/ exists pre parsed text,
                       forallb is_prompt pre = true
                       /\ fetch e (tr ++ pre) (project_request businessProjectId)
                          = FetchResponse 200 (inl parsed)
                       /\ truthy (project_id parsed) = true
                       /\ ToString other (project_id parsed) = Some text
                       /\ requests ext = [project_request businessProjectId;
                                          application_request (project_id parsed) text])
              /\ (truthy applicationCode = true -> List.length (requests ext) = 2%nat)).
  { intros st' tail Hl Ht Hnt Hrt. exists st', (ext1 ++ tail), Null.
    rewrite app_assoc. split; [reflexivity|]. split; [exact Hl|]. split; [exact Ht|].
    rewrite notifications_app, requests_app, Hn1, Hnt, Hr1.
    split; [reflexivity|]. split; [now left|]. split; [|discriminate].
    destruct Hrt as [-> | (text & Htext & ->)]; [right; now left|].
    right. right. now exists pre, parsed, text. }
  destruct (to_text_pure other (project_id parsed) e (st1, tr ++ ext1))
    as (r & Htext & Hr).
  unfold bind at 1. rewrite Htext. destruct r as [text|error].
  2:{ unfold logError, bind, emit, ret. cbn [fst snd].
      apply Hnull; [exact Hl1 | exact Ht1 | reflexivity | now left]. }
  destruct (httpRequest_spec (application_url +++ text) "GET" Undefined
              (application_params (project_id parsed)) 0 e st1 (tr ++ ext1))
    as (st2 & ext2 & resp2 & Hrun2 & Hl2 & Ht2 & Hcase2).
  fold (application_request (project_id parsed) text) in Hcase2.
  assert (Hn2 := http_case_notifications _ _ _ _ _ Hcase2).
  assert (Hr2 : requests ext2 = []
                \/ exists text',
                     ToString other (project_id parsed) = Some text'
                     /\ requests ext2 = [application_request (project_id parsed) text']).
  { destruct (http_case_requests _ _ _ _ _ Hcase2) as [-> | ->];
      [now left | right; now exists text]. }
  assert (Hcaught : forall error,
            exists st'' ext applicationCode,
              bind (logError "获取应用代码失败" error) (fun _ => ret Null) e
                   (st2, (tr ++ ext1) ++ ext2)
              = ((st'', tr ++ ext), inl applicationCode)
              /\ deployList st'' = deployList st
              /\ checkTimer st'' = checkTimer st
              /\ notifications ext = []
              /\ (applicationCode = Null \/ truthy applicationCode = true)
              /\ (requests ext = []
                  \/ requests ext = [project_request businessProjectId]
                  \/ exists pre parsed text,
                       forallb is_prompt pre = true
                       /\ fetch e (tr ++ pre) (project_request businessProjectId)
                          = FetchResponse 200 (inl parsed)
                       /\ truthy (project_id parsed) = true
                       /\ ToString other (project_id parsed) = Some text
                       /\ requests ext = [project_request businessProjectId;
                                          application_request (project_id parsed) text])
              /\ (truthy applicationCode = true -> List.length (requests ext) = 2%nat)).
  { intros error. unfold logError, bind, emit, ret. cbn [fst snd].
    rewrite <- (app_assoc (tr ++ ext1)).
    apply Hnull; [congruence | congruence | |].
    - now rewrite notifications_app, Hn2.
    - rewrite requests_app. cbn [requests]. now rewrite app_nil_r. }
  unfold bind at 1. rewrite Hrun2.
  destruct (success resp2 && truthy (opt_prop (data resp2) "applicationClassifies"))
    eqn:Hok2.
  2:{ unfold ret.
      apply Hnull; [congruence | congruence | exact Hn2 | exact Hr2]. }
  apply andb_true_iff in Hok2 as [Hok2 _].
  destruct (opt_prop (data resp2) "applicationClassifies") as [| | | | |items|];
    try (unfold throw; apply Hcaught).
  destruct (find_front_pure items e (st2, (tr ++ ext1) ++ ext2)) as (r3 & Hfind).
  unfold bind at 1. rewrite Hfind. destruct r3 as [found|error]; [|apply Hcaught].
  unfold ret.
  exists st2, (ext1 ++ ext2),
    (or_else (opt_prop (opt_first (opt_prop found "applications")) "nameEn") Null).
  rewrite app_assoc. split; [reflexivity|].
  split; [congruence|]. split; [congruence|].
  rewrite notifications_app, requests_app, Hn1, Hn2, Hr1.
  split; [reflexivity|]. split; [apply or_else_null|].
  destruct (http_case_success _ _ _ _ _ Hcase2 Hok2)
    as (pre2 & parsed2 & Hq2 & _ & -> & _).
  rewrite requests_app, (prompt_requests _ Hq2). cbn [requests app].
  split; [|reflexivity].
  right. right. now exists pre, parsed, text.
Qed.

(** The lookup at work: with a token, the directory service names
    [shop-web] as the application of a project, after two requests. *)
Lemma getApplicationCode_example :
  getApplicationCode no_text "7" directory (tracking [], [])
  = ((tracking [],
      [Fetch (project_request "7");
       Fetch (application_request (Num (Int 42)) "42")]),
     inl (Str "shop-web")).
Proof. reflexivity. Qed.

(** The search at work: two elements, of which the second has only a
    [name] and an [id]. *)
Lemma searchProjects_example :
  snd (searchProjects no_text None
         (network (ok_response
                     [("data",
                       Obj [("list",
                             Arr [Obj [("businessProjectName", Str "shop");
                                       ("businessProjectId", Str "p1")];
                                  Obj [("name", Str "bank"); ("id", Num (Int 7))]])])]))
         (tracking [], []))
  = inl [ {| businessProjectId := Str "p1";
             businessProjectName := Str "shop";
             project_value := Str "shop";
             project_label := Str "shop";
             source_item := Obj [("businessProjectName", Str "shop");
                                 ("businessProjectId", Str "p1")] |};
          {| businessProjectId := Num (Int 7);
             businessProjectName := Str "bank";
             project_value := Str "bank";
             project_label := Str "bank";
             source_item := Obj [("name", Str "bank"); ("id", Num (Int 7))] |} ].
Proof. reflexivity. Qed.

End DeployFacts.
